(** * GLB export scripts (export_env.py, export_char.py, export_rt_scene.py)

    A shallow embedding of the three Blender automation scripts.  The host
    application (bpy, os) is an oracle [Host]; a script is a computation in a
    small monad that threads the loaded blend data, accumulates the sequence
    of effects it performs on the host (prints, operator calls, attribute
    writes) and propagates Python exceptions. *)

From Stdlib Require Import ZArith QArith String Ascii List Lia.
From stdpp Require Import base list strings gmap pretty sorting.

(** ** Strings *)

(** Python [str] values are modelled as byte strings, their UTF-8 encoding:
    containment, prefix and splitting at an ASCII character are the same on
    the bytes as on the code points.  [str.upper] is not: it follows the
    Unicode case mapping of the interpreter, and is an entry of the host
    ([str_upper] below). *)

Definition nl : string := String "010"%char "".

Definition upper_char (c : ascii) : ascii :=
  let n := nat_of_ascii c in
  if (97 <=? n) && (n <=? 122) then ascii_of_nat (n - 32) else c.

(** [s.upper()] for an ASCII string [s]: only the letters a-z change.  The
    sample hosts upper-case with it. *)
Fixpoint upper (s : string) : string :=
  match s with
  | EmptyString => EmptyString
  | String c s' => String (upper_char c) (upper s')
  end.

(** [s.startswith(p)] *)
Definition startswith (s p : string) : bool := String.prefix p s.

(** [sub in s] *)
Fixpoint contains (sub s : string) : bool :=
  String.prefix sub s ||
  match s with
  | EmptyString => false
  | String _ s' => contains sub s'
  end.

(** [s.split(sep)[0]]: the part of [s] before the first [sep], the whole of
    [s] when there is none. *)
Fixpoint split_first (sep : ascii) (s : string) : string :=
  match s with
  | EmptyString => EmptyString
  | String c s' => if Ascii.eqb c sep then EmptyString else String c (split_first sep s')
  end.

(** [sep * n] *)
Fixpoint str_mul (s : string) (n : nat) : string :=
  match n with
  | O => EmptyString
  | S n' => s +:+ str_mul s n'
  end.

(** [os.path.join(a, b)] for a relative [b] and an [a] without trailing
    separator, the only way the scripts call it. *)
Definition path_join (a b : string) : string := a +:+ "/" +:+ b.

(** [os.path.basename(p)]: what follows the last separator. *)
Fixpoint basename (p : string) : string :=
  match p with
  | EmptyString => EmptyString
  | String _ p' => if contains "/" p then basename p' else p
  end.

(** [os.path.dirname(p)] for a path with a directory part below the root. *)
Fixpoint dirname (p : string) : string :=
  match p with
  | EmptyString => EmptyString
  | String c p' => if contains "/" p' then String c (dirname p') else EmptyString
  end.

(** [str(b)] of a Python bool. *)
Definition str_bool (b : bool) : string := if b then "True" else "False".

(** ** Numbers *)

(** Round to the nearest integer, ties to even: the rounding of Python's
    fixed-point float formatting, which is correct on the exact value, and of
    the conversion to a float. *)
Definition round_half_even (q : Q) : Z :=
  let n := Qnum q in
  let d := Zpos (Qden q) in
  let f := (n / d)%Z in
  let r := (n mod d)%Z in
  if (2 * r <? d)%Z then f
  else if (d <? 2 * r)%Z then (f + 1)%Z
  else if Z.even f then f else (f + 1)%Z.

(** The exponent of the binary64 float nearest to [a / b], for positive [a]
    and [b]: the [e] with [2^52 <= a / (b * 2^e) < 2^53]. *)
Definition float_exponent (a b : Z) : Z :=
  let k := (Z.log2 a - Z.log2 b)%Z in
  ((if (a * 2 ^ Z.max 0 (- k) <? b * 2 ^ Z.max 0 k)%Z then k - 1 else k) - 52)%Z.

(** [a / b] on Python ints is true division and yields a float: the binary64
    number nearest to the quotient, ties to even, after a single rounding.
    A float is modelled by the rational it stands for: a significand of at
    most 53 bits times a power of two.  The divisor is positive (the scripts
    divide by [1024 * 1024]) and the dividend a file size, a 64-bit integer,
    so that the exponent stays in the range of binary64. *)
Definition truediv (a b : Z) : Q :=
  if (a =? 0)%Z then 0%Q
  else
    let e := float_exponent (Z.abs a) b in
    if (0 <=? e)%Z then
      inject_Z (Z.sgn a * round_half_even (Z.abs a # Z.to_pos (b * 2 ^ e)) * 2 ^ e)
    else
      (Z.sgn a * round_half_even (Z.abs a * 2 ^ (- e) # Z.to_pos b)) # Z.to_pos (2 ^ (- e)).

Definition two_digits (n : Z) : string :=
  if (n <? 10)%Z then "0" +:+ pretty n else pretty n.

(** [f"{q:.2f}"]: the sign of the float, then its absolute value rounded
    to hundredths. *)
Definition format_2f (q : Q) : string :=
  let h := round_half_even (q * 100)%Q in
  let a := Z.abs h in
  (if (Qnum q <? 0)%Z then "-" else "") +:+
  pretty (a / 100)%Z +:+ "." +:+ two_digits (a mod 100)%Z.

(** ** The blend data the scripts read and write *)

Record Library := { lib_filepath : string; lib_repr : string }.

Record Modifier := { mod_type : string }.

(** An object of [bpy.data.objects].  [in_scene] says whether the object is a
    member of [bpy.context.scene.objects]; [location] and [py_id] carry the
    printed forms of [obj.location[:]] and [id(obj)], which the scripts only
    print. *)
Module Object.
Record t := mk {
  name : string;
  type : string;
  hide_viewport : bool;
  hide_render : bool;
  library : option Library;
  modifiers : list Modifier;
  in_scene : bool;
  location : string;
  py_id : Z }.
End Object.

Module Collection.
Record t := mk {
  name : string;
  hide_viewport : bool;
  hide_render : bool }.
End Collection.

(** A mesh, camera, light or armature datablock; the scripts read only
    its [library]. *)
Record Datablock := { db_library : option Library }.

Record Action := { act_name : string }.

(** What [bpy.ops.wm.open_mainfile] brings in. *)
Record BlendFile := {
  f_objects : list Object.t;
  f_collections : list Collection.t;
  f_meshes : list Datablock;
  f_cameras : list Datablock;
  f_lights : list Datablock;
  f_armatures : list Datablock;
  f_actions : list Action }.

(** The live [bpy.data].  A Python variable bound to an object is a
    reference: here the index of the object's cell in [objects].
    [bpy.data.objects.remove] empties the cell, so that other references stay
    valid and a reference to a removed object dangles.  Collections are never
    added or removed by the scripts; a reference to one is its index. *)
Record Data := {
  objects : list (option Object.t);
  collections : list Collection.t;
  meshes : list Datablock;
  cameras : list Datablock;
  lights : list Datablock;
  armatures : list Datablock;
  actions : list Action }.

Definition load (f : BlendFile) : Data :=
  {| objects := Some <$> f_objects f;
     collections := f_collections f;
     meshes := f_meshes f;
     cameras := f_cameras f;
     lights := f_lights f;
     armatures := f_armatures f;
     actions := f_actions f |}.

Definition set_objects (os : list (option Object.t)) (d : Data) : Data :=
  {| objects := os;
     collections := collections d;
     meshes := meshes d;
     cameras := cameras d;
     lights := lights d;
     armatures := armatures d;
     actions := actions d |}.

Definition set_collections (cs : list Collection.t) (d : Data) : Data :=
  {| objects := objects d;
     collections := cs;
     meshes := meshes d;
     cameras := cameras d;
     lights := lights d;
     armatures := armatures d;
     actions := actions d |}.

(** The object a reference points to, if it has not been removed. *)
Definition obj_at (d : Data) (r : nat) : option Object.t := objects d !! r ≫= id.

(** [list(bpy.data.objects)]: references to the live objects, in order. *)
Fixpoint live_from (k : nat) (cells : list (option Object.t)) : list nat :=
  match cells with
  | [] => []
  | Some _ :: cells' => k :: live_from (S k) cells'
  | None :: cells' => live_from (S k) cells'
  end.

Definition object_refs (d : Data) : list nat := live_from 0 (objects d).

(** The live objects themselves, for code that reads [bpy.data.objects]
    without keeping references. *)
Definition live_objects (d : Data) : list Object.t := omap id (objects d).

(** [bpy.context.scene.objects] *)
Definition scene_objects (d : Data) : list Object.t :=
  List.filter Object.in_scene (live_objects d).

(** ** Exceptions, effects and the host *)

(** The exceptions a call or an attribute access can raise, by the classes
    the scripts tell apart: [Exception] stands for every subclass of it. *)
Inductive exn :=
| KeyboardInterrupt
| Exception (msg : string).

(** What travels up the call stack: an exception, or the [SystemExit] of
    [sys.exit], which only the scripts themselves start and none of their
    [except] clauses matches. *)
Inductive signal :=
| Exn (e : exn)
| SystemExit (code : Z).

(** [str(e)] *)
Definition str_exn (e : exn) : string :=
  match e with
  | KeyboardInterrupt => ""
  | Exception msg => msg
  end.

Inductive pyval := VStr (s : string) | VBool (b : bool).

(** Keyword arguments of an operator call, in call order. *)
Definition kwargs := list (string * pyval).

Fixpoint kwarg (k : string) (kw : kwargs) : option pyval :=
  match kw with
  | [] => None
  | (k', v) :: kw' => if String.eqb k k' then Some v else kwarg k kw'
  end.

Inductive flag := hide_viewport | hide_render.

(** What a script does to the outside, in order.  A call into the host is
    recorded with how it ended: [None] when it returned, [Some e] when it
    raised [e]; [Getsize] records the size it returned.  [Raised] is an
    exception from an attribute access. *)
Inductive event :=
| Print (s : string)
| PrintExc (e : exn)
| ReadHomefile (res : option exn)
| OpenMainfile (filepath : string) (res : option exn)
| SetCollection (c : nat) (a : flag) (v : bool)
| SetObject (r : nat) (a : flag) (v : bool)
| RemoveObject (r : nat)
| Makedirs (path : string) (res : option exn)
| ExportGltf (kw : kwargs) (res : option exn)
| Getsize (path : string) (res : exn + Z)
| Raised (e : exn).

(** The host: Blender, the file system and the interpreter.  Each entry
    answers one kind of call; a call either returns or raises.  Exceptions
    arise at these calls (and at attribute accesses through dangling
    references), not in between.  The exporter is taken to leave the blend
    data as it found it.  [getsize] is [os.path.getsize], the [st_size] of
    the file; [str_upper] is [str.upper], a total function on strings. *)
Record Host := {
  startup : BlendFile;
  read_homefile : exn + BlendFile;
  open_mainfile : string -> exn + BlendFile;
  path_exists : string -> bool;
  makedirs : string -> option exn;
  export_gltf : kwargs -> Data -> option exn;
  getsize : string -> exn + Z;
  str_upper : string -> string }.

Inductive result (A : Type) :=
| Ok (a : A)
| Raise (s : signal).
Arguments Ok {A} a.
Arguments Raise {A} s.

Definition M (A : Type) : Type := Data -> list event * Data * result A.

Definition ret {A} (a : A) : M A := fun d => ([], d, Ok a).

Definition bind {A B} (m : M A) (k : A -> M B) : M B := fun d =>
  match m d with
  | (t1, d1, Ok a) =>
      match k a d1 with
      | (t2, d2, r) => (t1 ++ t2, d2, r)
      end
  | (t1, d1, Raise e) => (t1, d1, Raise e)
  end.

#[global] Instance M_ret : MRet M := @ret.
#[global] Instance M_bind : MBind M := fun A B k m => bind m k.

(** An exception on its way up: what [sys.exit] starts and what a [try]
    without a matching clause passes on. *)
Definition throw {A} (s : signal) : M A := fun d => ([], d, Raise s).

(** An exception being raised; the effect trace records it. *)
Definition raise {A} (e : exn) : M A := fun d => ([Raised e], d, Raise (Exn e)).

Definition emit (e : event) : M unit := fun d => ([e], d, Ok tt).

Definition get : M Data := fun d => ([], d, Ok d).

Definition put (d : Data) : M unit := fun _ => ([], d, Ok tt).

(** [try: m  except <clauses>]: the first clause whose class matches runs. *)
Fixpoint first_clause {A} (clauses : list ((exn -> bool) * (exn -> M A))) (e : exn) : M A :=
  match clauses with
  | [] => throw (Exn e)
  | (matches, h) :: rest => if matches e then h e else first_clause rest e
  end.

Definition handler {A} (clauses : list ((exn -> bool) * (exn -> M A))) (s : signal) : M A :=
  match s with
  | Exn e => first_clause clauses e
  | SystemExit _ => throw s
  end.

Definition try {A} (m : M A) (clauses : list ((exn -> bool) * (exn -> M A))) : M A := fun d =>
  match m d with
  | (t1, d1, Ok a) => (t1, d1, Ok a)
  | (t1, d1, Raise s) =>
      match handler clauses s d1 with
      | (t2, d2, r) => (t1 ++ t2, d2, r)
      end
  end.

(** [except Exception] and [except KeyboardInterrupt] *)
Definition is_Exception (e : exn) : bool :=
  match e with Exception _ => true | _ => false end.

Definition is_KeyboardInterrupt (e : exn) : bool :=
  match e with KeyboardInterrupt => true | _ => false end.

(** [for x in xs: acc = body(acc, x)] *)
Fixpoint for_each {X B} (xs : list X) (body : B -> X -> M B) (acc : B) : M B :=
  match xs with
  | [] => ret acc
  | x :: xs' => acc' ← body acc x; for_each xs' body acc'
  end.

(** [print(s)]; writing to the console is taken to succeed. *)
Definition print (s : string) : M unit := emit (Print s).

(** [sys.exit(code)] *)
Definition sys_exit {A} (code : Z) : M A := throw (SystemExit code).

Definition ReferenceError : exn :=
  Exception "ReferenceError: StructRNA has been removed".

(** Reading through a reference. *)
Definition deref (r : nat) : M Object.t := fun d =>
  match obj_at d r with
  | Some o => ([], d, Ok o)
  | None => ([Raised ReferenceError], d, Raise (Exn ReferenceError))
  end.

Definition deref_collection (c : nat) : M Collection.t := fun d =>
  match collections d !! c with
  | Some x => ([], d, Ok x)
  | None => ([Raised ReferenceError], d, Raise (Exn ReferenceError))
  end.

(** [[r for r in refs if cond(r)]] over references. *)
Fixpoint filter_refs (cond : Object.t -> bool) (refs : list nat) : M (list nat) :=
  match refs with
  | [] => ret []
  | r :: refs' =>
      o ← deref r;
      rest ← filter_refs cond refs';
      ret (if cond o then r :: rest else rest)
  end.

Definition set_flag (a : flag) (v : bool) (o : Object.t) : Object.t :=
  match a with
  | hide_viewport =>
      Object.mk (Object.name o) (Object.type o) v (Object.hide_render o)
        (Object.library o) (Object.modifiers o) (Object.in_scene o)
        (Object.location o) (Object.py_id o)
  | hide_render =>
      Object.mk (Object.name o) (Object.type o) (Object.hide_viewport o) v
        (Object.library o) (Object.modifiers o) (Object.in_scene o)
        (Object.location o) (Object.py_id o)
  end.

Definition set_collection_flag (a : flag) (v : bool) (c : Collection.t) : Collection.t :=
  match a with
  | hide_viewport => Collection.mk (Collection.name c) v (Collection.hide_render c)
  | hide_render => Collection.mk (Collection.name c) (Collection.hide_viewport c) v
  end.

(** [obj.<a> = v] through a reference. *)
Definition setattr_object (r : nat) (a : flag) (v : bool) : M unit := fun d =>
  match obj_at d r with
  | Some o => ([SetObject r a v], set_objects (<[r := Some (set_flag a v o)]> (objects d)) d, Ok tt)
  | None => ([Raised ReferenceError], d, Raise (Exn ReferenceError))
  end.

(** [collection.<a> = v] through a reference. *)
Definition setattr_collection (c : nat) (a : flag) (v : bool) : M unit := fun d =>
  match collections d !! c with
  | Some x =>
      ([SetCollection c a v],
       set_collections (<[c := set_collection_flag a v x]> (collections d)) d, Ok tt)
  | None => ([Raised ReferenceError], d, Raise (Exn ReferenceError))
  end.

(** [bpy.data.objects.remove(obj)] *)
Definition remove_object (r : nat) : M unit := fun d =>
  match obj_at d r with
  | Some _ => ([RemoveObject r], set_objects (<[r := None]> (objects d)) d, Ok tt)
  | None => ([Raised ReferenceError], d, Raise (Exn ReferenceError))
  end.

Definition gets {A} (f : Data -> A) : M A := fun d => ([], d, Ok (f d)).

(** References to the collections of [bpy.data.collections]. *)
Definition collection_refs (d : Data) : list nat := seq 0 (length (collections d)).

(** [obj.modifiers and any(m.type == 'ARMATURE' for m in obj.modifiers)] *)
Definition has_armature_modifier (obj : Object.t) : bool :=
  negb (bool_decide (Object.modifiers obj = [])) &&
  existsb (fun m => mod_type m =? "ARMATURE")%string (Object.modifiers obj).

Definition is_linked {A} (lib : A -> option Library) (x : A) : bool :=
  match lib x with Some _ => true | None => false end.

(** ** Calls into the host *)

Section HostCalls.

Context (host : Host).

(** [bpy.ops.wm.read_homefile(use_empty=True)] *)
Definition bpy_ops_wm_read_homefile : M unit := fun d =>
  match read_homefile host with
  | inl e => ([ReadHomefile (Some e)], d, Raise (Exn e))
  | inr f => ([ReadHomefile None], load f, Ok tt)
  end.

(** [bpy.ops.wm.open_mainfile(filepath=...)] *)
Definition bpy_ops_wm_open_mainfile (filepath : string) : M unit := fun d =>
  match open_mainfile host filepath with
  | inl e => ([OpenMainfile filepath (Some e)], d, Raise (Exn e))
  | inr f => ([OpenMainfile filepath None], load f, Ok tt)
  end.

(** [bpy.ops.export_scene.gltf] with keyword arguments [kw] *)
Definition bpy_ops_export_scene_gltf (kw : kwargs) : M unit := fun d =>
  match export_gltf host kw d with
  | Some e => ([ExportGltf kw (Some e)], d, Raise (Exn e))
  | None => ([ExportGltf kw None], d, Ok tt)
  end.

Definition os_path_exists (p : string) : M bool := ret (path_exists host p).

Definition os_makedirs (p : string) : M unit := fun d =>
  match makedirs host p with
  | Some e => ([Makedirs p (Some e)], d, Raise (Exn e))
  | None => ([Makedirs p None], d, Ok tt)
  end.

Definition os_path_getsize (p : string) : M Z := fun d =>
  match getsize host p with
  | inl e => ([Getsize p (inl e)], d, Raise (Exn e))
  | inr n => ([Getsize p (inr n)], d, Ok n)
  end.

End HostCalls.

(** How a process ends: with an exit status, or on an exception nothing in
    the script caught (the interpreter then reports it). *)
Inductive outcome :=
| Exit (status : Z)
| Uncaught (e : exn).

(** Running a script's [__main__] block from the host's startup data. *)
Definition run (host : Host) (main : M unit) : list event * outcome :=
  match main (load (startup host)) with
  | (t, _, Ok _) => (t, Exit 0)
  | (t, _, Raise (SystemExit c)) => (t, Exit c)
  | (t, _, Raise (Exn e)) => (t, Uncaught e)
  end.

(** ** export_env.py *)

Module Env.

Definition PROJECT_DIR : string := "/Users/amaro/Documents/dev/based.guide_realtime".
Definition ENV_FILE : string :=
  "/Users/amaro/Library/CloudStorage/GoogleDrive-amaro@amarokoberle.com/My Drive/based.guide/3D/assets/environments/ApeEscapeOffice/ENV_ApeEscapeOffice_MASTER.blend".
Definition OUTPUT_GLB : string :=
  path_join (path_join PROJECT_DIR "public") "ENV_ApeEscapeOffice.glb".

(** The keyword arguments of the export call. *)
Definition gltf_options : kwargs :=
  [ ("filepath", VStr OUTPUT_GLB);
    ("export_format", VStr "GLB");
    ("use_selection", VBool false);
    ("use_visible", VBool true);
    ("export_cameras", VBool false);
    ("export_lights", VBool true);
    ("export_yup", VBool true);
    ("export_apply", VBool true);
    ("export_texcoords", VBool true);
    ("export_normals", VBool true);
    ("export_tangents", VBool true);
    ("export_animations", VBool false);
    ("export_skins", VBool false);
    ("export_draco_mesh_compression_enable", VBool false) ].

Section Script.

Context (host : Host).

(** The body of [for collection in bpy.data.collections], with the list
    [hidden_collections] it appends to. *)
Definition hide_working (hidden_collections : list string) (collection : nat)
  : M (list string) :=
  c ← deref_collection collection;
  if contains "WORKING" (str_upper host (Collection.name c)) then
    setattr_collection collection hide_viewport true;;
    setattr_collection collection hide_render true;;
    print ("   • Hiding: " +:+ Collection.name c);;
    mret (hidden_collections ++ [Collection.name c])
  else mret hidden_collections.

(** The collection-hiding step: the loop over [bpy.data.collections]. *)
Definition hide_working_collections : M (list string) :=
  cs ← gets collection_refs;
  for_each cs hide_working [].

Definition export_environment : M unit :=
  print (str_mul "=" 60);;
  print "Environment Export Script";;
  print (str_mul "=" 60);;
  (* 1. Load the environment Blender file *)
  print (nl +:+ "1. Loading environment file: " +:+ ENV_FILE);;
  try (bpy_ops_wm_open_mainfile host ENV_FILE;;
       print "   ✓ File loaded")
    [(is_Exception, fun e =>
        print ("❌ Error loading file: " +:+ str_exn e);;
        sys_exit 1)];;
  (* 2. Verify environment contents *)
  print (nl +:+ "2. Verifying environment contents...");;
  all_objects ← gets object_refs;
  meshes ← filter_refs (fun obj => Object.type obj =? "MESH")%string all_objects;
  lights ← filter_refs (fun obj => Object.type obj =? "LIGHT")%string all_objects;
  cameras ← filter_refs (fun obj => Object.type obj =? "CAMERA")%string all_objects;
  print ("   - Meshes: " +:+ pretty (length meshes));;
  print ("   - Lights: " +:+ pretty (length lights));;
  print ("   - Cameras: " +:+ pretty (length cameras));;
  (if length meshes =? 0 then
     print (nl +:+ "   ⚠️ WARNING: No meshes found!");;
     print "   This might be normal if environment is in collections."
   else mret tt);;
  (* 3. Hide the working collections *)
  print (nl +:+ "3. Preparing collections for export...");;
  hidden_collections ← hide_working_collections;
  (if negb (bool_decide (hidden_collections = [])) then
     print ("   ✓ Hidden " +:+ pretty (length hidden_collections) +:+ " working collection(s)")
   else mret tt);;
  export_objects ← filter_refs
    (fun obj => negb (Object.hide_viewport obj) && negb (Object.hide_render obj)) all_objects;
  export_meshes ← filter_refs (fun obj => Object.type obj =? "MESH")%string export_objects;
  print ("   Will export " +:+ pretty (length export_objects) +:+ " objects (" +:+
         pretty (length export_meshes) +:+ " meshes)");;
  (* 4. Export GLB *)
  print (nl +:+ "4. Exporting to: " +:+ OUTPUT_GLB);;
  try (bpy_ops_export_scene_gltf host gltf_options;;
       print "   ✓ Export successful!")
    [(is_Exception, fun e =>
        print (nl +:+ "❌ Export failed with error:");;
        print ("   " +:+ str_exn e);;
        sys_exit 1)];;
  size ← os_path_getsize host OUTPUT_GLB;
  let file_size := truediv size (1024 * 1024) in
  print (nl +:+ str_mul "=" 60);;
  print "✓ Environment Export Complete!";;
  print (str_mul "=" 60);;
  print (nl +:+ "GLB file: " +:+ OUTPUT_GLB);;
  print ("File size: " +:+ format_2f file_size +:+ " MB");;
  print (nl +:+ "📊 Exported:");;
  print ("   - " +:+ pretty (length export_meshes) +:+ " mesh(es)");;
  print ("   - " +:+ pretty (length lights) +:+ " light(s)");;
  print (str_mul "=" 60 +:+ nl).

(** [if __name__ == "__main__": export_environment()] *)
Definition main : M unit := export_environment.

End Script.

End Env.

(** [[obj for obj in bpy.data.objects if cond(obj)]] *)
Definition select_objects (cond : Object.t -> bool) : M (list nat) :=
  refs ← gets object_refs;
  filter_refs cond refs.

(** The names of the objects of the current scene, as a set. *)
Definition scene_names (d : Data) : gset string :=
  list_to_set (Object.name <$> scene_objects d).

(** [for action in list(animations)[:n]: print(...)] *)
Definition print_actions (n : nat) : M unit :=
  acts ← gets actions;
  for_each (take n acts) (fun _ action => print ("      • " +:+ act_name action)) tt.

(** ** export_char.py *)

Module Char.

Definition CHAR_FILE : string :=
  "/Users/amaro/Library/CloudStorage/GoogleDrive-amaro@amarokoberle.com/My Drive/based.guide/3D/assets/characters/MrProBonobo/CHAR_MrProBonobo_MASTER.blend".
Definition PROJECT_DIR : string := "/Users/amaro/Documents/dev/based.guide_realtime".
Definition OUTPUT_GLB : string :=
  path_join (path_join PROJECT_DIR "public") "CHAR_MrProBonobo.glb".

Definition gltf_options : kwargs :=
  [ ("filepath", VStr OUTPUT_GLB);
    ("export_format", VStr "GLB");
    ("use_selection", VBool false);
    ("use_visible", VBool true);
    ("use_active_collection", VBool false);
    ("export_cameras", VBool false);
    ("export_lights", VBool false);
    ("export_yup", VBool true);
    ("export_apply", VBool true);
    ("export_texcoords", VBool true);
    ("export_normals", VBool true);
    ("export_tangents", VBool true);
    ("export_animations", VBool true);
    ("export_anim_single_armature", VBool true);
    ("export_nla_strips", VBool true);
    ("export_def_bones", VBool true);
    ("export_optimize_animation_size", VBool true);
    ("export_skins", VBool true);
    ("export_all_influences", VBool false);
    ("export_draco_mesh_compression_enable", VBool false) ].

Definition is_skinned_mesh (obj : Object.t) : bool :=
  (Object.type obj =? "MESH")%string && has_armature_modifier obj.

Section Script.

Context (host : Host).

Definition export_character : M unit :=
  print (nl +:+ str_mul "=" 60);;
  print "Character Export Script";;
  print (str_mul "=" 60);;
  (* Load the character file *)
  print (nl +:+ "1. Loading character file: " +:+ CHAR_FILE);;
  bpy_ops_wm_open_mainfile host CHAR_FILE;;
  print "   ✓ File loaded";;
  (* Verify contents *)
  print (nl +:+ "2. Verifying character contents...");;
  skinned_meshes ← select_objects is_skinned_mesh;
  print ("   - SkinnedMeshes: " +:+ pretty (length skinned_meshes));;
  armatures ← select_objects (fun obj => Object.type obj =? "ARMATURE")%string;
  print ("   - Armatures: " +:+ pretty (length armatures));;
  animations ← gets actions;
  print ("   - Animations: " +:+ pretty (length animations));;
  (if negb (bool_decide (animations = [])) then print_actions 5 else mret tt);;
  (if length skinned_meshes =? 0 then
     print (nl +:+ "   ⚠️ WARNING: No skinned meshes found!");;
     sys_exit 1
   else mret tt);;
  (* Export *)
  print (nl +:+ "3. Exporting to: " +:+ OUTPUT_GLB);;
  print "   (Animation warnings suppressed for cleaner output)";;
  try (bpy_ops_export_scene_gltf host gltf_options;;
       print "   ✓ Export successful!")
    [(is_Exception, fun e =>
        print (nl +:+ "❌ Export failed: " +:+ str_exn e);;
        sys_exit 1)];;
  size ← os_path_getsize host OUTPUT_GLB;
  let file_size := truediv size (1024 * 1024) in
  print (nl +:+ str_mul "=" 60);;
  print "✓ Character Export Complete!";;
  print (str_mul "=" 60);;
  print (nl +:+ "GLB file: " +:+ OUTPUT_GLB);;
  print ("File size: " +:+ format_2f file_size +:+ " MB");;
  print (nl +:+ "📊 Exported:");;
  print ("   - " +:+ pretty (length skinned_meshes) +:+ " skinned mesh(es)");;
  print ("   - " +:+ pretty (length armatures) +:+ " armature(s)");;
  animations ← gets actions;
  print ("   - " +:+ pretty (length animations) +:+ " animation(s)");;
  print (str_mul "=" 60 +:+ nl).

(** The [__main__] block: [KeyboardInterrupt] and [Exception] are caught,
    a [SystemExit] passes through. *)
Definition main : M unit :=
  try export_character
    [(is_KeyboardInterrupt, fun _ =>
        print (nl +:+ nl +:+ "⚠️ Export cancelled by user.");;
        sys_exit 1);
     (is_Exception, fun e =>
        print (nl +:+ nl +:+ "❌ Unexpected error: " +:+ str_exn e);;
        emit (PrintExc e);;
        sys_exit 1)].

End Script.

End Char.

(** ** export_rt_scene.py *)

Module RtScene.

Definition REALTIME_DIR : string :=
  "/Users/amaro/Library/CloudStorage/GoogleDrive-amaro@amarokoberle.com/My Drive/based.guide/3D/realtime".
Definition RT_SCENE_FILE : string := path_join REALTIME_DIR "RT_SCENE_ApeEscape_MASTER.blend".
Definition PROJECT_DIR : string := "/Users/amaro/Documents/dev/based.guide_realtime".
Definition OUTPUT_GLB : string := path_join PROJECT_DIR "public/RT_SCENE_ApeEscape.glb".

Definition gltf_options : kwargs :=
  [ ("filepath", VStr OUTPUT_GLB);
    ("export_format", VStr "GLB");
    ("use_selection", VBool false);
    ("use_visible", VBool true);
    ("use_active_collection", VBool false);
    ("export_cameras", VBool true);
    ("export_lights", VBool true);
    ("export_yup", VBool true);
    ("export_apply", VBool true);
    ("export_texcoords", VBool true);
    ("export_normals", VBool true);
    ("export_tangents", VBool true);
    ("export_animations", VBool true);
    ("export_anim_single_armature", VBool true);
    ("export_nla_strips", VBool true);
    ("export_def_bones", VBool true);
    ("export_optimize_animation_size", VBool true);
    ("export_skins", VBool true);
    ("export_all_influences", VBool false);
    ("export_draco_mesh_compression_enable", VBool false) ].

(** The body of [for collection in bpy.data.collections], with the counter
    [hidden_count]. *)
Definition hide_working (hidden_count : nat) (collection : nat) : M nat :=
  c ← deref_collection collection;
  if contains "Working" (Collection.name c) then
    setattr_collection collection hide_viewport true;;
    setattr_collection collection hide_render true;;
    print ("      - Hidden: " +:+ Collection.name c);;
    mret (hidden_count + 1)
  else mret hidden_count.

(** The collection-hiding step: the loop over [bpy.data.collections]. *)
Definition hide_working_collections : M nat :=
  cs ← gets collection_refs;
  for_each cs hide_working 0.

(** [obj.library.filepath] *)
Definition library_filepath (obj : Object.t) : M string :=
  match Object.library obj with
  | Some l => mret (lib_filepath l)
  | None => raise (Exception "'NoneType' object has no attribute 'filepath'")
  end.

(** The body of [for obj in linked_objects[:5]]. *)
Definition print_linked (_ : unit) (r : nat) : M unit :=
  obj ← deref r;
  filepath ← library_filepath obj;
  print ("      - " +:+ Object.name obj +:+ " (from " +:+ basename filepath +:+ ")").

(** [any(o.name.startswith(base_name) and o.name in scene_object_names
        for o in bpy.data.objects)] *)
Definition has_scene_namesake (scene_object_names : gset string) (base_name : string)
    (d : Data) : bool :=
  existsb (fun o => startswith (Object.name o) base_name &&
                    bool_decide (Object.name o ∈ scene_object_names))
          (live_objects d).

(** The body of [for obj in list(bpy.data.objects)] of the orphaned-duplicate
    removal, with the counter [duplicates_removed]. *)
Definition remove_orphan (scene_object_names : gset string)
    (duplicates_removed : nat) (r : nat) : M nat :=
  obj ← deref r;
  if negb (bool_decide (Object.name obj ∈ scene_object_names)) then
    let base_name := split_first "." (Object.name obj) in
    found ← gets (has_scene_namesake scene_object_names base_name);
    if (found : bool) then
      print ("      • Removing orphaned duplicate: " +:+ Object.name obj);;
      remove_object r;;
      mret (duplicates_removed + 1)
    else mret duplicates_removed
  else mret duplicates_removed.

(** The orphaned-duplicate removal step. *)
Definition remove_orphans : M nat :=
  scene_object_names ← gets scene_names;
  refs ← gets object_refs;
  for_each refs (remove_orphan scene_object_names) 0.

Definition str_library (l : option Library) : string :=
  match l with
  | Some l => lib_repr l
  | None => "None"
  end.

(** The body of [for i, mesh in enumerate(skinned_meshes)]. *)
Definition print_skinned (i : nat) (r : nat) : M nat :=
  mesh ← deref r;
  names ← gets scene_names;
  let in_scene := bool_decide (Object.name mesh ∈ names) in
  print ("      [" +:+ pretty i +:+ "] " +:+ Object.name mesh +:+
         " (viewport: " +:+ str_bool (negb (Object.hide_viewport mesh)) +:+
         ", in_scene: " +:+ str_bool in_scene +:+
         ", id: " +:+ pretty (Object.py_id mesh) +:+
         ", loc: " +:+ Object.location mesh +:+
         ", lib: " +:+ str_library (Object.library mesh) +:+ ")");;
  mret (i + 1).

(** [{obj.name: obj for obj in all_objects if obj.library is None}] *)
Definition overrides (all_objects : list nat) : M (gmap string nat) :=
  locals ← filter_refs (fun obj => negb (is_linked Object.library obj)) all_objects;
  for_each locals (fun (m : gmap string nat) r =>
                     obj ← deref r; mret (<[Object.name obj := r]> m)) ∅.

(** The body of [for obj in all_objects] that hides linked duplicates, with
    the list [hidden_for_export]. *)
Definition hide_linked_duplicate (override_objects : gmap string nat)
    (hidden_for_export : list string) (r : nat) : M (list string) :=
  obj ← deref r;
  if is_linked Object.library obj && bool_decide (is_Some (override_objects !! Object.name obj)) then
    setattr_object r hide_viewport true;;
    setattr_object r hide_render true;;
    print ("   • Hiding linked duplicate (override exists): " +:+ Object.name obj);;
    mret (hidden_for_export ++ [Object.name obj])
  else mret hidden_for_export.

Definition is_skinned_mesh (obj : Object.t) : bool :=
  (Object.type obj =? "MESH")%string && negb (Object.hide_viewport obj) &&
  has_armature_modifier obj.

Definition is_final_skinned_mesh (obj : Object.t) : bool :=
  (Object.type obj =? "MESH")%string && has_armature_modifier obj.

Definition is_visible (ty : string) (obj : Object.t) : bool :=
  (Object.type obj =? ty)%string && negb (Object.hide_viewport obj).

Section Script.

Context (host : Host).

Definition export_rt_scene : M unit :=
  print (nl +:+ str_mul "=" 60);;
  print "RT_SCENE Export Script";;
  print (str_mul "=" 60);;
  (* Clear current scene *)
  bpy_ops_wm_read_homefile host;;
  (* Open RT_SCENE file *)
  print (nl +:+ "1. Loading RT_SCENE: " +:+ RT_SCENE_FILE);;
  found ← os_path_exists host RT_SCENE_FILE;
  (if negb found then
     print ("❌ ERROR: RT_SCENE file not found at: " +:+ RT_SCENE_FILE);;
     print "   Update the path in this script to match your file location.";;
     sys_exit 1
   else mret tt);;
  bpy_ops_wm_open_mainfile host RT_SCENE_FILE;;
  (* Hide the working collections to avoid duplicates *)
  print (nl +:+ "   Hiding 'Working' collections to avoid duplicates...");;
  hidden_count ← hide_working_collections;
  (if hidden_count =? 0 then
     print "      (No 'Working' collections found)"
   else
     print ("      ✓ Hidden " +:+ pretty hidden_count +:+ " 'Working' collection(s)"));;
  (* Count linked data blocks *)
  print (nl +:+ "2. Processing linked data...");;
  linked_objects ← select_objects (is_linked Object.library);
  linked_meshes ← gets (fun d => List.filter (is_linked db_library) (meshes d));
  linked_cameras ← gets (fun d => List.filter (is_linked db_library) (cameras d));
  linked_lights ← gets (fun d => List.filter (is_linked db_library) (lights d));
  linked_armatures ← gets (fun d => List.filter (is_linked db_library) (armatures d));
  (if negb (bool_decide (linked_objects = [])) then
     print ("   Found " +:+ pretty (length linked_objects) +:+ " linked objects");;
     print ("   Found " +:+ pretty (length linked_meshes) +:+ " linked meshes");;
     print ("   Found " +:+ pretty (length linked_cameras) +:+ " linked cameras");;
     print ("   Found " +:+ pretty (length linked_lights) +:+ " linked lights");;
     print ("   Found " +:+ pretty (length linked_armatures) +:+ " linked armatures");;
     for_each (take 5 linked_objects) print_linked tt;;
     (if 5 <? length linked_objects then
        print ("      ... and " +:+ pretty (length linked_objects - 5) +:+ " more")
      else mret tt);;
     print (nl +:+ "   ✓ Library-linked data will be exported directly (no localization needed)")
   else
     print "   ⚠️ WARNING: No linked objects found!";;
     print "   Your RT_SCENE file might not have linked collections.";;
     print "   The export will continue but may not include character.");;
  (* Verify we have a character with SkinnedMesh *)
  print (nl +:+ "3. Verifying scene contents...");;
  print "   - Checking for duplicate orphaned objects...";;
  duplicates_removed ← remove_orphans;
  (if 0 <? duplicates_removed then
     print ("      ✓ Removed " +:+ pretty duplicates_removed +:+ " orphaned duplicate(s)")
   else
     print "      (No duplicates found)");;
  (* Check ALL objects in the file *)
  all_objects ← gets object_refs;
  skinned_meshes ← filter_refs is_skinned_mesh all_objects;
  print ("   - SkinnedMeshes (character): " +:+ pretty (length skinned_meshes));;
  (if negb (bool_decide (skinned_meshes = [])) then
     for_each skinned_meshes print_skinned 0;; mret tt
   else mret tt);;
  cameras ← filter_refs (is_visible "CAMERA") all_objects;
  print ("   - Cameras: " +:+ pretty (length cameras));;
  armatures ← filter_refs (is_visible "ARMATURE") all_objects;
  print ("   - Armatures (rigs): " +:+ pretty (length armatures));;
  meshes ← filter_refs (is_visible "MESH") all_objects;
  print ("   - Total meshes: " +:+ pretty (length meshes));;
  (* Check for animations *)
  animations ← gets actions;
  print ("   - Animations: " +:+ pretty (length animations));;
  (if negb (bool_decide (animations = [])) then print_actions 3 else mret tt);;
  (* Warnings *)
  (if length skinned_meshes =? 0 then
     print (nl +:+ "   ⚠️ WARNING: No SkinnedMeshes found!");;
     print "   The character may not be properly linked or has no armature modifier."
   else mret tt);;
  (if length meshes <? 10 then
     print (nl +:+ "   ⚠️ WARNING: Very few meshes found - is the environment collection linked?");;
     print "   In Blender: File → Link → ENV_ApeEscapeOffice_MASTER.blend → Select ENV collection"
   else mret tt);;
  (if length cameras =? 0 then
     print (nl +:+ "   ⚠️ WARNING: No cameras found!")
   else mret tt);;
  (* Count objects for export *)
  print (nl +:+ "4. Preparing export...");;
  override_objects ← overrides all_objects;
  hidden_for_export ← for_each all_objects (hide_linked_duplicate override_objects) [];
  (if negb (bool_decide (hidden_for_export = [])) then
     print ("   ✓ Temporarily hidden " +:+ pretty (length hidden_for_export) +:+
            " linked duplicate(s)")
   else mret tt);;
  export_objects ← filter_refs (fun obj => negb (Object.hide_viewport obj)) all_objects;
  print ("   Will export " +:+ pretty (length export_objects) +:+ " objects");;
  (* Create output directory if it doesn't exist *)
  let output_dir := dirname OUTPUT_GLB in
  have_dir ← os_path_exists host output_dir;
  (if negb have_dir then
     os_makedirs host output_dir;;
     print ("   Created directory: " +:+ output_dir)
   else mret tt);;
  (* Export GLB *)
  print (nl +:+ "5. Exporting to: " +:+ OUTPUT_GLB);;
  print "   (Animation bone warnings suppressed for cleaner output)";;
  try (bpy_ops_export_scene_gltf host gltf_options;;
       print "   ✓ Export successful!")
    [(is_Exception, fun e =>
        print (nl +:+ "❌ Export failed with error:");;
        print ("   " +:+ str_exn e);;
        sys_exit 1)];;
  size ← os_path_getsize host OUTPUT_GLB;
  let file_size := truediv size (1024 * 1024) in
  (* Count what was actually exported (after hiding duplicates) *)
  final_skinned_meshes ← filter_refs is_final_skinned_mesh export_objects;
  final_armatures ← filter_refs (fun obj => Object.type obj =? "ARMATURE")%string export_objects;
  print (nl +:+ str_mul "=" 60);;
  print "✓ Export Complete!";;
  print (str_mul "=" 60);;
  print (nl +:+ "GLB file: " +:+ OUTPUT_GLB);;
  print ("File size: " +:+ format_2f file_size +:+ " MB");;
  print (nl +:+ "📊 Exported:");;
  print ("   - " +:+ pretty (length export_objects) +:+ " objects");;
  print ("   - " +:+ pretty (length final_skinned_meshes) +:+ " skinned meshes (character)");;
  print ("   - " +:+ pretty (length final_armatures) +:+ " armatures");;
  print ("   - " +:+ pretty (length cameras) +:+ " cameras");;
  animations ← gets actions;
  print ("   - " +:+ pretty (length animations) +:+ " animations");;
  print (nl +:+ "🔄 Next: Refresh your browser to see the updated scene.");;
  print (str_mul "=" 60 +:+ nl).

Definition main : M unit :=
  try export_rt_scene
    [(is_KeyboardInterrupt, fun _ =>
        print (nl +:+ nl +:+ "⚠️ Export cancelled by user.");;
        sys_exit 1);
     (is_Exception, fun e =>
        print (nl +:+ nl +:+ "❌ Unexpected error: " +:+ str_exn e);;
        emit (PrintExc e);;
        sys_exit 1)].

End Script.

End RtScene.

(** ** Observations on runs *)

Definition trace_of (host : Host) (main : M unit) : list event := (run host main).1.
Definition outcome_of (host : Host) (main : M unit) : outcome := (run host main).2.

(** The exception a recorded effect ended with. *)
Definition failure (ev : event) : option exn :=
  match ev with
  | ReadHomefile res | OpenMainfile _ res | Makedirs _ res | ExportGltf _ res => res
  | Getsize _ (inl e) => Some e
  | Raised e => Some e
  | _ => None
  end.

Definition raised (t : list event) : list exn := omap failure t.

Definition export_call (ev : event) : option kwargs :=
  match ev with
  | ExportGltf kw _ => Some kw
  | _ => None
  end.

(** The keyword arguments of the export calls of a run, in order. *)
Definition exports (t : list event) : list kwargs := omap export_call t.

(** The host operations whose order the scripts fix. *)
Inductive step := Load | Toggle | Export | Size.

Definition step_of (ev : event) : option step :=
  match ev with
  | OpenMainfile _ _ => Some Load
  | SetCollection _ _ _ => Some Toggle
  | ExportGltf _ _ => Some Export
  | Getsize _ _ => Some Size
  | _ => None
  end.

Definition rank (s : step) : nat :=
  match s with
  | Load => 1
  | Toggle => 2
  | Export => 3
  | Size => 4
  end.

Definition steps (t : list event) : list nat := omap (fun ev => rank <$> step_of ev) t.

Definition is_toggle (ev : event) : bool :=
  match ev with
  | SetCollection _ _ _ => true
  | _ => false
  end.

(** The lines that carry a diagnostic count start with one of these. *)
Definition count_labels : list string :=
  [ "   - Meshes: "; "   - Lights: "; "   - Cameras: "; "   - SkinnedMeshes";
    "   - Armatures"; "   - Total meshes: "; "   - Animations: "; "   Found " ].

Definition is_count_line (s : string) : bool :=
  existsb (fun l => String.prefix l s) count_labels.

Definition is_count (ev : event) : bool :=
  match ev with
  | Print s => is_count_line s
  | _ => false
  end.

(** Counts over a loaded file, by the words of the specification. *)
Definition count_type (ty : string) (objs : list Object.t) : nat :=
  length (List.filter (fun o => Object.type o =? ty)%string objs).

Definition skinned (o : Object.t) : bool :=
  (Object.type o =? "MESH")%string &&
  existsb (fun m => mod_type m =? "ARMATURE")%string (Object.modifiers o).

Definition shown (o : Object.t) : bool :=
  negb (Object.hide_viewport o) && negb (Object.hide_render o).

(** Visible in the viewport. *)
Definition in_viewport (o : Object.t) : bool := negb (Object.hide_viewport o).

(** [base] is the part of [name] before its first ".": all of [name] when
    [name] has no ".". *)
Definition before_first_dot (name base : string) : Prop :=
  ~ In "."%char (list_ascii_of_string base) /\
  (name = base \/ exists rest, name = base +:+ String "."%char rest).

Definition will_export_line (objs : list Object.t) : string :=
  "   Will export " +:+ pretty (length (List.filter shown objs)) +:+ " objects (" +:+
  pretty (count_type "MESH" (List.filter shown objs)) +:+ " meshes)".

Definition size_line (size : Z) : string :=
  "File size: " +:+ format_2f (truediv size (1024 * 1024)) +:+ " MB".

(** A collection once hidden. *)
Definition hidden (c : Collection.t) : Collection.t :=
  Collection.mk (Collection.name c) true true.

(** What the orphaned-duplicate removal decides for an object, and what it
    leaves of the object cells. *)
Definition orphan (names : gset string) (d : Data) (o : Object.t) : bool :=
  negb (bool_decide (Object.name o ∈ names)) &&
  RtScene.has_scene_namesake names (split_first "." (Object.name o)) d.

Definition sweep (names : gset string) (d : Data) (cells : list (option Object.t))
  : list (option Object.t) :=
  (fun c => match c with
            | Some o => if orphan names d o then None else Some o
            | None => None
            end) <$> cells.

(** ** Judgements on computations *)

Definition trace {A} (x : list event * Data * result A) : list event := x.1.1.

(** [m] only ever produces effects that satisfy [P]. *)
Definition emits {A} (P : event -> Prop) (m : M A) : Prop :=
  forall d, Forall P (trace (m d)).

(** A trace is a sequence of segments, the k-th made of effects that satisfy
    the k-th predicate. *)
Fixpoint segments (L : list (event -> Prop)) (t : list event) : Prop :=
  match L with
  | [] => t = []
  | P :: L' => exists t1 t2, t = t1 ++ t2 /\ Forall P t1 /\ segments L' t2
  end.

(** Running [m] first keeps a trace within [L] if what follows is within [L']. *)
Definition advances {A} (L : list (event -> Prop)) (m : M A) (L' : list (event -> Prop)) : Prop :=
  forall d t', segments L' t' -> segments L (trace (m d) ++ t').

Definition within {A} (L : list (event -> Prop)) (m : M A) : Prop :=
  forall d, segments L (trace (m d)).

(** How a computation ends with respect to exceptions: normally and without
    one; on a guard's [sys.exit(1)] without one; on an exception nothing
    handled; or on the [sys.exit(1)] of a handler that printed a message right
    after the exception. [H] tells which failures an inner handler takes. *)
Inductive verdict {A} (G : Prop) (H : event -> exn -> Prop)
    (t : list event) (r : result A) : Prop :=
| V_ok a : r = Ok a -> raised t = [] -> verdict G H t r
| V_guard : G -> r = Raise (SystemExit 1) -> raised t = [] -> verdict G H t r
| V_raise ev e t1 :
    r = Raise (Exn e) -> t = t1 ++ [ev] -> failure ev = Some e -> raised t1 = [] ->
    ~ H ev e -> verdict G H t r
| V_handled ev e t1 msg t2 :
    r = Raise (SystemExit 1) -> t = t1 ++ ev :: Print msg :: t2 ->
    failure ev = Some e -> raised t1 = [] -> raised t2 = [] ->
    H ev e -> verdict G H t r.

Definition disciplined {A} (G : Prop) (H : event -> exn -> Prop) (m : M A) : Prop :=
  forall d, verdict G H (trace (m d)) (m d).2.

(** The failures the [except Exception] around a call takes. *)
Definition taken (call : event -> bool) (ev : event) (e : exn) : Prop :=
  call ev = true /\ is_Exception e = true.

Definition is_export (ev : event) : bool :=
  match ev with
  | ExportGltf _ _ => true
  | _ => false
  end.

Definition is_load_or_export (ev : event) : bool :=
  match ev with
  | OpenMainfile _ _ | ExportGltf _ _ => true
  | _ => false
  end.

(** Reading an attribute [cond] of the object behind [r]. *)
Definition holds (d : Data) (cond : Object.t -> bool) (r : nat) : bool :=
  from_option cond false (obj_at d r).

Definition live (d : Data) (r : nat) : Prop := is_Some (obj_at d r).

(** Putting a trace in front of a result. *)
Definition after {A} (t : list event) (x : list event * Data * result A)
  : list event * Data * result A :=
  (t ++ x.1.1, x.1.2, x.2).

(** Effects that belong to the host operation of rank [k], or to none. *)
Definition at_step (k : nat) (ev : event) : Prop :=
  match step_of ev with
  | Some s => rank s = k
  | None => True
  end.

Definition quiet (ev : event) : Prop := is_count ev = false.

Definition calm (ev : event) : Prop := is_toggle ev = false.

Definition no_export (ev : event) : Prop := export_call ev = None.

(** [m] calls the exporter once, with [opts], unless it ends on an exception
    before the call. *)
Definition once {A} (opts : kwargs) (m : M A) : Prop :=
  forall d,
    (exports (trace (m d)) = [] /\ forall a, (m d).2 <> Ok a) \/
    exports (trace (m d)) = [opts].

(** Whenever [m] returns, its trace has the effects [pat] in this order. *)
Definition passes {A} (pat : list event) (m : M A) : Prop :=
  forall d t d' a, m d = (t, d', Ok a) -> sublist pat t.

(** The effects of export_env.py, once the file [f] is loaded, up to its
    mesh, light and camera counts. *)
Definition env_head (f : BlendFile) : list event :=
  [ Print (str_mul "=" 60);
    Print "Environment Export Script";
    Print (str_mul "=" 60);
    Print (nl +:+ "1. Loading environment file: " +:+ Env.ENV_FILE);
    OpenMainfile Env.ENV_FILE None;
    Print "   ✓ File loaded";
    Print (nl +:+ "2. Verifying environment contents...");
    Print ("   - Meshes: " +:+ pretty (count_type "MESH" (f_objects f)));
    Print ("   - Lights: " +:+ pretty (count_type "LIGHT" (f_objects f)));
    Print ("   - Cameras: " +:+ pretty (count_type "CAMERA" (f_objects f))) ].

(** The effects of export_char.py, once the file [f] is loaded, up to its
    check for skinned meshes. *)
Definition char_head (f : BlendFile) : list event :=
  [ Print (nl +:+ str_mul "=" 60);
    Print "Character Export Script";
    Print (str_mul "=" 60);
    Print (nl +:+ "1. Loading character file: " +:+ Char.CHAR_FILE);
    OpenMainfile Char.CHAR_FILE None;
    Print "   ✓ File loaded";
    Print (nl +:+ "2. Verifying character contents...");
    Print ("   - SkinnedMeshes: " +:+ pretty (length (List.filter skinned (f_objects f))));
    Print ("   - Armatures: " +:+ pretty (count_type "ARMATURE" (f_objects f)));
    Print ("   - Animations: " +:+ pretty (length (f_actions f))) ] ++
  ((fun a => Print ("      • " +:+ act_name a)) <$> take 5 (f_actions f)).

(** The guards that end a script with status 1 without any exception. *)
Definition no_skinned_mesh (host : Host) : Prop :=
  exists f, open_mainfile host Char.CHAR_FILE = inr f /\ List.filter skinned (f_objects f) = [].

Definition scene_file_missing (host : Host) : Prop :=
  path_exists host RtScene.RT_SCENE_FILE = false.

(** ** Sample files and hosts *)

Definition ex_library : Library :=
  {| lib_filepath := "/assets/characters/CHAR_MrProBonobo_MASTER.blend";
     lib_repr := "<bpy_struct, Library>" |}.

Definition ex_body : Object.t :=
  Object.mk "Body" "MESH" false false (Some ex_library) [Build_Modifier "ARMATURE"]
    true "(0.0, 0.0, 0.0)" 1.

Definition ex_body_copy : Object.t :=
  Object.mk "Body.001" "MESH" false false None [Build_Modifier "ARMATURE"]
    false "(0.0, 0.0, 0.0)" 2.

Definition ex_camera : Object.t :=
  Object.mk "Camera" "CAMERA" false false None [] true "(0.0, -5.0, 1.5)" 3.

Definition ex_sun : Object.t :=
  Object.mk "Sun" "LIGHT" false true None [] true "(0.0, 0.0, 9.0)" 4.

Definition ex_rig : Object.t :=
  Object.mk "Rig" "ARMATURE" false false (Some ex_library) [] true "(0.0, 0.0, 0.0)" 5.

Definition ex_objects : list Object.t := [ex_body; ex_body_copy; ex_camera; ex_sun; ex_rig].

Definition ex_file : BlendFile :=
  {| f_objects := ex_objects;
     f_collections := [Collection.mk "Working" false false; Collection.mk "EXPORT" false false];
     f_meshes := [ {| db_library := Some ex_library |} ];
     f_cameras := [ {| db_library := None |} ];
     f_lights := [ {| db_library := None |} ];
     f_armatures := [ {| db_library := Some ex_library |} ];
     f_actions := [ {| act_name := "Idle" |}; {| act_name := "Walk" |} ] |}.

(** The same objects with no collection at all: nothing gets hidden. *)
Definition ex_file_flat : BlendFile :=
  {| f_objects := ex_objects;
     f_collections := [];
     f_meshes := f_meshes ex_file;
     f_cameras := f_cameras ex_file;
     f_lights := f_lights ex_file;
     f_armatures := f_armatures ex_file;
     f_actions := f_actions ex_file |}.

Definition ex_empty : BlendFile :=
  {| f_objects := []; f_collections := []; f_meshes := []; f_cameras := [];
     f_lights := []; f_armatures := []; f_actions := [] |}.

(** Every call succeeds; the exported file has 128 KiB. *)
Definition ex_host : Host :=
  {| startup := ex_empty;
     read_homefile := inr ex_empty;
     open_mainfile := fun _ => inr ex_file;
     path_exists := fun _ => true;
     makedirs := fun _ => None;
     export_gltf := fun _ _ => None;
     getsize := fun _ => inr 131072%Z;
     str_upper := upper |}.

Definition ex_host_flat : Host :=
  {| startup := ex_empty;
     read_homefile := inr ex_empty;
     open_mainfile := fun _ => inr ex_file_flat;
     path_exists := fun _ => true;
     makedirs := fun _ => None;
     export_gltf := fun _ _ => None;
     getsize := fun _ => inr 131072%Z;
     str_upper := upper |}.

(** Every call succeeds and the file that opens is empty. *)
Definition ex_host_bare : Host :=
  {| startup := ex_empty;
     read_homefile := inr ex_empty;
     open_mainfile := fun _ => inr ex_empty;
     path_exists := fun _ => true;
     makedirs := fun _ => None;
     export_gltf := fun _ _ => None;
     getsize := fun _ => inr 131072%Z;
     str_upper := upper |}.

(** The export returns but leaves no file to measure. *)
Definition ex_host_no_output : Host :=
  {| startup := ex_empty;
     read_homefile := inr ex_empty;
     open_mainfile := fun _ => inr ex_file;
     path_exists := fun _ => true;
     makedirs := fun _ => None;
     export_gltf := fun _ _ => None;
     getsize := fun _ => inl (Exception "[Errno 2] No such file or directory");
     str_upper := upper |}.

(** The export operator fails. *)
Definition ex_host_export_fails : Host :=
  {| startup := ex_empty;
     read_homefile := inr ex_empty;
     open_mainfile := fun _ => inr ex_file;
     path_exists := fun _ => true;
     makedirs := fun _ => None;
     export_gltf := fun _ _ => Some (Exception "Error: export failed");
     getsize := fun _ => inr 131072%Z;
     str_upper := upper |}.

(** Blend data with one collection, named in lower case. *)
Definition ex_lower : Data :=
  load {| f_objects := []; f_collections := [Collection.mk "working" false false];
          f_meshes := []; f_cameras := []; f_lights := []; f_armatures := [];
          f_actions := [] |}.

(** The scene file of export_rt_scene.py is not there. *)
Definition ex_host_no_scene : Host :=
  {| startup := ex_empty;
     read_homefile := inr ex_empty;
     open_mainfile := fun _ => inl (Exception "Error: Cannot read file");
     path_exists := fun _ => false;
     makedirs := fun _ => None;
     export_gltf := fun _ _ => None;
     getsize := fun _ => inl (Exception "[Errno 2] No such file or directory");
     str_upper := upper |}.

(** The file does not open. *)
Definition ex_host_load_fails : Host :=
  {| startup := ex_empty;
     read_homefile := inr ex_empty;
     open_mainfile := fun _ => inl (Exception "Error: Cannot read file");
     path_exists := fun _ => true;
     makedirs := fun _ => None;
     export_gltf := fun _ _ => None;
     getsize := fun _ => inr 131072%Z;
     str_upper := upper |}.

(** The scene file is there, the output directory is not and cannot be
    created. *)
Definition ex_host_no_dir : Host :=
  {| startup := ex_empty;
     read_homefile := inr ex_empty;
     open_mainfile := fun _ => inr ex_file;
     path_exists := fun p => (p =? RtScene.RT_SCENE_FILE)%string;
     makedirs := fun _ => Some (Exception "[Errno 13] Permission denied");
     export_gltf := fun _ _ => None;
     getsize := fun _ => inr 131072%Z;
     str_upper := upper |}.

(** A linked rig and its local override, which carries the same name. *)
Definition ex_rig_override : Object.t :=
  Object.mk "Rig" "ARMATURE" false false None [] true "(0.0, 0.0, 0.0)" 6.


(** A scene with objects hidden in the viewport ("Coat", "Spare"), an
    orphaned duplicate ("Body.001"), an object outside the scene that
    duplicates nothing ("Lamp.001"), and a linked rig with its local
    override. *)
Definition ex_scene_objects : list Object.t :=
  [ ex_body; ex_body_copy; ex_camera;
    Object.mk "Spare" "CAMERA" true false None [] true "(1.0, -5.0, 1.5)" 7;
    Object.mk "Coat" "MESH" true false None [Build_Modifier "ARMATURE"] true
      "(0.0, 0.0, 0.0)" 8;
    Object.mk "Lamp.001" "LIGHT" false false None [] false "(0.0, 0.0, 3.0)" 9;
    ex_rig; ex_rig_override ].

Definition ex_scene : BlendFile :=
  {| f_objects := ex_scene_objects;
     f_collections := [Collection.mk "Working" false false; Collection.mk "EXPORT" false false];
     f_meshes := [ {| db_library := Some ex_library |}; {| db_library := None |} ];
     f_cameras := [ {| db_library := None |}; {| db_library := None |} ];
     f_lights := [ {| db_library := None |} ];
     f_armatures := [ {| db_library := Some ex_library |}; {| db_library := None |} ];
     f_actions := [ {| act_name := "Idle" |}; {| act_name := "Walk" |} ] |}.

Definition ex_host_scene : Host :=
  {| startup := ex_empty;
     read_homefile := inr ex_empty;
     open_mainfile := fun _ => inr ex_scene;
     path_exists := fun _ => true;
     makedirs := fun _ => None;
     export_gltf := fun _ _ => None;
     getsize := fun _ => inr 1101005%Z;
     str_upper := upper |}.

(** An interpreter that upper-cases the dotless i (U+0131) to "I", as
    Python does; the file has one collection, named with it. *)
Definition ex_dotless : Data :=
  load {| f_objects := []; f_collections := [Collection.mk "workıng" false false];
          f_meshes := []; f_cameras := []; f_lights := []; f_armatures := [];
          f_actions := [] |}.

Definition ex_host_dotless : Host :=
  {| startup := ex_empty;
     read_homefile := inr ex_empty;
     open_mainfile := fun _ => inr ex_empty;
     path_exists := fun _ => true;
     makedirs := fun _ => None;
     export_gltf := fun _ _ => None;
     getsize := fun _ => inr 131072%Z;
     str_upper := fun s => if (s =? "workıng")%string then "WORKING" else upper s |}.

(** A run calls the exporter at most once, with [opts], and exactly once when
    it ends with status 0. *)
Definition exports_once (host : Host) (opts : kwargs) (main : M unit) : Prop :=
  (exports (trace_of host main) = [] \/ exports (trace_of host main) = [opts]) /\
  (outcome_of host main = Exit 0 -> exports (trace_of host main) = [opts]).

(** The effect [ev] of the trace [t] is followed at once by a printed
    message. *)
Definition reported (t : list event) (ev : event) : Prop :=
  exists t1 msg t2, t = t1 ++ ev :: Print msg :: t2.

(** ** Further judgements *)

Definition is_getsize (ev : event) : bool :=
  match ev with
  | Getsize _ _ => true
  | _ => false
  end.

Definition is_open (ev : event) : bool :=
  match ev with
  | OpenMainfile _ _ => true
  | _ => false
  end.

Definition is_makedirs (ev : event) : bool :=
  match ev with
  | Makedirs _ _ => true
  | _ => false
  end.

(** A run of [m] has an effect that satisfies [P] only if it has the effect
    [e0]. *)
Definition requires {A} (P : event -> bool) (e0 : event) (m : M A) : Prop :=
  forall d, Exists (fun ev => P ev = true) (trace (m d)) -> In e0 (trace (m d)).

(** In a run of [m], an effect that satisfies [P] comes only after the
    effect [e0]. *)
Definition precedes {A} (P : event -> bool) (e0 : event) (m : M A) : Prop :=
  forall d t1 ev t2, trace (m d) = t1 ++ ev :: t2 -> P ev = true -> In e0 t1.

(** Console output. *)
Definition message (ev : event) : Prop :=
  match ev with
  | Print _ | PrintExc _ => True
  | _ => False
  end.

(** How a computation ends once an effect has failed: [T ev e t2 s] relates
    the failed effect [ev], its exception [e], the effects [t2] that follow
    and the signal [s] the computation ends on.  A computation that returns
    has no failed effect. *)
Definition ends {A} (T : event -> exn -> list event -> signal -> Prop) (m : M A) : Prop :=
  forall d,
    ((exists a, (m d).2 = Ok a) -> raised (trace (m d)) = []) /\
    (forall t1 ev t2 e,
        trace (m d) = t1 ++ ev :: t2 -> failure ev = Some e ->
        exists s, (m d).2 = Raise s /\ T ev e t2 s).

(** Nothing handles the exception. *)
Definition uncaught (ev : event) (e : exn) (t2 : list event) (s : signal) : Prop :=
  t2 = [] /\ s = Exn e.

Definition signal_outcome (s : signal) : outcome :=
  match s with
  | SystemExit c => Exit c
  | Exn e => Uncaught e
  end.

(** What the [__main__] block of export_rt_scene.py and export_char.py
    prints for an exception. *)
Definition top_report (e : exn) : list event :=
  match e with
  | KeyboardInterrupt => [Print (nl +:+ nl +:+ "⚠️ Export cancelled by user.")]
  | Exception _ => [Print (nl +:+ nl +:+ "❌ Unexpected error: " +:+ str_exn e); PrintExc e]
  end.

(** What each script prints after the effect [ev] has failed with [e]. *)
Definition rt_report (ev : event) (e : exn) : list event :=
  if is_export ev && is_Exception e then
    [Print (nl +:+ "❌ Export failed with error:"); Print ("   " +:+ str_exn e)]
  else top_report e.

Definition char_report (ev : event) (e : exn) : list event :=
  if is_export ev && is_Exception e then
    [Print (nl +:+ "❌ Export failed: " +:+ str_exn e)]
  else top_report e.

(** For export_env.py, which has no handler in its [__main__] block, also
    how the process ends. *)
Definition env_report (ev : event) (e : exn) : list event * outcome :=
  if is_Exception e then
    match ev with
    | OpenMainfile _ _ => ([Print ("❌ Error loading file: " +:+ str_exn e)], Exit 1)
    | ExportGltf _ _ =>
        ([Print (nl +:+ "❌ Export failed with error:"); Print ("   " +:+ str_exn e)], Exit 1)
    | _ => ([], Uncaught e)
    end
  else ([], Uncaught e).

(** The body of a script in which the export call alone has a handler. *)
Definition guarded (report : event -> exn -> list event)
    (ev : event) (e : exn) (t2 : list event) (s : signal) : Prop :=
  if is_export ev && is_Exception e then t2 = report ev e /\ s = SystemExit 1
  else uncaught ev e t2 s.

Definition reports (report : event -> exn -> list event * outcome)
    (ev : event) (e : exn) (t2 : list event) (s : signal) : Prop :=
  t2 = (report ev e).1 /\ signal_outcome s = (report ev e).2.

(** Effects that only ever hide: a flag is set to True. *)
Definition hides_only (ev : event) : Prop :=
  match ev with
  | SetObject _ _ v | SetCollection _ _ v => v = true
  | _ => True
  end.

(** Effects that leave the objects alone. *)
Definition keeps_objects (ev : event) : Prop :=
  match ev with
  | SetObject _ _ _ | RemoveObject _ => False
  | _ => True
  end.

Definition no_makedirs (ev : event) : Prop := is_makedirs ev = false.

(** The only directory export_rt_scene.py may create is the one of its
    output file, and only when the host reports that it does not exist. *)
Definition makedirs_only (host : Host) (ev : event) : Prop :=
  forall p res, ev = Makedirs p res ->
    p = dirname RtScene.OUTPUT_GLB /\ path_exists host p = false.

(** ** After the export call *)

(** An export call that returned. *)
Definition exported (ev : event) : bool :=
  match ev with
  | ExportGltf _ None => true
  | _ => false
  end.

(** What can stop a script once its export call has returned: a failed
    access to an attribute, or a failed readout of the size of [p]. *)
Definition mishap (host : Host) (p : string) (ev : event) : Prop :=
  match ev with
  | Raised _ => True
  | Getsize q (inl e) => q = p /\ getsize host p = inl e
  | _ => False
  end.

(** [m] returns unless an effect in [B] occurs. *)
Definition robust {A} (B : event -> Prop) (m : M A) : Prop :=
  forall d, (exists a, (m d).2 = Ok a) \/ Exists B (trace (m d)).

(** A run of [m] in which the export call has returned goes on to the end
    of [m] unless an effect in [B] occurs. *)
Definition settled {A} (B : event -> Prop) (m : M A) : Prop :=
  forall d, Exists (fun ev => exported ev = true) (trace (m d)) ->
    (exists a, (m d).2 = Ok a) \/ Exists B (trace (m d)).

(** The size readout of a script with export options [opts] and output file
    [p].  Once the export call has returned, the script asks the host for
    the size of [p]; if the host gives a size, the script prints the size
    line and the run ends with status 0.  A run that ends with status 0 has
    the three effects. *)
Definition size_readout (host : Host) (opts : kwargs) (p : string) (main : M unit) : Prop :=
  (In (ExportGltf opts None) (trace_of host main) ->
   sublist [ExportGltf opts None; Getsize p (getsize host p)] (trace_of host main) /\
   forall size, getsize host p = inr size ->
     outcome_of host main = Exit 0 /\
     sublist [ExportGltf opts None; Getsize p (inr size); Print (size_line size)]
             (trace_of host main)) /\
  (outcome_of host main = Exit 0 ->
   exists size, getsize host p = inr size /\
     sublist [ExportGltf opts None; Getsize p (inr size); Print (size_line size)]
             (trace_of host main)).

(** ** Linked duplicates *)

(** The dictionary [override_objects] and the loop over [all_objects] that
    hides the linked duplicates, as [RtScene.export_rt_scene] runs them one
    after the other. *)
Definition hide_linked_duplicates (all_objects : list nat) : M (list string) :=
  override_objects ← RtScene.overrides all_objects;
  for_each all_objects (RtScene.hide_linked_duplicate override_objects) [].

(** A library-linked object that shares its name with a local object among
    [objs]. *)
Definition duplicate_among (objs : list Object.t) (o : Object.t) : bool :=
  is_linked Object.library o &&
  existsb (fun o' => negb (is_linked Object.library o') &&
                     (Object.name o' =? Object.name o)%string)
          objs.

Definition linked_duplicate (d : Data) (o : Object.t) : bool :=
  duplicate_among (live_objects d) o.

(** The test of [RtScene.hide_linked_duplicate]. *)
Definition overridden (override_objects : gmap string nat) (o : Object.t) : bool :=
  is_linked Object.library o && bool_decide (is_Some (override_objects !! Object.name o)).

(** An object once hidden. *)
Definition hide_object (o : Object.t) : Object.t :=
  set_flag hide_render true (set_flag hide_viewport true o).

Definition hide_duplicates (test : Object.t -> bool) (cells : list (option Object.t))
  : list (option Object.t) :=
  (fun c => match c with
            | Some o => Some (if test o then hide_object o else o)
            | None => None
            end) <$> cells.

(** ** Access through references *)

(** An effect other than a failed access to an attribute. *)
Definition sound (ev : event) : Prop :=
  match ev with
  | Raised _ => False
  | _ => True
  end.

(** Started in a state that satisfies [P], [m] never fails on an access to
    an attribute, and when it returns [a] the state satisfies [Q a]. *)
Definition hoare {A} (P : Data -> Prop) (m : M A) (Q : A -> Data -> Prop) : Prop :=
  forall d, P d ->
    Forall sound (trace (m d)) /\
    forall t d' a, m d = (t, d', Ok a) -> Q a d'.

(** The references [refs] point to objects that have not been removed. *)
Definition alive (refs : list nat) (d : Data) : Prop := Forall (live d) refs.

(** The references [refs] point to library-linked objects. *)
Definition all_linked (refs : list nat) (d : Data) : Prop :=
  Forall (fun r => holds d (is_linked Object.library) r = true) refs.

(** ** The report on linked data *)

(** The line export_rt_scene.py prints for a linked object. *)
Definition linked_line (o : Object.t) : option event :=
  (fun l => Print ("      - " +:+ Object.name o +:+ " (from " +:+
                   basename (lib_filepath l) +:+ ")")) <$> Object.library o.

(** What export_rt_scene.py prints on the linked data of the file [f], when
    the file has linked objects. *)
Definition linked_report (f : BlendFile) : list event :=
  let linked := List.filter (is_linked Object.library) (f_objects f) in
  [ Print ("   Found " +:+ pretty (length linked) +:+ " linked objects");
    Print ("   Found " +:+ pretty (length (List.filter (is_linked db_library) (f_meshes f))) +:+
           " linked meshes");
    Print ("   Found " +:+ pretty (length (List.filter (is_linked db_library) (f_cameras f))) +:+
           " linked cameras");
    Print ("   Found " +:+ pretty (length (List.filter (is_linked db_library) (f_lights f))) +:+
           " linked lights");
    Print ("   Found " +:+
           pretty (length (List.filter (is_linked db_library) (f_armatures f))) +:+
           " linked armatures") ] ++
  omap linked_line (take 5 linked) ++
  (if 5 <? length linked
   then [Print ("      ... and " +:+ pretty (length linked - 5) +:+ " more")]
   else []) ++
  [ Print (nl +:+ "   ✓ Library-linked data will be exported directly (no localization needed)") ].

Definition no_linked_report : list event :=
  [ Print "   ⚠️ WARNING: No linked objects found!";
    Print "   Your RT_SCENE file might not have linked collections.";
    Print "   The export will continue but may not include character." ].

(** ** The counts of export_rt_scene.py *)

(** The objects of the file [f] that the orphaned-duplicate removal leaves. *)
Definition kept (f : BlendFile) : list Object.t :=
  List.filter (fun o => negb (orphan (scene_names (load f)) (load f) o)) (f_objects f).

(** The diagnostic counts of export_rt_scene.py and its "Will export" line,
    for the file [f]: the counts are taken over the objects left that are
    visible in the viewport. *)
Definition rt_counts (f : BlendFile) : list event :=
  let objs := List.filter in_viewport (kept f) in
  [ Print ("   - SkinnedMeshes (character): " +:+ pretty (length (List.filter skinned objs)));
    Print ("   - Cameras: " +:+ pretty (count_type "CAMERA" objs));
    Print ("   - Armatures (rigs): " +:+ pretty (count_type "ARMATURE" objs));
    Print ("   - Total meshes: " +:+ pretty (count_type "MESH" objs));
    Print ("   - Animations: " +:+ pretty (length (f_actions f)));
    Print ("   Will export " +:+
           pretty (length (List.filter
                             (fun o => negb (Object.hide_viewport o) &&
                                       negb (duplicate_among (kept f) o))
                             (kept f))) +:+
           " objects") ].

(** The export call of export_rt_scene.py and the two numbers of its summary
    that are fixed before the call: the objects taken for export and the
    cameras counted while verifying the scene. *)
Definition rt_summary (f : BlendFile) : list event :=
  [ ExportGltf RtScene.gltf_options None;
    Print ("   - " +:+
           pretty (length (List.filter
                             (fun o => negb (Object.hide_viewport o) &&
                                       negb (duplicate_among (kept f) o))
                             (kept f))) +:+
           " objects");
    Print ("   - " +:+
           pretty (count_type "CAMERA" (List.filter in_viewport (kept f))) +:+
           " cameras") ].

(** * Proofs *)

(** ** Strings *)

Lemma append_cons c s t : String c s +:+ t = String c (s +:+ t).
Proof. reflexivity. Qed.

Lemma append_nil s : "" +:+ s = s.
Proof. reflexivity. Qed.

Lemma append_nil_r s : s +:+ "" = s.
Proof. induction s as [|c s IH]; [reflexivity|]. rewrite append_cons, IH. reflexivity. Qed.

(** [s.startswith(p)]: [s] is [p] followed by something. *)
Lemma startswith_spec s p : startswith s p = true <-> exists tail, s = p +:+ tail.
Proof.
  unfold startswith. revert s. induction p as [|c p IH]; intros s.
  - split; [intros _; exists s; reflexivity | intros _; destruct s; reflexivity].
  - destruct s as [|c' s]; cbn [String.prefix].
    + split; [discriminate | intros (tail & [=])].
    + destruct (ascii_dec c c') as [<-|Hne].
      * rewrite IH. split; intros (tail & E); exists tail.
        -- rewrite append_cons. f_equal. exact E.
        -- rewrite append_cons in E. injection E as E. exact E.
      * split; [discriminate|]. intros (tail & E). rewrite append_cons in E.
        injection E as E _. congruence.
Qed.

(** [sub in s]: [s] has [sub] somewhere. *)
Lemma contains_spec sub s :
  contains sub s = true <-> exists pre post, s = pre +:+ sub +:+ post.
Proof.
  induction s as [|c s IH]; cbn [contains]; rewrite orb_true_iff.
  - fold (startswith "" sub). rewrite startswith_spec. split.
    + intros [(tail & E)|[=]]. exists "", tail. exact E.
    + intros ([|c pre] & post & E); [left; exists post; exact E | discriminate].
  - fold (startswith (String c s) sub). rewrite startswith_spec, IH. split.
    + intros [(tail & E)|(pre & post & E)].
      * exists "", tail. exact E.
      * exists (String c pre), post. rewrite append_cons. f_equal. exact E.
    + intros ([|c' pre] & post & E).
      * left. exists post. exact E.
      * right. rewrite append_cons in E. injection E as _ E. exists pre, post. exact E.
Qed.

(** [split_first] gives the part before the first separator. *)
Lemma split_first_spec sep s :
  exists rest, s = split_first sep s +:+ rest /\
               (rest = "" \/ exists rest', rest = String sep rest') /\
               ~ In sep (list_ascii_of_string (split_first sep s)).
Proof.
  induction s as [|c s (rest & E & Hrest & Hno)]; cbn [split_first].
  - exists "". split_and!; [reflexivity | auto | intros []].
  - destruct (Ascii.eqb_spec c sep) as [->|Hne].
    + exists (String sep s). split_and!; [reflexivity | eauto | intros []].
    + exists rest. split_and!; [| exact Hrest |].
      { change (String c s = String c (split_first sep s +:+ rest)). f_equal. exact E. }
      cbn [list_ascii_of_string]. intros [Hc|Hin]; [congruence | exact (Hno Hin)].
Qed.

Lemma split_first_unique sep s base rest :
  s = base +:+ rest -> ~ In sep (list_ascii_of_string base) ->
  (rest = "" \/ exists rest', rest = String sep rest') ->
  base = split_first sep s.
Proof.
  intros -> Hno Hrest. induction base as [|c base IH].
  - rewrite append_nil. destruct Hrest as [->|(rest' & ->)]; [reflexivity|].
    cbn [split_first]. rewrite Ascii.eqb_refl. reflexivity.
  - rewrite append_cons. cbn [split_first]. cbn [list_ascii_of_string] in Hno.
    destruct (Ascii.eqb_spec c sep) as [->|Hne]; [destruct Hno; left; reflexivity|].
    f_equal. apply IH. intros Hin. apply Hno. right. exact Hin.
Qed.

(** The base name of the code is the part before the first ".". *)
Lemma before_first_dot_spec name base :
  before_first_dot name base <-> base = split_first "." name.
Proof.
  unfold before_first_dot. split.
  - intros [Hno [->|(rest & ->)]].
    + apply (split_first_unique _ _ base ""); [| exact Hno | left; reflexivity].
      symmetry. apply append_nil_r.
    + apply (split_first_unique _ _ base (String "." rest)); eauto.
  - intros ->. destruct (split_first_spec "." name) as (rest & E & Hrest & Hno).
    split; [exact Hno|]. destruct Hrest as [->|(rest' & ->)].
    + left. rewrite append_nil_r in E. exact E.
    + right. exists rest'. exact E.
Qed.

(** ** The monad *)

Section Monad.

Context {A B : Type}.
Implicit Types (m : M A) (k : A -> M B).

Lemma bind_unfold m k d :
  (m ≫= k) d =
  match m d with
  | (t1, d1, Ok a) => after t1 (k a d1)
  | (t1, d1, Raise e) => (t1, d1, Raise e)
  end.
Proof.
  unfold mbind, M_bind, bind, after.
  destruct (m d) as [[t1 d1] [a|e]]; [|reflexivity].
  destruct (k a d1) as [[t2 d2] r]; reflexivity.
Qed.

Lemma bind_eval m k d t1 d1 a :
  m d = (t1, d1, Ok a) -> (m ≫= k) d = after t1 (k a d1).
Proof. intros E. rewrite bind_unfold, E. reflexivity. Qed.

Lemma bind_raise m k d t1 d1 e :
  m d = (t1, d1, Raise e) -> (m ≫= k) d = (t1, d1, Raise e).
Proof. intros E. rewrite bind_unfold, E. reflexivity. Qed.

Lemma bind_ok_inv m k d t d' b :
  (m ≫= k) d = (t, d', Ok b) ->
  exists t1 d1 a t2, m d = (t1, d1, Ok a) /\ k a d1 = (t2, d', Ok b) /\ t = t1 ++ t2.
Proof.
  rewrite bind_unfold. destruct (m d) as [[t1 d1] [a|e]]; [|discriminate].
  unfold after. destruct (k a d1) as [[t2 d2] r] eqn:Ek. cbn. intros [= <- <- ->].
  exists t1, d1, a, t2. auto.
Qed.

End Monad.

Lemma after_nil {A} (x : list event * Data * result A) : after [] x = x.
Proof. destruct x as [[t d] r]. reflexivity. Qed.

Lemma after_after {A} t1 t2 (x : list event * Data * result A) :
  after t1 (after t2 x) = after (t1 ++ t2) x.
Proof. destruct x as [[t d] r]. unfold after. cbn. rewrite app_assoc. reflexivity. Qed.

Lemma trace_after {A} t (x : list event * Data * result A) : trace (after t x) = t ++ trace x.
Proof. reflexivity. Qed.

Lemma result_after {A} t (x : list event * Data * result A) : (after t x).2 = x.2.
Proof. reflexivity. Qed.

(** ** Effects a computation can produce *)

Section Emits.

Context (P : event -> Prop).

Lemma emits_bind {A B} (m : M A) (k : A -> M B) :
  emits P m -> (forall a, emits P (k a)) -> emits P (m ≫= k).
Proof.
  intros Hm Hk d. rewrite bind_unfold. specialize (Hm d).
  destruct (m d) as [[t1 d1] [a|e]]; [|exact Hm].
  rewrite trace_after. apply Forall_app. split; [exact Hm | apply Hk].
Qed.

Lemma emits_ret {A} (a : A) : emits P (mret a).
Proof. intros d. constructor. Qed.

Lemma emits_gets {A} (f : Data -> A) : emits P (gets f).
Proof. intros d. constructor. Qed.

Lemma emits_throw {A} e : emits P (@throw A e).
Proof. intros d. constructor. Qed.

Lemma emits_emit ev : P ev -> emits P (emit ev).
Proof. intros H d. repeat constructor. exact H. Qed.

Lemma emits_raise {A} e : P (Raised e) -> emits P (@raise A e).
Proof. intros H d. repeat constructor. exact H. Qed.

Lemma emits_deref r : P (Raised ReferenceError) -> emits P (deref r).
Proof. intros H d. unfold deref. destruct (obj_at d r); repeat constructor. exact H. Qed.

Lemma emits_deref_collection c : P (Raised ReferenceError) -> emits P (deref_collection c).
Proof.
  intros H d. unfold deref_collection. destruct (collections d !! c); repeat constructor. exact H.
Qed.

Lemma emits_setattr_object r a v :
  P (SetObject r a v) -> P (Raised ReferenceError) -> emits P (setattr_object r a v).
Proof.
  intros H1 H2 d. unfold setattr_object. destruct (obj_at d r); repeat constructor; assumption.
Qed.

Lemma emits_setattr_collection c a v :
  P (SetCollection c a v) -> P (Raised ReferenceError) -> emits P (setattr_collection c a v).
Proof.
  intros H1 H2 d. unfold setattr_collection.
  destruct (collections d !! c); repeat constructor; assumption.
Qed.

Lemma emits_remove_object r :
  P (RemoveObject r) -> P (Raised ReferenceError) -> emits P (remove_object r).
Proof.
  intros H1 H2 d. unfold remove_object. destruct (obj_at d r); repeat constructor; assumption.
Qed.

Lemma emits_for_each {X B} (xs : list X) (body : B -> X -> M B) acc :
  (forall acc x, emits P (body acc x)) -> emits P (for_each xs body acc).
Proof.
  intros Hb. revert acc. induction xs as [|x xs IH]; intros acc; cbn [for_each].
  - apply emits_ret.
  - apply emits_bind; [apply Hb | intros acc'; apply IH].
Qed.

Lemma emits_filter_refs cond refs :
  P (Raised ReferenceError) -> emits P (filter_refs cond refs).
Proof.
  intros H. induction refs as [|r refs IH]; cbn [filter_refs].
  - apply emits_ret.
  - apply emits_bind; [apply emits_deref, H | intros o].
    apply emits_bind; [apply IH | intros rest; apply emits_ret].
Qed.

Lemma emits_first_clause_nil {A} e : emits P (@first_clause A [] e).
Proof. apply emits_throw. Qed.

Lemma emits_first_clause_cons {A} c (h : exn -> M A) rest e :
  emits P (h e) -> emits P (first_clause rest e) -> emits P (first_clause ((c, h) :: rest) e).
Proof. intros H1 H2. cbn [first_clause]. destruct (c e); assumption. Qed.

Lemma emits_handler {A} (clauses : list ((exn -> bool) * (exn -> M A))) s :
  (forall e, emits P (first_clause clauses e)) -> emits P (handler clauses s).
Proof. intros H. destruct s as [e|c]; [apply H | apply emits_throw]. Qed.

Lemma emits_try {A} (m : M A) clauses :
  emits P m -> (forall e, emits P (handler clauses e)) -> emits P (try m clauses).
Proof.
  intros Hm Hh d. unfold try. specialize (Hm d).
  destruct (m d) as [[t1 d1] [a|s]]; [exact Hm|].
  specialize (Hh s d1). destruct (handler clauses s d1) as [[t2 d2] r].
  apply Forall_app. split; assumption.
Qed.

Context (host : Host).

Lemma emits_read_homefile :
  (forall res, P (ReadHomefile res)) -> emits P (bpy_ops_wm_read_homefile host).
Proof.
  intros H d. unfold bpy_ops_wm_read_homefile. destruct (read_homefile host);
    repeat constructor; apply H.
Qed.

Lemma emits_open_mainfile p :
  (forall res, P (OpenMainfile p res)) -> emits P (bpy_ops_wm_open_mainfile host p).
Proof.
  intros H d. unfold bpy_ops_wm_open_mainfile. destruct (open_mainfile host p);
    repeat constructor; apply H.
Qed.

Lemma emits_export_gltf kw :
  (forall res, P (ExportGltf kw res)) -> emits P (bpy_ops_export_scene_gltf host kw).
Proof.
  intros H d. unfold bpy_ops_export_scene_gltf. destruct (export_gltf host kw d);
    repeat constructor; apply H.
Qed.

Lemma emits_path_exists p : emits P (os_path_exists host p).
Proof. apply emits_ret. Qed.

Lemma emits_makedirs p :
  (forall res, P (Makedirs p res)) -> emits P (os_makedirs host p).
Proof.
  intros H d. unfold os_makedirs. destruct (makedirs host p); repeat constructor; apply H.
Qed.

Lemma emits_getsize p :
  (forall res, P (Getsize p res)) -> emits P (os_path_getsize host p).
Proof.
  intros H d. unfold os_path_getsize. destruct (getsize host p); repeat constructor; apply H.
Qed.

End Emits.

Lemma emits_weaken {A} (P Q : event -> Prop) (m : M A) :
  (forall ev, P ev -> Q ev) -> emits P m -> emits Q m.
Proof. intros H Hm d. eapply Forall_impl; [apply Hm | exact H]. Qed.

Ltac head_of t :=
  lazymatch t with
  | ?f _ => head_of f
  | _ => t
  end.

(** One step of a derivation of [emits]; [leaf] settles the conditions on
    single effects. *)
Ltac emits_step leaf :=
  lazymatch goal with
  | |- emits _ (_ ≫= _) => apply emits_bind; [| intros ?]
  | |- emits _ (mret _) => apply emits_ret
  | |- emits _ (ret _) => apply emits_ret
  | |- emits _ (gets _) => apply emits_gets
  | |- emits _ (throw _) => apply emits_throw
  | |- emits _ (sys_exit _) => apply emits_throw
  | |- emits _ (print _) => apply emits_emit; leaf
  | |- emits _ (emit _) => apply emits_emit; leaf
  | |- emits _ (raise _) => apply emits_raise; leaf
  | |- emits _ (deref _) => apply emits_deref; leaf
  | |- emits _ (deref_collection _) => apply emits_deref_collection; leaf
  | |- emits _ (setattr_object _ _ _) => apply emits_setattr_object; leaf
  | |- emits _ (setattr_collection _ _ _) => apply emits_setattr_collection; leaf
  | |- emits _ (remove_object _) => apply emits_remove_object; leaf
  | |- emits _ (filter_refs _ _) => apply emits_filter_refs; leaf
  | |- emits _ (for_each _ _ _) => apply emits_for_each; intros ? ?
  | |- emits _ (try _ _) => apply emits_try; [| intros ?]
  | |- emits _ (handler _ _) => apply emits_handler; intros ?
  | |- emits _ (first_clause [] _) => apply emits_first_clause_nil
  | |- emits _ (first_clause (_ :: _) _) => apply emits_first_clause_cons
  | |- emits _ (bpy_ops_wm_read_homefile _) => apply emits_read_homefile; leaf
  | |- emits _ (bpy_ops_wm_open_mainfile _ _) => apply emits_open_mainfile; leaf
  | |- emits _ (bpy_ops_export_scene_gltf _ _) => apply emits_export_gltf; leaf
  | |- emits _ (os_path_exists _ _) => apply emits_path_exists
  | |- emits _ (os_makedirs _ _) => apply emits_makedirs; leaf
  | |- emits _ (os_path_getsize _ _) => apply emits_getsize; leaf
  | |- emits _ (if ?b then _ else _) => destruct b
  | |- emits _ (match ?x with _ => _ end) => destruct x
  | |- emits _ (let _ := _ in _) => cbv zeta
  | |- emits _ ?m => let h := head_of m in unfold h
  end.

Ltac emits_tac leaf := repeat emits_step leaf.

(** ** Traces made of segments *)

Lemma segments_nil L : segments L [].
Proof.
  induction L as [|P L IH]; cbn; [reflexivity|].
  exists [], []. auto.
Qed.

Lemma segments_skip P L t : segments L t -> segments (P :: L) t.
Proof. intros H. exists [], t. auto. Qed.

Lemma segments_stay P L t t' : Forall P t -> segments (P :: L) t' -> segments (P :: L) (t ++ t').
Proof.
  intros Ht (t1 & t2 & -> & H1 & H2). exists (t ++ t1), t2.
  rewrite app_assoc. split_and!; [reflexivity | apply Forall_app; auto | assumption].
Qed.

(** Effects that fit every segment can be added at the end. *)
Lemma segments_snoc L t t' :
  L <> [] -> segments L t -> Forall (fun ev => Forall (fun P => P ev) L) t' ->
  segments L (t ++ t').
Proof.
  revert t. induction L as [|P L IH]; intros t HL Ht Ht'; [congruence|].
  destruct Ht as (t1 & t2 & -> & H1 & H2). destruct L as [|Q L].
  - cbn in H2. subst t2. rewrite app_nil_r. exists (t1 ++ t'), [].
    rewrite app_nil_r. split_and!; [reflexivity | | reflexivity].
    apply Forall_app. split; [assumption|].
    eapply Forall_impl; [exact Ht'|]. intros ev Hev. inversion Hev; assumption.
  - exists t1, (t2 ++ t'). rewrite app_assoc. split_and!; [reflexivity | assumption |].
    apply IH; [discriminate | assumption |].
    eapply Forall_impl; [exact Ht'|]. intros ev Hev. inversion Hev; assumption.
Qed.

Section Within.

Context {A : Type}.

Lemma advances_stay P L (m : M A) : emits P m -> advances (P :: L) m (P :: L).
Proof. intros Hm d t' Ht'. apply segments_stay; [apply Hm | assumption]. Qed.

Lemma advances_skip P L L' (m : M A) : advances L m L' -> advances (P :: L) m L'.
Proof. intros Hm d t' Ht'. apply segments_skip, Hm, Ht'. Qed.

Lemma within_last L L' (m : M A) : advances L m L' -> within L m.
Proof.
  intros Hm d. specialize (Hm d [] (segments_nil L')). rewrite app_nil_r in Hm. exact Hm.
Qed.

Lemma within_bind {B} L L' (m : M A) (k : A -> M B) :
  advances L m L' -> (forall a, within L' (k a)) -> within L (m ≫= k).
Proof.
  intros Hm Hk d. rewrite bind_unfold. pose proof (Hm d) as Hd.
  destruct (m d) as [[t1 d1] [a|s]].
  - rewrite trace_after. apply Hd, Hk.
  - specialize (Hd [] (segments_nil L')). rewrite app_nil_r in Hd. exact Hd.
Qed.

Lemma within_try L (m : M A) clauses :
  L <> [] -> within L m ->
  (forall s, emits (fun ev => Forall (fun P => P ev) L) (handler clauses s)) ->
  within L (try m clauses).
Proof.
  intros HL Hm Hh d. unfold try. specialize (Hm d).
  destruct (m d) as [[t1 d1] [a|s]]; [exact Hm|].
  specialize (Hh s d1). destruct (handler clauses s d1) as [[t2 d2] r].
  apply segments_snoc; assumption.
Qed.

End Within.

(** Find the segment the next statement fits in. *)
Ltac advance leaf :=
  first [ apply advances_stay; solve [emits_tac leaf]
        | apply advances_skip; advance leaf ].

Ltac within_tac leaf :=
  repeat (cbv zeta;
          lazymatch goal with
          | |- within _ (_ ≫= _) => eapply within_bind; [advance leaf | intros ?]
          | |- within _ _ => eapply within_last; advance leaf
          end).

Ltac by_computation := intros; cbn; first [reflexivity | exact I | discriminate].

(** ** The order of the host operations *)

Lemma steps_app t1 t2 : steps (t1 ++ t2) = steps t1 ++ steps t2.
Proof. apply omap_app. Qed.

Lemma steps_at k t : Forall (at_step k) t -> Forall (fun n => n = k) (steps t).
Proof.
  induction 1 as [|ev t Hev _ IH]; [constructor|].
  unfold steps. cbn. unfold at_step in Hev.
  destruct (step_of ev) as [s|]; cbn; [constructor|]; assumption.
Qed.

Lemma sorted_const k l : Forall (fun n => n = k) l -> StronglySorted le l.
Proof.
  induction 1 as [|n l -> Hl IH]; constructor; [assumption|].
  eapply Forall_impl; [exact Hl|]. intros n ->. reflexivity.
Qed.

Lemma segments_steps_sorted t :
  segments [at_step 1; at_step 2; at_step 3; at_step 4] t -> StronglySorted le (steps t).
Proof.
  intros (t1 & r1 & -> & H1 & t2 & r2 & -> & H2 & t3 & r3 & -> & H3 & t4 & r4 & -> & H4 & ->).
  rewrite app_nil_r, !steps_app.
  apply steps_at in H1, H2, H3, H4.
  repeat (apply StronglySorted_app_2; [| eauto using sorted_const |]);
    eauto using sorted_const.
  all: intros x1 x2 Hx1 Hx2; rewrite ?elem_of_app in Hx2;
    rewrite Forall_forall in H1, H2, H3, H4;
    repeat match goal with
           | H : _ \/ _ |- _ => destruct H
           | H : forall x, x ∈ ?l -> _, Hx : _ ∈ ?l |- _ => apply H in Hx
           end; lia.
Qed.

(** No diagnostic count is printed before a collection is toggled. *)
Lemma segments_toggles_first t t1 ev t2 :
  segments [quiet; calm] t -> t = t1 ++ ev :: t2 -> is_toggle ev = true ->
  Forall quiet t1.
Proof.
  intros (s1 & r1 & -> & H1 & s2 & r2 & -> & H2 & ->) E Hev.
  rewrite app_nil_r in E. apply app_eq_inv in E as [(k & -> & E)|(k & -> & ->)].
  - apply Forall_app in H1 as [H1 _]. exact H1.
  - apply Forall_app in H2 as [_ H2].
    inversion H2 as [|? ? Hc _]; subst. unfold calm in Hc. congruence.
Qed.

(** ** The export call *)

Section Once.

Context (opts : kwargs).

Lemma exports_app t1 t2 : exports (t1 ++ t2) = exports t1 ++ exports t2.
Proof. apply omap_app. Qed.

Lemma exports_none t : Forall no_export t -> exports t = [].
Proof.
  induction 1 as [|ev t Hev _ IH]; [reflexivity|].
  unfold exports. cbn. unfold no_export in Hev. rewrite Hev. exact IH.
Qed.

Lemma once_bind {A B} (m : M A) (k : A -> M B) :
  emits no_export m -> (forall a, once opts (k a)) -> once opts (m ≫= k).
Proof.
  intros Hm Hk d. rewrite bind_unfold. specialize (Hm d). apply exports_none in Hm.
  destruct (m d) as [[t1 d1] [a|s]].
  - rewrite trace_after, result_after, exports_app.
    change (exports t1 = []) in Hm. rewrite Hm. apply Hk.
  - left. split; [exact Hm | discriminate].
Qed.

Lemma once_call {A B} (m : M A) (k : A -> M B) :
  (forall d, exports (trace (m d)) = [opts]) -> (forall a, emits no_export (k a)) ->
  once opts (m ≫= k).
Proof.
  intros Hm Hk d. right. rewrite bind_unfold. specialize (Hm d).
  destruct (m d) as [[t1 d1] [a|s]]; [|exact Hm].
  rewrite trace_after, exports_app. change (exports t1 = [opts]) in Hm. rewrite Hm.
  rewrite (exports_none _ (Hk a d1)). reflexivity.
Qed.

Lemma once_try {A} (m : M A) clauses :
  once opts m -> (forall s, emits no_export (handler clauses s)) ->
  (forall s d a, (handler clauses s d).2 <> Ok a) ->
  once opts (try m clauses).
Proof.
  intros Hm Hh Hr d. unfold try. specialize (Hm d).
  destruct (m d) as [[t1 d1] [a|s]]; [exact Hm|].
  specialize (Hh s d1). specialize (Hr s d1). apply exports_none in Hh.
  destruct (handler clauses s d1) as [[t2 d2] r].
  change (exports t2 = []) in Hh. change (forall a, r <> Ok a) in Hr.
  unfold trace in *. cbn [fst snd] in *.
  rewrite exports_app, Hh, app_nil_r.
  destruct Hm as [[Hm _]|Hm]; [left; split|right]; assumption.
Qed.

(** The guarded export statement of the three scripts. *)
Lemma export_statement host s clauses d :
  (forall e, emits no_export (@first_clause unit clauses e)) ->
  exports (trace (try (bpy_ops_export_scene_gltf host opts;; print s) clauses d)) = [opts].
Proof.
  intros Hh. unfold try. rewrite bind_unfold. unfold bpy_ops_export_scene_gltf.
  destruct (export_gltf host opts d) as [e|]; cbn.
  - specialize (Hh e d). apply exports_none in Hh.
    destruct (first_clause clauses e d) as [[t2 d2] r].
    change (exports t2 = []) in Hh.
    change (exports ([ExportGltf opts (Some e)] ++ t2) = [opts]).
    rewrite exports_app, Hh. reflexivity.
  - reflexivity.
Qed.

End Once.

Ltac once_tac leaf :=
  repeat (cbv zeta;
          lazymatch goal with
          | |- once _ (try (bpy_ops_export_scene_gltf _ _ ≫= _) _ ≫= _) =>
              apply once_call;
              [ intros ?; apply export_statement; intros ?; solve [emits_tac leaf]
              | intros ?; solve [emits_tac leaf] ]
          | |- once _ (_ ≫= _) => apply once_bind; [solve [emits_tac leaf] | intros ?]
          end).

Lemma once_env host : once Env.gltf_options (Env.main host).
Proof. unfold Env.main, Env.export_environment. once_tac by_computation. Qed.


Lemma top_handlers_exit s d a :
  (handler (A := unit)
     [(is_KeyboardInterrupt, fun _ =>
         print (nl +:+ nl +:+ "⚠️ Export cancelled by user.");; sys_exit 1);
      (is_Exception, fun e =>
         print (nl +:+ nl +:+ "❌ Unexpected error: " +:+ str_exn e);;
         emit (PrintExc e);; sys_exit 1)] s d).2 <> Ok a.
Proof. destruct s as [[|msg]|c]; cbn; discriminate. Qed.

Lemma once_rt host : once RtScene.gltf_options (RtScene.main host).
Proof.
  unfold RtScene.main. apply once_try.
  - unfold RtScene.export_rt_scene. once_tac by_computation.
  - intros s. emits_tac by_computation.
  - intros s d a. apply top_handlers_exit.
Qed.

Lemma once_char host : once Char.gltf_options (Char.main host).
Proof.
  unfold Char.main. apply once_try.
  - unfold Char.export_character. once_tac by_computation.
  - intros s. emits_tac by_computation.
  - intros s d a. apply top_handlers_exit.
Qed.

(** ** How the scripts end on exceptions *)

Lemma raised_app t1 t2 : raised (t1 ++ t2) = raised t1 ++ raised t2.
Proof. apply omap_app. Qed.

Lemma raised_none t : Forall (fun ev => failure ev = None) t -> raised t = [].
Proof.
  induction 1 as [|ev t Hev _ IH]; [reflexivity|].
  unfold raised. cbn. rewrite Hev. exact IH.
Qed.

Lemma raised_In t ev e : In ev t -> failure ev = Some e -> In e (raised t).
Proof.
  intros Hin Hf. apply list_elem_of_In. apply list_elem_of_In in Hin.
  unfold raised. apply list_elem_of_omap. eauto.
Qed.

Section Verdict.

Context (G : Prop) (call : event -> bool).

Abbreviation ruled := (disciplined G (taken call)).

Lemma verdict_after {A} t0 (x : list event * Data * result A) :
  raised t0 = [] -> verdict G (taken call) (trace x) x.2 ->
  verdict G (taken call) (trace (after t0 x)) (after t0 x).2.
Proof.
  intros H0 V. rewrite trace_after, result_after.
  destruct V as [a Hr Ht|Hg Hr Ht|ev e t1 Hr Ht Hf H1 Hn|ev e t1 msg t2 Hr Ht Hf H1 H2 Hh].
  - eapply V_ok; [exact Hr|]. rewrite raised_app, H0, Ht. reflexivity.
  - eapply V_guard; [exact Hg | exact Hr |]. rewrite raised_app, H0, Ht. reflexivity.
  - eapply (V_raise _ _ _ _ ev e (t0 ++ t1)); [exact Hr | | exact Hf | | exact Hn].
    + rewrite Ht, app_assoc. reflexivity.
    + rewrite raised_app, H0, H1. reflexivity.
  - eapply (V_handled _ _ _ _ ev e (t0 ++ t1) msg t2); [exact Hr | | exact Hf | | exact H2 | exact Hh].
    + rewrite Ht, <- app_assoc. reflexivity.
    + rewrite raised_app, H0, H1. reflexivity.
Qed.

Lemma ruled_bind {A B} (m : M A) (k : A -> M B) :
  ruled m -> (forall a, ruled (k a)) -> ruled (m ≫= k).
Proof.
  intros Hm Hk d. rewrite bind_unfold. specialize (Hm d).
  destruct (m d) as [[t1 d1] r]. unfold trace in Hm. cbn [fst snd] in Hm.
  destruct Hm as [a Hr Ht|Hg Hr Ht|ev e t1' Hr Ht Hf H1 Hn|ev e t1' msg t2 Hr Ht Hf H1 H2 Hh];
    subst r.
  - apply verdict_after; [exact Ht | apply Hk].
  - eapply V_guard; [exact Hg | reflexivity | exact Ht].
  - eapply V_raise; [reflexivity | exact Ht | exact Hf | exact H1 | exact Hn].
  - eapply V_handled; [reflexivity | exact Ht | exact Hf | exact H1 | exact H2 | exact Hh].
Qed.

Lemma ruled_ret {A} (a : A) : ruled (mret a).
Proof. intros d. eapply V_ok; reflexivity. Qed.

Lemma ruled_gets {A} (f : Data -> A) : ruled (gets f).
Proof. intros d. eapply V_ok; reflexivity. Qed.

Lemma ruled_emit ev : failure ev = None -> ruled (emit ev).
Proof. intros H d. eapply V_ok; [reflexivity|]. unfold raised. cbn. rewrite H. reflexivity. Qed.

Lemma ruled_guard {A} : G -> ruled (@sys_exit A 1).
Proof. intros H d. eapply V_guard; [exact H | reflexivity | reflexivity]. Qed.

(** A failing step outside of any [try]. *)
Lemma ruled_failing {A} (m : M A) :
  (forall d, (exists d' a, m d = ([], d', Ok a)) \/
             (exists ev d' a, m d = ([ev], d', Ok a) /\ failure ev = None) \/
             (exists ev e d', m d = ([ev], d', Raise (Exn e)) /\ failure ev = Some e /\
                              call ev = false)) ->
  ruled m.
Proof.
  intros H d. destruct (H d) as [(d' & a & E)|[(ev & d' & a & E & Hf)|(ev & e & d' & E & Hf & Hc)]];
    rewrite E.
  - eapply V_ok; reflexivity.
  - eapply V_ok; [reflexivity|]. unfold raised. cbn. rewrite Hf. reflexivity.
  - eapply (V_raise _ _ _ _ ev e []); [reflexivity | reflexivity | exact Hf | reflexivity |].
    intros [Hc' _]. congruence.
Qed.

Lemma ruled_deref r : call (Raised ReferenceError) = false -> ruled (deref r).
Proof.
  intros Hc. apply ruled_failing. intros d. unfold deref. destruct (obj_at d r) as [o|].
  - left. eauto.
  - right. right. exists (Raised ReferenceError), ReferenceError, d. auto.
Qed.

Lemma ruled_deref_collection c : call (Raised ReferenceError) = false -> ruled (deref_collection c).
Proof.
  intros Hc. apply ruled_failing. intros d. unfold deref_collection.
  destruct (collections d !! c) as [x|].
  - left. eauto.
  - right. right. exists (Raised ReferenceError), ReferenceError, d. auto.
Qed.

Lemma ruled_raise {A} e : call (Raised e) = false -> ruled (@raise A e).
Proof.
  intros Hc. apply ruled_failing. intros d. right. right. exists (Raised e), e, d. auto.
Qed.

Lemma ruled_setattr_object r a v :
  call (Raised ReferenceError) = false -> ruled (setattr_object r a v).
Proof.
  intros Hc. apply ruled_failing. intros d. unfold setattr_object. destruct (obj_at d r) as [o|].
  - right. left. eexists _, _, _. split; reflexivity.
  - right. right. exists (Raised ReferenceError), ReferenceError, d. auto.
Qed.

Lemma ruled_setattr_collection c a v :
  call (Raised ReferenceError) = false -> ruled (setattr_collection c a v).
Proof.
  intros Hc. apply ruled_failing. intros d. unfold setattr_collection.
  destruct (collections d !! c) as [x|].
  - right. left. eexists _, _, _. split; reflexivity.
  - right. right. exists (Raised ReferenceError), ReferenceError, d. auto.
Qed.

Lemma ruled_remove_object r :
  call (Raised ReferenceError) = false -> ruled (remove_object r).
Proof.
  intros Hc. apply ruled_failing. intros d. unfold remove_object. destruct (obj_at d r) as [o|].
  - right. left. eexists _, _, _. split; reflexivity.
  - right. right. exists (Raised ReferenceError), ReferenceError, d. auto.
Qed.

Lemma ruled_for_each {X B} (xs : list X) (body : B -> X -> M B) acc :
  (forall acc x, ruled (body acc x)) -> ruled (for_each xs body acc).
Proof.
  intros Hb. revert acc. induction xs as [|x xs IH]; intros acc; cbn [for_each].
  - apply ruled_ret.
  - apply ruled_bind; [apply Hb | intros acc'; apply IH].
Qed.

Lemma ruled_filter_refs cond refs :
  call (Raised ReferenceError) = false -> ruled (filter_refs cond refs).
Proof.
  intros H. induction refs as [|r refs IH]; cbn [filter_refs].
  - apply ruled_ret.
  - apply ruled_bind; [apply ruled_deref, H | intros o].
    apply ruled_bind; [apply IH | intros rest; apply ruled_ret].
Qed.

Context (host : Host).

Lemma ruled_read_homefile :
  (forall res, call (ReadHomefile res) = false) -> ruled (bpy_ops_wm_read_homefile host).
Proof.
  intros Hc. apply ruled_failing. intros d. unfold bpy_ops_wm_read_homefile.
  destruct (read_homefile host) as [e|f].
  - right. right. eexists _, e, _. split_and!; [reflexivity | reflexivity | apply Hc].
  - right. left. eexists _, _, _. split; reflexivity.
Qed.

Lemma ruled_open_mainfile p :
  (forall res, call (OpenMainfile p res) = false) -> ruled (bpy_ops_wm_open_mainfile host p).
Proof.
  intros Hc. apply ruled_failing. intros d. unfold bpy_ops_wm_open_mainfile.
  destruct (open_mainfile host p) as [e|f].
  - right. right. eexists _, e, _. split_and!; [reflexivity | reflexivity | apply Hc].
  - right. left. eexists _, _, _. split; reflexivity.
Qed.

Lemma ruled_makedirs p :
  (forall res, call (Makedirs p res) = false) -> ruled (os_makedirs host p).
Proof.
  intros Hc. apply ruled_failing. intros d. unfold os_makedirs.
  destruct (makedirs host p) as [e|].
  - right. right. eexists _, e, _. split_and!; [reflexivity | reflexivity | apply Hc].
  - right. left. eexists _, _, _. split; reflexivity.
Qed.

Lemma ruled_getsize p :
  (forall res, call (Getsize p res) = false) -> ruled (os_path_getsize host p).
Proof.
  intros Hc. apply ruled_failing. intros d. unfold os_path_getsize.
  destruct (getsize host p) as [e|n].
  - right. right. eexists _, e, _. split_and!; [reflexivity | reflexivity | apply Hc].
  - right. left. eexists _, _, _. split; reflexivity.
Qed.

Lemma ruled_path_exists p : ruled (os_path_exists host p).
Proof. apply ruled_ret. Qed.

(** A call under [except Exception] whose handler prints and exits. *)
Lemma ruled_try_call (m : M unit) s (h : exn -> M unit) :
  (forall d, (exists ev d', m d = ([ev], d', Ok tt) /\ failure ev = None) \/
             (exists ev e, m d = ([ev], d, Raise (Exn e)) /\ failure ev = Some e /\
                           call ev = true)) ->
  (forall e d, exists msg t2 d', h e d = (Print msg :: t2, d', Raise (SystemExit 1)) /\
                                 raised t2 = []) ->
  ruled (try (m;; print s) [(is_Exception, h)]).
Proof.
  intros Hm Hh d. unfold try. rewrite bind_unfold.
  destruct (Hm d) as [(ev & d' & E & Hf)|(ev & e & E & Hf & Hc)]; rewrite E.
  - cbn. eapply V_ok; [reflexivity|]. unfold raised. cbn. rewrite Hf. reflexivity.
  - cbn [handler first_clause]. destruct (is_Exception e) eqn:He.
    + destruct (Hh e d) as (msg & t2 & d' & Eh & H2). rewrite Eh.
      eapply (V_handled _ _ _ _ ev e [] msg t2);
        [reflexivity | reflexivity | exact Hf | reflexivity | exact H2 | split; assumption].
    + cbn. eapply (V_raise _ _ _ _ ev e []);
        [reflexivity | reflexivity | exact Hf | reflexivity |].
      intros [_ He']. congruence.
Qed.

Lemma open_mainfile_cases p (Hc : forall res, call (OpenMainfile p res) = true) d :
  (exists ev d', bpy_ops_wm_open_mainfile host p d = ([ev], d', Ok tt) /\ failure ev = None) \/
  (exists ev e, bpy_ops_wm_open_mainfile host p d = ([ev], d, Raise (Exn e)) /\
                failure ev = Some e /\ call ev = true).
Proof.
  unfold bpy_ops_wm_open_mainfile. destruct (open_mainfile host p) as [e|f].
  - right. eexists _, e. split_and!; [reflexivity | reflexivity | apply Hc].
  - left. eexists _, _. split; reflexivity.
Qed.

Lemma export_gltf_cases kw (Hc : forall res, call (ExportGltf kw res) = true) d :
  (exists ev d', bpy_ops_export_scene_gltf host kw d = ([ev], d', Ok tt) /\ failure ev = None) \/
  (exists ev e, bpy_ops_export_scene_gltf host kw d = ([ev], d, Raise (Exn e)) /\
                failure ev = Some e /\ call ev = true).
Proof.
  unfold bpy_ops_export_scene_gltf. destruct (export_gltf host kw d) as [e|].
  - right. eexists _, e. split_and!; [reflexivity | reflexivity | apply Hc].
  - left. eexists _, _. split; reflexivity.
Qed.

End Verdict.

Lemma verdict_guard {A} (G G' : Prop) H t (r : result A) :
  (G -> G') -> verdict G H t r -> verdict G' H t r.
Proof.
  intros HG [a Hr Ht|Hg Hr Ht|ev e t1 Hr Ht Hf H1 Hn|ev e t1 msg t2 Hr Ht Hf H1 H2 Hh].
  - eapply V_ok; eassumption.
  - eapply V_guard; auto.
  - eapply V_raise; eassumption.
  - eapply V_handled; eassumption.
Qed.

Ltac handler_exits :=
  intros; eexists _, _, _; split; [reflexivity | reflexivity].

Ltac ruled_step side :=
  lazymatch goal with
  | |- disciplined _ _ (try (bpy_ops_wm_open_mainfile _ _ ≫= _) _) =>
      apply ruled_try_call;
      [ apply open_mainfile_cases; intros; reflexivity | handler_exits ]
  | |- disciplined _ _ (try (bpy_ops_export_scene_gltf _ _ ≫= _) _) =>
      apply ruled_try_call;
      [ apply export_gltf_cases; intros; reflexivity | handler_exits ]
  | |- disciplined _ _ (_ ≫= _) => apply ruled_bind; [| intros ?]
  | |- disciplined _ _ (mret _) => apply ruled_ret
  | |- disciplined _ _ (ret _) => apply ruled_ret
  | |- disciplined _ _ (gets _) => apply ruled_gets
  | |- disciplined _ _ (sys_exit _) => apply ruled_guard; side
  | |- disciplined _ _ (print _) => apply ruled_emit; reflexivity
  | |- disciplined _ _ (emit _) => apply ruled_emit; reflexivity
  | |- disciplined _ _ (raise _) => apply ruled_raise; reflexivity
  | |- disciplined _ _ (deref _) => apply ruled_deref; reflexivity
  | |- disciplined _ _ (deref_collection _) => apply ruled_deref_collection; reflexivity
  | |- disciplined _ _ (setattr_object _ _ _) => apply ruled_setattr_object; reflexivity
  | |- disciplined _ _ (setattr_collection _ _ _) => apply ruled_setattr_collection; reflexivity
  | |- disciplined _ _ (remove_object _) => apply ruled_remove_object; reflexivity
  | |- disciplined _ _ (filter_refs _ _) => apply ruled_filter_refs; reflexivity
  | |- disciplined _ _ (for_each _ _ _) => apply ruled_for_each; intros ? ?
  | |- disciplined _ _ (bpy_ops_wm_read_homefile _) =>
      apply ruled_read_homefile; intros; reflexivity
  | |- disciplined _ _ (bpy_ops_wm_open_mainfile _ _) =>
      apply ruled_open_mainfile; intros; reflexivity
  | |- disciplined _ _ (os_path_exists _ _) => apply ruled_path_exists
  | |- disciplined _ _ (os_makedirs _ _) => apply ruled_makedirs; intros; reflexivity
  | |- disciplined _ _ (os_path_getsize _ _) => apply ruled_getsize; intros; reflexivity
  | |- disciplined _ _ (if ?b then _ else _) => destruct b eqn:?
  | |- disciplined _ _ (match ?x with _ => _ end) => destruct x eqn:?
  | |- disciplined _ _ (let _ := _ in _) => cbv zeta
  | |- disciplined _ _ ?m => let h := head_of m in unfold h
  end.

Ltac ruled_tac side := repeat ruled_step side.

Lemma env_ruled host : disciplined False (taken is_load_or_export) (Env.main host).
Proof. ruled_tac fail. Qed.

(** ** Reading through references *)

Lemma deref_live d r o : obj_at d r = Some o -> deref r d = ([], d, Ok o).
Proof. intros H. unfold deref. rewrite H. reflexivity. Qed.

Lemma filter_refs_live cond refs d :
  Forall (live d) refs ->
  filter_refs cond refs d = ([], d, Ok (List.filter (holds d cond) refs)).
Proof.
  induction 1 as [|r refs [o Hr] _ IH]; [reflexivity|].
  cbn [filter_refs List.filter]. rewrite (bind_eval _ _ _ _ _ _ (deref_live _ _ _ Hr)).
  rewrite (bind_eval _ _ _ _ _ _ IH).
  assert (holds d cond r = cond o) as -> by (unfold holds; rewrite Hr; reflexivity).
  reflexivity.
Qed.

Lemma live_from_spec cells : forall k r,
  r ∈ live_from k cells <-> k <= r /\ is_Some (cells !! (r - k) ≫= id).
Proof.
  induction cells as [|c cells IH]; intros k r; cbn [live_from].
  - rewrite elem_of_nil. split; [tauto|]. intros [_ [o H]]. discriminate.
  - assert (r = k \/ r < k \/ (k < r /\ r - k = S (r - S k))) as Hcase by lia.
    destruct c as [o|].
    + rewrite elem_of_cons, IH. destruct Hcase as [->|[Hlt|[Hgt E]]].
      * rewrite Nat.sub_diag. cbn. split; [eauto|auto].
      * split; [intros [->|[Hle _]]; lia | intros [Hle _]; lia].
      * rewrite E. cbn. split; [intros [->|[_ H]]; [lia|] | intros [_ H]; right];
          (split; [lia | exact H]).
    + rewrite IH. destruct Hcase as [->|[Hlt|[Hgt E]]].
      * rewrite Nat.sub_diag. cbn. split; [lia | intros [_ [o H]]; discriminate].
      * split; intros [Hle _]; lia.
      * rewrite E. cbn. split; intros [_ H]; (split; [lia | exact H]).
Qed.

Lemma object_refs_live d : Forall (live d) (object_refs d).
Proof.
  apply Forall_forall. intros r Hr. apply live_from_spec in Hr as [_ Hr].
  rewrite Nat.sub_0_r in Hr. exact Hr.
Qed.

Lemma select_objects_eval cond d :
  select_objects cond d = ([], d, Ok (List.filter (holds d cond) (object_refs d))).
Proof.
  unfold select_objects. rewrite (bind_eval (gets object_refs) _ d [] d (object_refs d) eq_refl).
  rewrite filter_refs_live by apply object_refs_live. reflexivity.
Qed.

(** Counting through references is counting the live objects. *)
Lemma filter_live_from cond pre cells d :
  objects d = pre ++ cells ->
  length (List.filter (holds d cond) (live_from (length pre) cells)) =
  length (List.filter cond (omap id cells)).
Proof.
  revert pre. induction cells as [|c cells IH]; intros pre E; [reflexivity|].
  assert (objects d = (pre ++ [c]) ++ cells) as E' by (rewrite <- app_assoc; exact E).
  specialize (IH _ E'). rewrite length_app, Nat.add_1_r in IH.
  destruct c as [o|]; cbn [live_from omap list_omap id List.filter]; [|exact IH].
  assert (holds d cond (length pre) = cond o) as ->.
  { unfold holds, obj_at. rewrite E, lookup_app_r, Nat.sub_diag by lia. reflexivity. }
  change (from_option Some None (Some o)) with (Some o).
  cbn [List.filter]. destruct (cond o); cbn [length]; rewrite IH; reflexivity.
Qed.

Lemma count_object_refs cond d :
  length (List.filter (holds d cond) (object_refs d)) =
  length (List.filter cond (live_objects d)).
Proof. apply (filter_live_from cond [] (objects d) d). reflexivity. Qed.

Lemma live_objects_load f : live_objects (load f) = f_objects f.
Proof.
  unfold live_objects, load. cbn. induction (f_objects f) as [|o os IH]; [reflexivity|].
  cbn. f_equal. exact IH.
Qed.

(** A loop that only prints. *)
Lemma for_each_print {X} (line : X -> string) xs d :
  for_each xs (fun _ x => print (line x)) tt d = ((fun x => Print (line x)) <$> xs, d, Ok tt).
Proof.
  induction xs as [|x xs IH]; [reflexivity|].
  cbn [for_each]. rewrite (bind_eval (print (line x)) _ d [Print (line x)] d tt eq_refl).
  rewrite IH. reflexivity.
Qed.

Lemma print_actions_eval n d :
  print_actions n d =
  ((fun a => Print ("      • " +:+ act_name a)) <$> take n (actions d), d, Ok tt).
Proof.
  unfold print_actions. rewrite (bind_eval (gets actions) _ d [] d (actions d) eq_refl).
  rewrite for_each_print. reflexivity.
Qed.

(** ** The collection-hiding loops *)

Lemma set_collections_id d : set_collections (collections d) d = d.
Proof. destruct d; reflexivity. Qed.

Section HideLoop.

Context {B : Type} (test : Collection.t -> bool) (line : Collection.t -> string)
  (upd : B -> Collection.t -> B) (body : B -> nat -> M B).

Hypothesis body_eq : forall acc i,
  body acc i =
  (c ← deref_collection i;
   if test c then
     setattr_collection i hide_viewport true;;
     setattr_collection i hide_render true;;
     print (line c);;
     mret (upd acc c)
   else mret acc).

Lemma hide_body_eval pre c cs acc d :
  collections d = pre ++ c :: cs ->
  exists t,
    body acc (length pre) d =
    (t, set_collections (pre ++ (if test c then hidden c else c) :: cs) d,
     Ok (if test c then upd acc c else acc)) /\
    raised t = [].
Proof.
  intros E. rewrite body_eq.
  assert (collections d !! length pre = Some c) as Hc.
  { rewrite E. apply list_lookup_middle. reflexivity. }
  assert (deref_collection (length pre) d = ([], d, Ok c)) as E1.
  { unfold deref_collection. rewrite Hc. reflexivity. }
  rewrite (bind_eval _ _ _ _ _ _ E1). destruct (test c).
  - eexists. unfold setattr_collection, mbind, M_bind, bind. rewrite Hc. cbn.
    rewrite E, list_lookup_insert_eq by (rewrite length_app; cbn; lia).
    cbn. rewrite list_insert_insert_eq.
    rewrite insert_app_r_alt, Nat.sub_diag by lia. cbn.
    split; reflexivity.
  - eexists. rewrite <- E, set_collections_id. split; reflexivity.
Qed.

Lemma hide_loop_eval cs : forall pre acc d,
  collections d = pre ++ cs ->
  exists t acc',
    for_each (seq (length pre) (length cs)) body acc d =
    (t, set_collections (pre ++ ((fun c => if test c then hidden c else c) <$> cs)) d, Ok acc') /\
    raised t = [].
Proof.
  induction cs as [|c cs IH]; intros pre acc d E.
  - exists [], acc. cbn. rewrite <- E, set_collections_id. split; reflexivity.
  - destruct (hide_body_eval pre c cs acc d E) as (t1 & E1 & R1).
    cbn [length seq for_each]. rewrite (bind_eval _ _ _ _ _ _ E1).
    set (c' := if test c then hidden c else c) in *.
    set (d1 := set_collections (pre ++ c' :: cs) d).
    destruct (IH (pre ++ [c']) (if test c then upd acc c else acc) d1) as (t2 & acc' & E2 & R2).
    { unfold d1. cbn. rewrite <- app_assoc. reflexivity. }
    rewrite length_app, Nat.add_1_r in E2. rewrite E2.
    exists (t1 ++ t2), acc'. split.
    + unfold after, d1. cbn. rewrite <- app_assoc. reflexivity.
    + rewrite raised_app, R1, R2. reflexivity.
Qed.

End HideLoop.


Lemma env_hide_eval host d :
  exists t names,
    Env.hide_working_collections host d =
    (t, set_collections
          ((fun c => if contains "WORKING" (str_upper host (Collection.name c)) then hidden c else c)
             <$> collections d) d,
     Ok names) /\ raised t = [].
Proof.
  unfold Env.hide_working_collections.
  rewrite (bind_eval (gets collection_refs) _ d [] d (collection_refs d) eq_refl).
  destruct (hide_loop_eval
              (fun c => contains "WORKING" (str_upper host (Collection.name c)))
              (fun c => "   • Hiding: " +:+ Collection.name c)
              (fun acc c => acc ++ [Collection.name c])
              (Env.hide_working host) (fun _ _ => eq_refl) (collections d) [] [] d eq_refl)
    as (t & names & E & R).
  exists t, names. split; [|exact R]. cbn in E. unfold collection_refs. rewrite E. reflexivity.
Qed.

Lemma rt_hide_eval d :
  exists t n,
    RtScene.hide_working_collections d =
    (t, set_collections
          ((fun c => if contains "Working" (Collection.name c) then hidden c else c)
             <$> collections d) d,
     Ok n) /\ raised t = [].
Proof.
  unfold RtScene.hide_working_collections.
  rewrite (bind_eval (gets collection_refs) _ d [] d (collection_refs d) eq_refl).
  destruct (hide_loop_eval
              (fun c => contains "Working" (Collection.name c))
              (fun c => "      - Hidden: " +:+ Collection.name c)
              (fun acc _ => acc + 1)
              RtScene.hide_working (fun _ _ => eq_refl) (collections d) [] 0 d eq_refl)
    as (t & n & E & R).
  exists t, n. split; [|exact R]. cbn in E. unfold collection_refs. rewrite E. reflexivity.
Qed.

(** ** The orphaned-duplicate removal *)

Section Orphans.

Context (names : gset string) (d0 : Data).

Lemma namesake_app base cells1 cells2 d :
  objects d = cells1 ++ cells2 ->
  RtScene.has_scene_namesake names base d =
  existsb (fun o => startswith (Object.name o) base && bool_decide (Object.name o ∈ names))
          (omap id cells1) ||
  existsb (fun o => startswith (Object.name o) base && bool_decide (Object.name o ∈ names))
          (omap id cells2).
Proof.
  intros E. unfold RtScene.has_scene_namesake, live_objects. rewrite E, omap_app.
  apply existsb_app.
Qed.

(** Sweeping never takes a namesake away: a swept object is not in the scene. *)
Lemma namesake_sweep base cells :
  existsb (fun o => startswith (Object.name o) base && bool_decide (Object.name o ∈ names))
          (omap id (sweep names d0 cells)) =
  existsb (fun o => startswith (Object.name o) base && bool_decide (Object.name o ∈ names))
          (omap id cells).
Proof.
  induction cells as [|c cells IH]; [reflexivity|].
  change (sweep names d0 (c :: cells)) with
    ((match c with
      | Some o => if orphan names d0 o then None else Some o
      | None => None
      end) :: sweep names d0 cells).
  destruct c as [o|]; [|exact IH].
  destruct (orphan names d0 o) eqn:Ho.
  - change (omap id (None :: sweep names d0 cells)) with (omap id (sweep names d0 cells)).
    change (omap id (Some o :: cells)) with (o :: omap id cells).
    cbn [existsb]. rewrite IH. unfold orphan in Ho.
    apply andb_true_iff in Ho as [Ho _]. apply negb_true_iff in Ho.
    rewrite Ho, andb_false_r. reflexivity.
  - change (omap id (Some o :: sweep names d0 cells)) with (o :: omap id (sweep names d0 cells)).
    change (omap id (Some o :: cells)) with (o :: omap id cells).
    cbn [existsb]. rewrite IH. reflexivity.
Qed.

Lemma remove_orphan_eval pre o suf n d :
  objects d0 = pre ++ Some o :: suf ->
  objects d = sweep names d0 pre ++ Some o :: suf ->
  exists t,
    RtScene.remove_orphan names n (length pre) d =
    (t, set_objects (sweep names d0 (pre ++ [Some o]) ++ suf) d,
     Ok (if orphan names d0 o then n + 1 else n)) /\
    raised t = [].
Proof.
  intros E0 E. unfold RtScene.remove_orphan.
  assert (length (sweep names d0 pre) = length pre) as Hlen by (unfold sweep; apply length_fmap).
  assert (obj_at d (length pre) = Some o) as Ho.
  { unfold obj_at. rewrite E, <- Hlen, list_lookup_middle by reflexivity. reflexivity. }
  rewrite (bind_eval _ _ _ _ _ _ (deref_live _ _ _ Ho)).
  assert (RtScene.has_scene_namesake names (split_first "." (Object.name o)) d =
          RtScene.has_scene_namesake names (split_first "." (Object.name o)) d0) as Hsame.
  { rewrite (namesake_app _ _ _ _ E), (namesake_app _ _ _ _ E0), namesake_sweep. reflexivity. }
  assert (sweep names d0 (pre ++ [Some o]) ++ suf =
          sweep names d0 pre ++ (if orphan names d0 o then None else Some o) :: suf) as Hsw.
  { unfold sweep. rewrite fmap_app, <- app_assoc. reflexivity. }
  rewrite Hsw. unfold orphan.
  destruct (bool_decide (Object.name o ∈ names)); cbn [negb andb].
  - exists []. rewrite after_nil, <- E. split; [|reflexivity].
    destruct d; reflexivity.
  - rewrite (bind_eval (gets _) _ d [] d _ eq_refl), after_nil, after_nil, Hsame.
    destruct (RtScene.has_scene_namesake names _ d0).
    + eexists. unfold mbind, M_bind, bind, remove_object. cbn. rewrite Ho. cbn.
      rewrite E, <- Hlen, insert_app_r_alt, Nat.sub_diag by lia. cbn.
      split; reflexivity.
    + exists []. rewrite <- E. split; [|reflexivity]. destruct d; reflexivity.
Qed.

Lemma remove_orphans_loop suf : forall pre n d,
  objects d0 = pre ++ suf ->
  objects d = sweep names d0 pre ++ suf ->
  exists t n',
    for_each (live_from (length pre) suf) (RtScene.remove_orphan names) n d =
    (t, set_objects (sweep names d0 (pre ++ suf)) d, Ok n') /\
    raised t = [].
Proof.
  induction suf as [|c suf IH]; intros pre n d E0 E.
  - exists [], n. cbn. rewrite app_nil_r in *. rewrite <- E. split; [|reflexivity].
    destruct d; reflexivity.
  - assert (objects d0 = (pre ++ [c]) ++ suf) as E0' by (rewrite <- app_assoc; exact E0).
    destruct c as [o|]; cbn [live_from].
    + destruct (remove_orphan_eval pre o suf n d E0 E) as (t1 & E1 & R1).
      cbn [for_each]. rewrite (bind_eval _ _ _ _ _ _ E1).
      set (d1 := set_objects (sweep names d0 (pre ++ [Some o]) ++ suf) d).
      destruct (IH (pre ++ [Some o]) (if orphan names d0 o then n + 1 else n) d1 E0' eq_refl)
        as (t2 & n' & E2 & R2).
      rewrite length_app, Nat.add_1_r in E2. rewrite E2.
      exists (t1 ++ t2), n'. split.
      * unfold after, d1. cbn. rewrite <- app_assoc. reflexivity.
      * rewrite raised_app, R1, R2. reflexivity.
    + destruct (IH (pre ++ [None]) n d E0') as (t2 & n' & E2 & R2).
      { unfold sweep. rewrite fmap_app, <- app_assoc. exact E. }
      rewrite length_app, Nat.add_1_r in E2. rewrite E2.
      exists t2, n'. split; [|exact R2]. rewrite <- app_assoc. reflexivity.
Qed.

End Orphans.

Lemma remove_orphans_eval d :
  exists t n,
    RtScene.remove_orphans d =
    (t, set_objects (sweep (scene_names d) d (objects d)) d, Ok n) /\
    raised t = [].
Proof.
  unfold RtScene.remove_orphans.
  rewrite (bind_eval (gets scene_names) _ d [] d (scene_names d) eq_refl).
  rewrite (bind_eval (gets object_refs) _ d [] d (object_refs d) eq_refl).
  destruct (remove_orphans_loop (scene_names d) d (objects d) [] 0 d eq_refl eq_refl)
    as (t & n & E & R).
  exists t, n. split; [|exact R]. unfold object_refs. cbn in E. rewrite E. reflexivity.
Qed.

(** ** Effects a successful run must contain, in order *)


Section Passes.

Lemma passes_nil {A} (m : M A) : passes [] m.
Proof. intros d t d' a _. apply sublist_nil_l. Qed.

Lemma passes_skip {A B} pat (m : M A) (k : A -> M B) :
  (forall a, passes pat (k a)) -> passes pat (m ≫= k).
Proof.
  intros Hk d t d' b E. apply bind_ok_inv in E as (t1 & d1 & a & t2 & _ & E2 & ->).
  apply sublist_inserts_l. eapply Hk, E2.
Qed.

Lemma passes_emit {B} ev pat (k : unit -> M B) :
  passes pat (k tt) -> passes (ev :: pat) (emit ev ≫= k).
Proof.
  intros Hk d t d' b E. apply bind_ok_inv in E as (t1 & d1 & a & t2 & E1 & E2 & ->).
  destruct a. injection E1 as <- <-. cbn. apply sublist_skip. eapply Hk, E2.
Qed.

Lemma passes_last ev : passes [ev] (emit ev).
Proof. intros d t d' b [= <- _ _]. reflexivity. Qed.

Context (host : Host).

Lemma passes_open_mainfile {B} p pat (k : unit -> M B) :
  passes pat (k tt) -> passes (OpenMainfile p None :: pat) (bpy_ops_wm_open_mainfile host p ≫= k).
Proof.
  intros Hk d t d' b E. apply bind_ok_inv in E as (t1 & d1 & a & t2 & E1 & E2 & ->).
  destruct a. unfold bpy_ops_wm_open_mainfile in E1.
  destruct (open_mainfile host p); [discriminate|]. injection E1 as <- <-.
  cbn. apply sublist_skip. eapply Hk, E2.
Qed.

Lemma passes_getsize {B} p size pat (k : Z -> M B) :
  getsize host p = inr size ->
  passes pat (k size) -> passes (Getsize p (inr size) :: pat) (os_path_getsize host p ≫= k).
Proof.
  intros Hs Hk d t d' b E. apply bind_ok_inv in E as (t1 & d1 & a & t2 & E1 & E2 & ->).
  unfold os_path_getsize in E1. rewrite Hs in E1. injection E1 as <- <- <-.
  cbn. apply sublist_skip. eapply Hk, E2.
Qed.

(** The guarded export statement returns only if the export did. *)
Lemma passes_export {B} kw s h pat (k : unit -> M B) :
  (forall e d a, (h e d).2 <> Ok a) ->
  passes pat (k tt) ->
  passes (ExportGltf kw None :: pat)
    (try (bpy_ops_export_scene_gltf host kw;; print s) [(is_Exception, h)] ≫= k).
Proof.
  intros Hh Hk d t d' b E. apply bind_ok_inv in E as (t1 & d1 & a & t2 & E1 & E2 & ->).
  destruct a. unfold try in E1. rewrite bind_unfold in E1. unfold bpy_ops_export_scene_gltf in E1.
  destruct (export_gltf host kw d) as [e|].
  - exfalso. cbn [handler first_clause] in E1. destruct (is_Exception e).
    + specialize (Hh e d). destruct (h e d) as [[t3 d3] [a|s']]; [|discriminate].
      exact (Hh a eq_refl).
    + discriminate.
  - cbn in E1. injection E1 as <- <-. cbn. apply sublist_skip, sublist_cons. eapply Hk, E2.
Qed.

Lemma passes_open_guarded {B} p s h pat (k : unit -> M B) :
  (forall e d a, (h e d).2 <> Ok a) ->
  passes pat (k tt) ->
  passes (OpenMainfile p None :: pat)
    (try (bpy_ops_wm_open_mainfile host p;; print s) [(is_Exception, h)] ≫= k).
Proof.
  intros Hh Hk d t d' b E. apply bind_ok_inv in E as (t1 & d1 & a & t2 & E1 & E2 & ->).
  destruct a. unfold try in E1. rewrite bind_unfold in E1. unfold bpy_ops_wm_open_mainfile in E1.
  destruct (open_mainfile host p) as [e|f].
  - exfalso. cbn [handler first_clause] in E1. destruct (is_Exception e).
    + specialize (Hh e d). destruct (h e d) as [[t3 d3] [a|s']]; [|discriminate].
      exact (Hh a eq_refl).
    + discriminate.
  - cbn in E1. injection E1 as <- <-. cbn. apply sublist_skip, sublist_cons. eapply Hk, E2.
Qed.

Lemma passes_try pat (m : M unit) clauses :
  (forall s d a, (handler clauses s d).2 <> Ok a) ->
  passes pat m -> passes pat (try m clauses).
Proof.
  intros Hh Hm d t d' b E. unfold try in E.
  destruct (m d) as [[t1 d1] [a|s]] eqn:Em.
  - injection E as <- <- <-. eapply Hm, Em.
  - exfalso. specialize (Hh s d1). destruct (handler clauses s d1) as [[t2 d2] [a|s']];
      [|discriminate]. exact (Hh a eq_refl).
Qed.

End Passes.

Ltac never_ok := intros; cbn; discriminate.

Ltac passes_tac :=
  repeat (cbv zeta;
          lazymatch goal with
          | |- passes [] _ => apply passes_nil
          | |- passes (OpenMainfile _ None :: _) (bpy_ops_wm_open_mainfile _ _ ≫= _) =>
              apply passes_open_mainfile
          | |- passes (OpenMainfile _ None :: _) (try (bpy_ops_wm_open_mainfile _ _ ≫= _) _ ≫= _) =>
              apply passes_open_guarded; [never_ok|]
          | |- passes (ExportGltf _ None :: _) (try (bpy_ops_export_scene_gltf _ _ ≫= _) _ ≫= _) =>
              apply passes_export; [never_ok|]
          | |- passes (Getsize _ (inr _) :: _) (os_path_getsize _ _ ≫= _) =>
              apply passes_getsize; [eassumption|]
          | |- passes (Print _ :: _) (print _ ≫= _) =>
              first [apply passes_emit | apply passes_skip; intros ?]
          | |- passes _ (_ ≫= _) => apply passes_skip; intros ?
          end).

Lemma env_passes host size :
  getsize host Env.OUTPUT_GLB = inr size ->
  passes [OpenMainfile Env.ENV_FILE None; ExportGltf Env.gltf_options None;
          Getsize Env.OUTPUT_GLB (inr size); Print (size_line size)] (Env.main host).
Proof. intros Hs. unfold Env.main, Env.export_environment. passes_tac. Qed.

Lemma rt_passes host size :
  getsize host RtScene.OUTPUT_GLB = inr size ->
  passes [OpenMainfile RtScene.RT_SCENE_FILE None; ExportGltf RtScene.gltf_options None;
          Getsize RtScene.OUTPUT_GLB (inr size); Print (size_line size)] (RtScene.main host).
Proof.
  intros Hs. unfold RtScene.main. apply passes_try; [apply top_handlers_exit|].
  unfold RtScene.export_rt_scene. passes_tac.
Qed.

Lemma char_passes host size :
  getsize host Char.OUTPUT_GLB = inr size ->
  passes [OpenMainfile Char.CHAR_FILE None; ExportGltf Char.gltf_options None;
          Getsize Char.OUTPUT_GLB (inr size); Print (size_line size)] (Char.main host).
Proof.
  intros Hs. unfold Char.main. apply passes_try; [apply top_handlers_exit|].
  unfold Char.export_character. passes_tac.
Qed.

(** ** Runs *)

Lemma run_trace host (main : M unit) :
  trace_of host main = trace (main (load (startup host))).
Proof.
  unfold trace_of, run. destruct (main (load (startup host))) as [[t d] [a|[e|c]]]; reflexivity.
Qed.

Lemma run_outcome host (main : M unit) :
  outcome_of host main =
  match (main (load (startup host))).2 with
  | Ok _ => Exit 0
  | Raise (SystemExit c) => Exit c
  | Raise (Exn e) => Uncaught e
  end.
Proof.
  unfold outcome_of, run. destruct (main (load (startup host))) as [[t d] [a|[e|c]]]; reflexivity.
Qed.

(** A script whose own exits are all [sys.exit(1)] ends with status 0 only by
    returning. *)
Lemma exit_0_returns G H host (main : M unit) :
  disciplined G H main -> outcome_of host main = Exit 0 ->
  exists t d, main (load (startup host)) = (t, d, Ok tt).
Proof.
  intros Hm. rewrite run_outcome. specialize (Hm (load (startup host))).
  destruct (main (load (startup host))) as [[t d] r]. unfold trace in Hm. cbn [fst snd] in *.
  destruct Hm as [a Hr Ht|Hg Hr Ht|ev e t1 Hr Ht Hf H1 Hn|ev e t1 msg t2 Hr Ht Hf H1 H2 Hh];
    subst r; try discriminate.
  destruct a. eauto.
Qed.

(** The [__main__] block of export_rt_scene.py and export_char.py: what the
    two [except] clauses make of the ways the body can end. *)
Lemma top_level G (body : M unit) d :
  disciplined G (taken is_export) body ->
  let x := try body
             [(is_KeyboardInterrupt, fun _ =>
                 print (nl +:+ nl +:+ "⚠️ Export cancelled by user.");; sys_exit 1);
              (is_Exception, fun e =>
                 print (nl +:+ nl +:+ "❌ Unexpected error: " +:+ str_exn e);;
                 emit (PrintExc e);; sys_exit 1)] d in
  (raised (trace x) = [] /\ (x.2 = Ok tt \/ (G /\ x.2 = Raise (SystemExit 1)))) \/
  (exists ev e t1 msg t2,
      trace x = t1 ++ ev :: Print msg :: t2 /\ failure ev = Some e /\
      raised t1 = [] /\ raised t2 = [] /\ x.2 = Raise (SystemExit 1)).
Proof.
  intros Hb. specialize (Hb d). unfold try. destruct (body d) as [[t d1] r].
  unfold trace in Hb. cbn [fst snd] in Hb.
  destruct Hb as [a Hr Ht|Hg Hr Ht|ev e t1 Hr Ht Hf H1 Hn|ev e t1 msg t2 Hr Ht Hf H1 H2 Hh];
    subst r.
  - left. destruct a. cbn. auto.
  - left. cbn. rewrite app_nil_r. auto.
  - right. subst t.
    destruct e as [|m]; unfold mbind, M_bind, bind, print, emit, sys_exit, throw; cbn.
    + exists ev, KeyboardInterrupt, t1, (nl +:+ nl +:+ "⚠️ Export cancelled by user."), [].
      rewrite <- app_assoc. auto.
    + exists ev, (Exception m), t1, (nl +:+ nl +:+ "❌ Unexpected error: " +:+ m),
        [PrintExc (Exception m)].
      rewrite <- app_assoc. auto.
  - right. subst t. cbn. exists ev, e, t1, msg, t2. rewrite app_nil_r. auto.
Qed.

(** With a failure at [ev], the only failure of the trace is there. *)
Lemma sole_failure t1 ev msg t2 ev' e' :
  raised t1 = [] -> raised t2 = [] ->
  In ev' (t1 ++ ev :: Print msg :: t2) -> failure ev' = Some e' -> ev' = ev.
Proof.
  intros H1 H2 Hin Hf. apply in_app_or in Hin as [Hin|[<-|[<-|Hin]]].
  - apply (raised_In _ _ _ Hin) in Hf. rewrite H1 in Hf. destruct Hf.
  - reflexivity.
  - discriminate.
  - apply (raised_In _ _ _ Hin) in Hf. rewrite H2 in Hf. destruct Hf.
Qed.

Lemma no_failure t ev e : raised t = [] -> In ev t -> failure ev = Some e -> False.
Proof. intros H Hin Hf. apply (raised_In _ _ _ Hin) in Hf. rewrite H in Hf. destruct Hf. Qed.

(** A failed size readout keeps the script from returning. *)
Lemma no_return_bind {A B} (m : M A) (k : A -> M B) :
  (forall a d b, (k a d).2 <> Ok b) -> forall d b, ((m ≫= k) d).2 <> Ok b.
Proof.
  intros Hk d b. rewrite bind_unfold. destruct (m d) as [[t1 d1] [a|s]]; [|discriminate].
  rewrite result_after. apply Hk.
Qed.

Lemma no_return_getsize {B} host p e (k : Z -> M B) :
  getsize host p = inl e -> forall d b, ((os_path_getsize host p ≫= k) d).2 <> Ok b.
Proof.
  intros Hs d b. rewrite bind_unfold. unfold os_path_getsize. rewrite Hs. discriminate.
Qed.

Lemma no_return_try (m : M unit) clauses :
  (forall s d a, (handler clauses s d).2 <> Ok a) ->
  (forall d b, (m d).2 <> Ok b) -> forall d b, (try m clauses d).2 <> Ok b.
Proof.
  intros Hh Hm d b. unfold try. specialize (Hm d).
  destruct (m d) as [[t1 d1] [a|s]]; [exact (Hm b)|].
  specialize (Hh s d1). destruct (handler clauses s d1) as [[t2 d2] r]. apply Hh.
Qed.

Ltac no_return_tac :=
  repeat (cbv zeta;
          lazymatch goal with
          | |- forall d b, ((os_path_getsize _ _ ≫= _) d).2 <> Ok b =>
              eapply no_return_getsize; eassumption
          | |- forall d b, ((_ ≫= _) d).2 <> Ok b => apply no_return_bind; intros ?
          end).

Lemma env_needs_size host e d b :
  getsize host Env.OUTPUT_GLB = inl e -> (Env.main host d).2 <> Ok b.
Proof. intros Hs. revert d b. unfold Env.main, Env.export_environment. no_return_tac. Qed.

Lemma char_needs_size host e d b :
  getsize host Char.OUTPUT_GLB = inl e -> (Char.main host d).2 <> Ok b.
Proof.
  intros Hs. revert d b. unfold Char.main. apply no_return_try; [apply top_handlers_exit|].
  unfold Char.export_character. no_return_tac.
Qed.

Lemma rt_needs_size host e d b :
  getsize host RtScene.OUTPUT_GLB = inl e -> (RtScene.main host d).2 <> Ok b.
Proof.
  intros Hs. revert d b. unfold RtScene.main. apply no_return_try; [apply top_handlers_exit|].
  unfold RtScene.export_rt_scene. no_return_tac.
Qed.

(** ** export_rt_scene.py: exceptions *)

Lemma ruled_path_exists_bind {B} G call host p (k : bool -> M B) :
  disciplined G (taken call) (k (path_exists host p)) ->
  disciplined G (taken call) (os_path_exists host p ≫= k).
Proof.
  intros Hk d. rewrite bind_unfold. unfold os_path_exists, ret. rewrite after_nil. apply Hk.
Qed.

Lemma rt_ruled host :
  disciplined (scene_file_missing host) (taken is_export) (RtScene.export_rt_scene host).
Proof.
  unfold RtScene.export_rt_scene.
  repeat first [ apply ruled_path_exists_bind
               | ruled_step ltac:(apply negb_true_iff; assumption) ].
Qed.

(** ** export_char.py: up to the check for skinned meshes *)

Lemma filter_ext_length {X} (f g : X -> bool) l :
  (forall x, f x = g x) -> List.filter f l = List.filter g l.
Proof. intros H. induction l as [|x l IH]; cbn; [reflexivity|]. rewrite H, IH. reflexivity. Qed.

Lemma char_is_skinned o : Char.is_skinned_mesh o = skinned o.
Proof.
  unfold Char.is_skinned_mesh, skinned, has_armature_modifier.
  destruct (Object.modifiers o) as [|m ms]; destruct (Object.type o =? "MESH")%string;
    reflexivity.
Qed.

Lemma raised_prints {X} (line : X -> string) xs :
  raised ((fun x => Print (line x)) <$> xs) = [].
Proof. induction xs as [|x xs IH]; [reflexivity | exact IH]. Qed.

Lemma ruled_at {A} G H (m : M A) d :
  disciplined G H m -> verdict G H (trace (m d)) (m d).2.
Proof. intros Hm. apply Hm. Qed.

Ltac eval_print :=
  lazymatch goal with
  | |- context [(print ?s ≫= ?k) ?d] =>
      rewrite (bind_eval (print s) k d [Print s] d tt eq_refl); cbv beta
  end.

Ltac eval_gets :=
  lazymatch goal with
  | |- context [(gets ?f ≫= ?k) ?d] =>
      rewrite (bind_eval (gets f) k d [] d (f d) eq_refl); cbv beta
  end.

Ltac eval_select :=
  lazymatch goal with
  | |- context [(select_objects ?c ≫= ?k) ?d] =>
      rewrite (bind_eval (select_objects c) k d _ _ _ (select_objects_eval c d)); cbv beta
  end.

Lemma char_after_load host f d :
  open_mainfile host Char.CHAR_FILE = inr f ->
  (List.filter skinned (f_objects f) = [] /\
   Char.export_character host d =
   (char_head f ++ [Print (nl +:+ "   ⚠️ WARNING: No skinned meshes found!")], load f,
    Raise (SystemExit 1))) \/
  (List.filter skinned (f_objects f) <> [] /\
   exists x, Char.export_character host d = after (char_head f) x /\
             verdict False (taken is_export) (trace x) x.2).
Proof.
  intros Hopen. unfold Char.export_character.
  do 4 eval_print.
  rewrite (bind_eval (bpy_ops_wm_open_mainfile host Char.CHAR_FILE) _ d
             [OpenMainfile Char.CHAR_FILE None] (load f) tt)
    by (unfold bpy_ops_wm_open_mainfile; rewrite Hopen; reflexivity).
  cbv beta. do 2 eval_print. eval_select. eval_print. eval_select. eval_print.
  eval_gets. eval_print.
  rewrite !count_object_refs, live_objects_load.
  rewrite (filter_ext_length _ _ _ char_is_skinned).
  change (actions (load f)) with (f_actions f).
  set (tail := (fun a => Print ("      • " +:+ act_name a)) <$> take 5 (f_actions f)).
  assert (forall (k : unit -> M unit),
            ((if negb (bool_decide (f_actions f = [])) then print_actions 5 else mret tt) ≫= k)
              (load f) = after tail (k tt (load f))) as Hacts.
  { intros k. rewrite bind_unfold. destruct (f_actions f) as [|a acts] eqn:Ea.
    - rewrite bool_decide_eq_true_2 by reflexivity. reflexivity.
    - rewrite bool_decide_eq_false_2 by discriminate. cbn [negb].
      rewrite print_actions_eval.
      change (actions (load f)) with (f_actions f). rewrite Ea. reflexivity. }
  rewrite Hacts. rewrite !after_after. cbn [app].
  lazymatch goal with
  | |- context [after ?T _] => change T with (char_head f)
  end.
  clearbody tail. clear Hacts.
  destruct (List.filter skinned (f_objects f)) as [|o os] eqn:Esk.
  - left. split; [reflexivity|]. cbn [length Nat.eqb].
    rewrite bind_unfold. eval_print. unfold sys_exit, throw. cbn [after fst snd].
    reflexivity.
  - right. split; [discriminate|]. cbn [length Nat.eqb].
    eexists. split; [reflexivity|].
    cbv iota. apply ruled_at. ruled_tac fail.
Qed.

Lemma raised_char_head f : raised (char_head f) = [].
Proof. unfold char_head. rewrite raised_app, raised_prints. reflexivity. Qed.

Lemma char_ruled host :
  disciplined (no_skinned_mesh host) (taken is_export) (Char.export_character host).
Proof.
  intros d. destruct (open_mainfile host Char.CHAR_FILE) as [e|f] eqn:Hopen.
  - unfold Char.export_character. do 4 eval_print.
    rewrite (bind_raise (bpy_ops_wm_open_mainfile host Char.CHAR_FILE) _ d
               [OpenMainfile Char.CHAR_FILE (Some e)] d (Exn e))
      by (unfold bpy_ops_wm_open_mainfile; rewrite Hopen; reflexivity).
    rewrite !after_after. apply verdict_after; [reflexivity|].
    eapply (V_raise _ _ _ _ (OpenMainfile Char.CHAR_FILE (Some e)) e []);
      [reflexivity | reflexivity | reflexivity | reflexivity |].
    intros [Hc _]. discriminate.
  - destruct (char_after_load host f d Hopen) as [[Hno E]|[_ (x & E & V)]]; rewrite E.
    + eapply V_guard; [exists f; auto | reflexivity |].
      unfold trace. cbn [fst]. rewrite raised_app, raised_char_head. reflexivity.
    + apply verdict_after; [apply raised_char_head|].
      eapply verdict_guard; [|exact V]. intros [].
Qed.

(** ** export_env.py: up to the counts, and up to the export preview *)

Lemma env_open_ok host f d :
  open_mainfile host Env.ENV_FILE = inr f ->
  forall (h : exn -> M unit),
    try (bpy_ops_wm_open_mainfile host Env.ENV_FILE;; print "   ✓ File loaded")
      [(is_Exception, h)] d =
    ([OpenMainfile Env.ENV_FILE None; Print "   ✓ File loaded"], load f, Ok tt).
Proof.
  intros Hopen h. unfold try. rewrite bind_unfold. unfold bpy_ops_wm_open_mainfile.
  rewrite Hopen. reflexivity.
Qed.

Ltac eval_filter_refs Hlive :=
  lazymatch goal with
  | |- context [(filter_refs ?c ?refs ≫= ?k) ?d] =>
      rewrite (bind_eval (filter_refs c refs) k d _ _ _ (filter_refs_live c refs d Hlive));
      cbv beta
  end.

Lemma env_prefix host f d :
  open_mainfile host Env.ENV_FILE = inr f ->
  exists x, Env.export_environment host d = after (env_head f) x.
Proof.
  intros Hopen. unfold Env.export_environment. do 4 eval_print.
  rewrite (bind_eval _ _ d _ _ _ (env_open_ok host f d Hopen _)). cbv beta.
  eval_print. eval_gets.
  do 3 eval_filter_refs (object_refs_live (load f)).
  do 3 eval_print.
  rewrite !count_object_refs, live_objects_load, !after_after. cbn [app].
  eexists. reflexivity.
Qed.

Lemma filter_twice {X} (f g : X -> bool) l :
  List.filter g (List.filter f l) = List.filter (fun x => f x && g x) l.
Proof.
  induction l as [|x l IH]; [reflexivity|]. cbn. destruct (f x); cbn; [|exact IH].
  destruct (g x); rewrite IH; reflexivity.
Qed.

Lemma holds_and d f g r : holds d (fun o => f o && g o) r = holds d f r && holds d g r.
Proof. unfold holds. destruct (obj_at d r); reflexivity. Qed.

Lemma Forall_filter_live d f refs : Forall (live d) refs -> Forall (live d) (List.filter f refs).
Proof.
  intros H. apply Forall_forall. intros r Hr. apply list_elem_of_In, filter_In in Hr as [Hr _].
  rewrite Forall_forall in H. apply H, list_elem_of_In, Hr.
Qed.

Lemma env_preview host f d :
  open_mainfile host Env.ENV_FILE = inr f ->
  exists t x,
    Env.export_environment host d =
    after (env_head f ++ t ++ [Print (will_export_line (f_objects f))]) x.
Proof.
  intros Hopen. unfold Env.export_environment. do 4 eval_print.
  rewrite (bind_eval _ _ d _ _ _ (env_open_ok host f d Hopen _)). cbv beta.
  eval_print. eval_gets.
  do 3 eval_filter_refs (object_refs_live (load f)).
  do 3 eval_print.
  rewrite !count_object_refs, live_objects_load, !after_after. cbn [app].
  lazymatch goal with
  | |- context [after ?T _] => change T with (env_head f)
  end.
  assert (exists t1, forall (k : unit -> M unit),
            ((if count_type "MESH" (f_objects f) =? 0 then
                print (nl +:+ "   ⚠️ WARNING: No meshes found!");;
                print "   This might be normal if environment is in collections."
              else mret tt) ≫= k) (load f) = after t1 (k tt (load f))) as [t1 H1].
  { destruct (count_type "MESH" (f_objects f) =? 0).
    - eexists. intros k. rewrite bind_unfold. reflexivity.
    - exists []. intros k. rewrite bind_unfold. reflexivity. }
  unfold count_type in H1. rewrite H1. clear H1. eval_print.
  destruct (env_hide_eval host (load f)) as (t2 & names & E2 & _).
  rewrite (bind_eval _ _ _ _ _ _ E2). cbv beta.
  set (d1 := set_collections _ (load f)) in *.
  assert (exists t3, forall (k : unit -> M unit),
            ((if negb (bool_decide (names = [])) then
                print ("   ✓ Hidden " +:+ pretty (length names) +:+ " working collection(s)")
              else mret tt) ≫= k) d1 = after t3 (k tt d1)) as [t3 H3].
  { destruct (negb (bool_decide (names = []))).
    - eexists. intros k. rewrite bind_unfold. reflexivity.
    - exists []. intros k. rewrite bind_unfold. reflexivity. }
  rewrite H3. clear H3.
  assert (Forall (live d1) (object_refs (load f))) as Hlive by exact (object_refs_live (load f)).
  eval_filter_refs Hlive.
  eval_filter_refs (Forall_filter_live d1 (holds d1 (fun obj => negb (Object.hide_viewport obj) &&
                                                       negb (Object.hide_render obj)))
                      _ Hlive).
  eval_print. rewrite !after_after.
  exists (t1 ++ [Print (nl +:+ "3. Preparing collections for export...")] ++ t2 ++ t3).
  eexists.
  assert (forall c, holds d1 c = holds (load f) c) as Hd1 by reflexivity.
  rewrite filter_twice, !Hd1.
  rewrite (filter_ext_length _ _ _ (fun r => eq_sym (holds_and (load f) _ _ r))).
  rewrite !count_object_refs, live_objects_load.
  unfold will_export_line, count_type, shown. rewrite filter_twice.
  rewrite <- !app_assoc. reflexivity.
Qed.

(** * The claims *)

(** ** C2: the collection-hiding steps *)

(** C2, as stated, fails for export_env.py: a collection named "working" is
    hidden although its name contains neither "WORKING" nor "Working". *)
Lemma C2_counterexample :
  collections (Env.hide_working_collections ex_host ex_lower).1.2 =
    [Collection.mk "working" true true] /\
  str_upper ex_host "working" = "WORKING" /\
  contains "WORKING" "working" = false /\
  contains "Working" "working" = false.
Proof. split_and!; reflexivity. Qed.

(** C2 (amended): the collection-hiding step of export_env.py sets both
    flags of a collection to True exactly when the upper-cased form of its
    name, as [str.upper] gives it, contains "WORKING"; the one of
    export_rt_scene.py exactly when its name contains "Working"; either step
    leaves every other collection, and every object, as it was, and always
    completes.  To contain a string is to have it as a substring. *)
Theorem C2_hide_working_collections (host : Host) (d : Data) :
  let env := Env.hide_working_collections host d in
  let rt := RtScene.hide_working_collections d in
  ((exists names, env.2 = Ok names) /\
   collections env.1.2 =
     (fun c => if contains "WORKING" (str_upper host (Collection.name c)) then hidden c else c)
       <$> collections d /\
   objects env.1.2 = objects d) /\
  ((exists n, rt.2 = Ok n) /\
   collections rt.1.2 =
     (fun c => if contains "Working" (Collection.name c) then hidden c else c)
       <$> collections d /\
   objects rt.1.2 = objects d) /\
  (forall sub s, contains sub s = true <-> exists pre post, s = pre +:+ sub +:+ post).
Proof.
  cbv zeta. split_and!.
  - destruct (env_hide_eval host d) as (t & names & -> & _). cbn. eauto.
  - destruct (env_hide_eval host d) as (t & names & -> & _). reflexivity.
  - destruct (env_hide_eval host d) as (t & names & -> & _). reflexivity.
  - destruct (rt_hide_eval d) as (t & n & -> & _). cbn. eauto.
  - destruct (rt_hide_eval d) as (t & n & -> & _). reflexivity.
  - destruct (rt_hide_eval d) as (t & n & -> & _). reflexivity.
  - exact contains_spec.
Qed.

Lemma C2_witness :
  collections (Env.hide_working_collections ex_host_dotless ex_dotless).1.2 =
    [Collection.mk "workıng" true true] /\
  collections (RtScene.hide_working_collections (load ex_file)).1.2 =
    [Collection.mk "Working" true true; Collection.mk "EXPORT" false false].
Proof.
  split.
  - exact (proj1 (proj2 (proj1 (C2_hide_working_collections ex_host_dotless ex_dotless)))).
  - exact (proj1 (proj2 (proj1 (proj2 (C2_hide_working_collections ex_host (load ex_file)))))).
Defined.

(** ** C3 and C9: the orphaned-duplicate removal *)

Lemma elem_of_scene_names d name :
  name ∈ scene_names d <->
  exists o, o ∈ live_objects d /\ Object.in_scene o = true /\ Object.name o = name.
Proof.
  unfold scene_names, scene_objects. rewrite elem_of_list_to_set, list_elem_of_fmap.
  split.
  - intros (o & -> & Ho). apply list_elem_of_In, filter_In in Ho as [Ho Hs].
    exists o. split_and!; [apply list_elem_of_In, Ho | exact Hs | reflexivity].
  - intros (o & Ho & Hs & <-). exists o. split; [reflexivity|].
    apply list_elem_of_In, filter_In. split; [apply list_elem_of_In, Ho | exact Hs].
Qed.

Lemma remove_orphans_cell d r o :
  obj_at d r = Some o ->
  obj_at (RtScene.remove_orphans d).1.2 r =
  if orphan (scene_names d) d o then None else Some o.
Proof.
  intros Ho. destruct (remove_orphans_eval d) as (t & n & -> & _). cbn [fst snd].
  unfold obj_at in *. cbn [objects set_objects]. unfold sweep. rewrite list_lookup_fmap.
  destruct (objects d !! r) as [[o'|]|]; try discriminate.
  injection Ho as ->. cbn. destruct (orphan (scene_names d) d o); reflexivity.
Qed.

Lemma orphan_spec names d o :
  orphan names d o = true <->
  (Object.name o ∉ names) /\
  exists o', o' ∈ live_objects d /\
             startswith (Object.name o') (split_first "." (Object.name o)) = true /\
             Object.name o' ∈ names.
Proof.
  unfold orphan, RtScene.has_scene_namesake.
  rewrite andb_true_iff, negb_true_iff, bool_decide_eq_false, existsb_exists.
  apply and_iff_compat_l. split.
  - intros (o' & Hin & H). apply andb_true_iff in H as [H1 H2].
    apply bool_decide_eq_true in H2. exists o'. split_and!; [apply list_elem_of_In, Hin | auto..].
  - intros (o' & Hin & H1 & H2). exists o'. split; [apply list_elem_of_In, Hin|].
    rewrite H1. cbn. apply bool_decide_eq_true, H2.
Qed.

(** What the removal decides, in terms of the names alone. *)
Lemma orphan_names names d o :
  orphan names d o = true <->
  (Object.name o ∉ names) /\
  exists base o' tail,
    before_first_dot (Object.name o) base /\
    o' ∈ live_objects d /\ Object.name o' = base +:+ tail /\ Object.name o' ∈ names.
Proof.
  rewrite orphan_spec. apply and_iff_compat_l. split.
  - intros (o' & Hin & Hpre & Hn). apply startswith_spec in Hpre as (tail & E).
    exists (split_first "." (Object.name o)), o', tail.
    split_and!; [apply before_first_dot_spec; reflexivity | assumption..].
  - intros (base & o' & tail & Hb & Hin & E & Hn). apply before_first_dot_spec in Hb as ->.
    exists o'. split_and!; [assumption | | assumption].
    apply startswith_spec. exists tail. exact E.
Qed.

(** C3: the orphaned-duplicate removal of export_rt_scene.py removes an
    object exactly when its name is not among the names of the scene's
    objects and some object has a name that is among those names and starts
    with its base name, the part of its name before the first "." (all of the
    name when it has none); an object it does not remove stays as it was. *)
Theorem C3_orphan_removed_iff (d : Data) (r : nat) (o : Object.t) :
  obj_at d r = Some o ->
  let d' := (RtScene.remove_orphans d).1.2 in
  (obj_at d' r = None <->
     (Object.name o ∉ scene_names d) /\
     exists base o' tail,
       before_first_dot (Object.name o) base /\
       o' ∈ live_objects d /\ Object.name o' = base +:+ tail /\
       Object.name o' ∈ scene_names d) /\
  (obj_at d' r = None \/ obj_at d' r = Some o).
Proof.
  intros Ho d'. unfold d'. rewrite (remove_orphans_cell d r o Ho), <- orphan_names.
  destruct (orphan (scene_names d) d o); split; auto; split; congruence.
Qed.

Lemma C3_witness :
  (obj_at (load ex_scene) 1 = Some ex_body_copy /\
   obj_at (RtScene.remove_orphans (load ex_scene)).1.2 1 = None) /\
  (exists lamp, obj_at (load ex_scene) 5 = Some lamp /\ Object.name lamp = "Lamp.001" /\
     obj_at (RtScene.remove_orphans (load ex_scene)).1.2 5 = Some lamp).
Proof.
  split.
  - split; [reflexivity|].
    apply (C3_orphan_removed_iff (load ex_scene) 1 ex_body_copy eq_refl).
    split.
    + apply (bool_decide_eq_false_1 (Object.name ex_body_copy ∈ scene_names (load ex_scene))).
      reflexivity.
    + exists "Body", ex_body, "". split_and!.
      * split; [|right; exists "001"; reflexivity].
        cbn. intros H. repeat destruct H as [[=]|H]. exact H.
      * apply list_elem_of_In. left. reflexivity.
      * reflexivity.
      * apply (bool_decide_eq_true_1 (Object.name ex_body ∈ scene_names (load ex_scene))).
        reflexivity.
  - eexists. split; [reflexivity|]. split; [reflexivity|].
    destruct (C3_orphan_removed_iff (load ex_scene) 5 _ eq_refl) as [Hiff [Hn|Hs]];
      [|exact Hs].
    exfalso. apply Hiff in Hn as (_ & base & o' & tail & Hb & Hin & E & Hs).
    apply before_first_dot_spec in Hb. subst base.
    change (split_first "." _) with "Lamp" in E.
    apply list_elem_of_In in Hin. cbn in Hin. rewrite !append_cons in E.
    repeat destruct Hin as [<-|Hin]; try discriminate E; try destruct Hin.
    revert Hs. apply (bool_decide_eq_false_1 ("Lamp.001" ∈ scene_names (load ex_scene))).
    reflexivity.
Defined.

(** C9: the orphaned-duplicate removal never removes an object whose name
    is among the names of the scene's objects: such an object is still in the
    file's object data, unchanged, after the step. *)
Theorem C9_scene_objects_survive (d : Data) (r : nat) (o : Object.t) :
  obj_at d r = Some o ->
  Object.name o ∈ scene_names d ->
  obj_at (RtScene.remove_orphans d).1.2 r = Some o.
Proof.
  intros Ho Hin. rewrite (remove_orphans_cell d r o Ho).
  destruct (orphan (scene_names d) d o) eqn:E; [|reflexivity].
  apply orphan_spec in E as [Hnot _]. contradiction.
Qed.

Lemma C9_witness :
  obj_at (load ex_file) 0 = Some ex_body /\
  obj_at (RtScene.remove_orphans (load ex_file)).1.2 0 = Some ex_body.
Proof.
  split; [reflexivity|].
  apply (C9_scene_objects_survive (load ex_file) 0 ex_body eq_refl).
  apply (bool_decide_eq_true_1 (Object.name ex_body ∈ scene_names (load ex_file))).
  reflexivity.
Defined.

(** ** C4: one export call, with fixed options *)

Lemma top_exit_0 G host (body : M unit) :
  disciplined G (taken is_export) body ->
  let main := try body
                [(is_KeyboardInterrupt, fun _ =>
                    print (nl +:+ nl +:+ "⚠️ Export cancelled by user.");; sys_exit 1);
                 (is_Exception, fun e =>
                    print (nl +:+ nl +:+ "❌ Unexpected error: " +:+ str_exn e);;
                    emit (PrintExc e);; sys_exit 1)] in
  outcome_of host main = Exit 0 -> (main (load (startup host))).2 = Ok tt.
Proof.
  intros Hb main. rewrite run_outcome.
  destruct (top_level G body (load (startup host)) Hb)
    as [[_ [E|[_ E]]]|(ev & e & t1 & msg & t2 & _ & _ & _ & _ & E)];
    fold main in E; rewrite E; [reflexivity | discriminate..].
Qed.

Lemma exports_once_intro host opts (main : M unit) :
  once opts main ->
  (outcome_of host main = Exit 0 -> exists a, (main (load (startup host))).2 = Ok a) ->
  exports_once host opts main.
Proof.
  intros Ho Hret. unfold exports_once. rewrite run_trace.
  destruct (Ho (load (startup host))) as [[E Hno]|E].
  - split; [left; exact E|]. intros H0. destruct (Hret H0) as [a Ha]. destruct (Hno a Ha).
  - split; [right; exact E | intros _; exact E].
Qed.

(** C4: on every run each script calls the exporter at most once, and
    exactly once on a run that ends with status 0; every call passes the
    script's fixed keyword arguments, among them export_format='GLB',
    use_visible=True and Draco compression switched off. *)
Theorem C4_single_export (host : Host) :
  exports_once host Env.gltf_options (Env.main host) /\
  exports_once host Char.gltf_options (Char.main host) /\
  exports_once host RtScene.gltf_options (RtScene.main host) /\
  Forall (fun opts =>
            kwarg "export_format" opts = Some (VStr "GLB") /\
            kwarg "use_visible" opts = Some (VBool true) /\
            kwarg "export_draco_mesh_compression_enable" opts = Some (VBool false))
         [Env.gltf_options; Char.gltf_options; RtScene.gltf_options].
Proof.
  split_and!.
  - apply exports_once_intro; [apply once_env|]. intros H0.
    destruct (exit_0_returns _ _ host _ (env_ruled host) H0) as (t & d & E).
    rewrite E. eauto.
  - apply exports_once_intro; [apply once_char|]. intros H0.
    exists tt. exact (top_exit_0 _ host _ (char_ruled host) H0).
  - apply exports_once_intro; [apply once_rt|]. intros H0.
    exists tt. exact (top_exit_0 _ host _ (rt_ruled host) H0).
  - repeat constructor.
Qed.

Lemma C4_witness :
  outcome_of ex_host (RtScene.main ex_host) = Exit 0 /\
  exports (trace_of ex_host (RtScene.main ex_host)) = [RtScene.gltf_options].
Proof.
  split; [reflexivity|].
  apply (C4_single_export ex_host). reflexivity.
Defined.

(** ** C10: no skinned mesh, no export *)

Lemma exports_prints {X} (line : X -> string) xs :
  exports ((fun x => Print (line x)) <$> xs) = [].
Proof. induction xs as [|x xs IH]; [reflexivity | exact IH]. Qed.

Lemma exports_char_head f : exports (char_head f) = [].
Proof. unfold char_head. rewrite exports_app, exports_prints. reflexivity. Qed.

(** C10: if the file export_char.py loads has no object of type 'MESH' with
    a modifier of type 'ARMATURE', the run ends with status 1 and never calls
    the exporter. *)
Theorem C10_no_skinned_mesh_exits (host : Host) (f : BlendFile) :
  open_mainfile host Char.CHAR_FILE = inr f ->
  List.filter skinned (f_objects f) = [] ->
  outcome_of host (Char.main host) = Exit 1 /\
  exports (trace_of host (Char.main host)) = [].
Proof.
  intros Hopen Hno.
  destruct (char_after_load host f (load (startup host)) Hopen) as [[_ E]|[Hsome _]];
    [|contradiction].
  unfold outcome_of, trace_of, run, Char.main, try. rewrite E. cbn [handler throw fst snd].
  split; [reflexivity|]. rewrite !exports_app, exports_char_head. reflexivity.
Qed.

Lemma C10_witness :
  outcome_of ex_host_bare (Char.main ex_host_bare) = Exit 1 /\
  exports (trace_of ex_host_bare (Char.main ex_host_bare)) = [].
Proof. apply (C10_no_skinned_mesh_exits ex_host_bare ex_empty); reflexivity. Defined.

(** ** C6: the diagnostic counts *)

Ltac sublist_tac :=
  repeat first [ apply sublist_nil_l | apply sublist_skip | apply sublist_cons ].

Lemma env_trace_head host f :
  open_mainfile host Env.ENV_FILE = inr f ->
  exists t2, trace_of host (Env.main host) = env_head f ++ t2.
Proof.
  intros Hopen. rewrite run_trace. unfold Env.main.
  destruct (env_prefix host f (load (startup host)) Hopen) as [x ->]. eauto.
Qed.

Lemma char_trace_head host f :
  open_mainfile host Char.CHAR_FILE = inr f ->
  exists t2, trace_of host (Char.main host) = char_head f ++ t2.
Proof.
  intros Hopen. rewrite run_trace. unfold Char.main, try.
  destruct (char_after_load host f (load (startup host)) Hopen) as [[_ E]|[_ (x & E & _)]];
    rewrite E.
  - cbn [handler throw fst snd trace]. rewrite <- app_assoc. eauto.
  - unfold after. destruct x as [[t d] [a|s]]; cbn [fst snd trace].
    + eauto.
    + destruct (handler _ s d) as [[t3 d3] r]. cbn [fst snd trace].
      rewrite <- app_assoc. eauto.
Qed.

(** C6: once its file is loaded, export_env.py prints the numbers of loaded
    objects of type 'MESH', 'LIGHT' and 'CAMERA' as its mesh, light and camera
    counts; export_char.py prints the number of loaded objects of type 'MESH'
    with at least one modifier of type 'ARMATURE' as its skinned-mesh count,
    then the number of objects of type 'ARMATURE' and the number of actions. *)
Theorem C6_diagnostic_counts (host : Host) :
  (forall f, open_mainfile host Env.ENV_FILE = inr f ->
     sublist [ OpenMainfile Env.ENV_FILE None;
               Print ("   - Meshes: " +:+ pretty (count_type "MESH" (f_objects f)));
               Print ("   - Lights: " +:+ pretty (count_type "LIGHT" (f_objects f)));
               Print ("   - Cameras: " +:+ pretty (count_type "CAMERA" (f_objects f))) ]
             (trace_of host (Env.main host))) /\
  (forall f, open_mainfile host Char.CHAR_FILE = inr f ->
     sublist [ OpenMainfile Char.CHAR_FILE None;
               Print ("   - SkinnedMeshes: " +:+
                      pretty (length (List.filter skinned (f_objects f))));
               Print ("   - Armatures: " +:+ pretty (count_type "ARMATURE" (f_objects f)));
               Print ("   - Animations: " +:+ pretty (length (f_actions f))) ]
             (trace_of host (Char.main host))).
Proof.
  split; intros f Hopen.
  - destruct (env_trace_head host f Hopen) as [t2 ->].
    apply sublist_inserts_r. unfold env_head. sublist_tac.
  - destruct (char_trace_head host f Hopen) as [t2 ->].
    apply sublist_inserts_r. unfold char_head. apply sublist_inserts_r. sublist_tac.
Qed.

Lemma C6_witness :
  sublist [ OpenMainfile Env.ENV_FILE None;
            Print "   - Meshes: 2"; Print "   - Lights: 1"; Print "   - Cameras: 1" ]
          (trace_of ex_host (Env.main ex_host)) /\
  sublist [ OpenMainfile Char.CHAR_FILE None;
            Print "   - SkinnedMeshes: 2"; Print "   - Armatures: 1";
            Print "   - Animations: 2" ]
          (trace_of ex_host (Char.main ex_host)).
Proof.
  split.
  - exact (proj1 (C6_diagnostic_counts ex_host) ex_file eq_refl).
  - exact (proj2 (C6_diagnostic_counts ex_host) ex_file eq_refl).
Defined.

(** ** C8: the export preview of export_env.py *)

(** C8: the 'Will export' line of export_env.py counts the loaded objects by
    their own hide_viewport and hide_render flags alone; a run on a file with
    the same objects prints the same line whatever collections the file has
    and whichever of them get hidden. *)
Theorem C8_export_preview_ignores_collections (host host' : Host) (f f' : BlendFile) :
  open_mainfile host Env.ENV_FILE = inr f ->
  open_mainfile host' Env.ENV_FILE = inr f' ->
  f_objects f' = f_objects f ->
  In (Print (will_export_line (f_objects f))) (trace_of host (Env.main host)) /\
  In (Print (will_export_line (f_objects f))) (trace_of host' (Env.main host')).
Proof.
  intros Hopen Hopen' Hsame. rewrite !run_trace. unfold Env.main.
  destruct (env_preview host f (load (startup host)) Hopen) as (t & x & ->).
  destruct (env_preview host' f' (load (startup host')) Hopen') as (t' & x' & ->).
  rewrite Hsame, !trace_after. split; apply in_or_app; left;
    apply in_or_app; right; apply in_or_app; right; left; reflexivity.
Qed.

Lemma C8_witness :
  In (SetCollection 0 hide_viewport true) (trace_of ex_host (Env.main ex_host)) /\
  In (Print "   Will export 4 objects (2 meshes)") (trace_of ex_host (Env.main ex_host)) /\
  In (Print "   Will export 4 objects (2 meshes)")
     (trace_of ex_host_flat (Env.main ex_host_flat)).
Proof.
  split; [vm_compute; tauto|].
  exact (C8_export_preview_ignores_collections ex_host ex_host_flat ex_file ex_file_flat
           eq_refl eq_refl eq_refl).
Defined.

(** ** The number in the file-size line *)

(** What C7 says on the printed number; the claim itself is stated below,
    with what the scripts do once the export call has returned. *)

Lemma round_half_even_nearest (n : Z) (d : positive) :
  (2 * Z.abs (n - Z.pos d * round_half_even (n # d)) <= Z.pos d)%Z.
Proof.
  unfold round_half_even. cbn [Qnum Qden].
  pose proof (Z.div_mod n (Z.pos d) ltac:(lia)) as Hdm.
  pose proof (Z.mod_pos_bound n (Z.pos d) ltac:(lia)) as Hr.
  set (q := (n / Z.pos d)%Z) in *. set (r := (n mod Z.pos d)%Z) in *.
  destruct (Z.ltb_spec (2 * r) (Z.pos d)); [lia|].
  destruct (Z.ltb_spec (Z.pos d) (2 * r)); [lia|].
  destruct (Z.even q); lia.
Qed.

Lemma round_half_even_nonneg (n : Z) (d : positive) :
  (0 <= n)%Z -> (0 <= round_half_even (n # d))%Z.
Proof.
  intros Hn. unfold round_half_even. cbn [Qnum Qden].
  pose proof (Z.div_pos n (Z.pos d) Hn ltac:(lia)) as Hq.
  destruct (_ <? _)%Z; [lia|]. destruct (_ <? _)%Z; [lia|]. destruct (Z.even _); lia.
Qed.

Lemma round_half_even_eq (n n' : Z) (d d' : positive) :
  (n * Z.pos d' = n' * Z.pos d)%Z -> round_half_even (n # d) = round_half_even (n' # d').
Proof.
  intros E. unfold round_half_even. cbn [Qnum Qden].
  pose proof (Z.div_mod n (Z.pos d) ltac:(lia)) as Hdm.
  pose proof (Z.mod_pos_bound n (Z.pos d) ltac:(lia)) as Hr.
  set (f := (n / Z.pos d)%Z) in *. set (r := (n mod Z.pos d)%Z) in *.
  assert (n' = Z.pos d' * f + (n' - Z.pos d' * f))%Z as Hn' by lia.
  assert ((n' - Z.pos d' * f) * Z.pos d = r * Z.pos d')%Z as Hs by nia.
  assert (0 <= n' - Z.pos d' * f < Z.pos d')%Z as Hr' by nia.
  rewrite <- (Z.div_unique_pos n' (Z.pos d') f _ Hr' Hn').
  rewrite <- (Z.mod_unique_pos n' (Z.pos d') f _ Hr' Hn').
  set (r' := (n' - Z.pos d' * f)%Z) in *.
  assert ((2 * r <? Z.pos d) = (2 * r' <? Z.pos d'))%Z as ->.
  { destruct (Z.ltb_spec (2 * r) (Z.pos d)), (Z.ltb_spec (2 * r') (Z.pos d'));
      try reflexivity; nia. }
  assert ((Z.pos d <? 2 * r) = (Z.pos d' <? 2 * r'))%Z as ->.
  { destruct (Z.ltb_spec (Z.pos d) (2 * r)), (Z.ltb_spec (Z.pos d') (2 * r'));
      try reflexivity; nia. }
  reflexivity.
Qed.

(** The rounding depends on the value of the rational alone. *)
Lemma round_half_even_Qeq (q q' : Q) : (q == q')%Q -> round_half_even q = round_half_even q'.
Proof. destruct q as [n d], q' as [n' d']. intros E. apply round_half_even_eq, E. Qed.

Lemma round_half_even_exact (c : Z) (d : positive) :
  round_half_even (c * Z.pos d # d) = c.
Proof.
  unfold round_half_even. cbn [Qnum Qden].
  rewrite Z.div_mul, Z.mod_mul by lia. reflexivity.
Qed.

Lemma float_exponent_small (size : Z) :
  (0 < size < 2 ^ 53)%Z -> (float_exponent size 1048576 <= -20)%Z.
Proof.
  intros [H0 H1]. unfold float_exponent.
  apply Z.log2_lt_pow2 in H1; [|exact H0].
  change (Z.log2 1048576) with 20%Z.
  destruct (_ <? _)%Z; lia.
Qed.

(** Below 2^53 bytes the float is the quotient itself: the significand holds
    the size and the division by a power of two only moves the exponent. *)
Lemma truediv_exact (size : Z) :
  (0 <= size < 2 ^ 53)%Z -> (truediv size (1024 * 1024) == size # 1048576)%Q.
Proof.
  intros [H0 H1]. unfold truediv. change (1024 * 1024)%Z with 1048576%Z.
  destruct (Z.eqb_spec size 0) as [->|Hne]; [reflexivity|].
  assert (0 < size)%Z as Hpos by lia.
  rewrite (Z.abs_eq size), (Z.sgn_pos size) by lia.
  pose proof (float_exponent_small size (conj Hpos H1)) as He.
  set (e := float_exponent size 1048576) in *. clearbody e.
  destruct (Z.leb_spec 0 e); [lia|].
  assert (2 ^ (- e) = 2 ^ (- e - 20) * 1048576)%Z as Hp.
  { replace (- e)%Z with ((- e - 20) + 20)%Z at 1 by lia.
    rewrite Z.pow_add_r by lia. reflexivity. }
  assert (0 < 2 ^ (- e - 20))%Z as Hc by (apply Z.pow_pos_nonneg; lia).
  change (Z.to_pos 1048576) with 1048576%positive.
  replace (size * 2 ^ (- e))%Z with (size * 2 ^ (- e - 20) * Z.pos 1048576)%Z
    by (rewrite Hp; ring).
  rewrite round_half_even_exact.
  unfold Qeq. cbn [Qnum Qden]. rewrite Z2Pos.id by lia. rewrite Hp. ring.
Qed.

Lemma truediv_nonneg (size : Z) :
  (0 <= size)%Z -> (0 <= Qnum (truediv size (1024 * 1024)))%Z.
Proof.
  intros H0. unfold truediv.
  destruct (Z.eqb_spec size 0) as [->|Hne]; [reflexivity|].
  rewrite (Z.abs_eq size), (Z.sgn_pos size) by lia.
  destruct (_ <=? _)%Z; cbn [Qnum inject_Z].
  - set (e := float_exponent size (1024 * 1024)).
    pose proof (round_half_even_nonneg size (Z.to_pos (1024 * 1024 * 2 ^ e)) H0).
    pose proof (Z.pow_nonneg 2 e ltac:(lia)). nia.
  - set (e := float_exponent size (1024 * 1024)).
    pose proof (Z.pow_nonneg 2 (- e) ltac:(lia)).
    pose proof (round_half_even_nonneg (size * 2 ^ (- e)) (Z.to_pos (1024 * 1024))
                  ltac:(nia)).
    lia.
Qed.

Lemma hundredths_eq (size : Z) :
  (0 <= size < 2 ^ 53)%Z ->
  round_half_even (truediv size (1024 * 1024) * 100) = round_half_even (size * 100 # 1048576).
Proof.
  intros Hs. apply round_half_even_Qeq. rewrite (truediv_exact size Hs).
  unfold Qeq, Qmult. cbn [Qnum Qden]. lia.
Qed.

Lemma two_digits_length (m : Z) : (0 <= m < 100)%Z -> String.length (two_digits m) = 2.
Proof.
  intros Hm.
  assert (forallb (fun k => String.length (two_digits (Z.of_nat k)) =? 2) (seq 0 100) = true)
    as Hall by (vm_compute; reflexivity).
  rewrite forallb_forall in Hall. specialize (Hall (Z.to_nat m)).
  rewrite Z2Nat.id in Hall by lia. apply Nat.eqb_eq, Hall, in_seq. lia.
Qed.

(** The two decimals: the digit of the tenths, then the digit of the
    hundredths. *)
Lemma two_digits_spec (m : Z) :
  (0 <= m < 100)%Z -> two_digits m = pretty (m / 10)%Z +:+ pretty (m mod 10)%Z.
Proof.
  intros Hm.
  assert (forallb (fun k => String.eqb (two_digits (Z.of_nat k))
                              (pretty (Z.of_nat k / 10)%Z +:+ pretty (Z.of_nat k mod 10)%Z))
                  (seq 0 100) = true)
    as Hall by (vm_compute; reflexivity).
  rewrite forallb_forall in Hall. specialize (Hall (Z.to_nat m)).
  rewrite Z2Nat.id in Hall by lia. apply String.eqb_eq, Hall, in_seq. lia.
Qed.

(** The printed number is the float, rounded to hundredths: its integer
    part, a point, the tenths and the hundredths.  Below 2^53 bytes it is the
    size in units of 2^20 bytes rounded to the nearest hundredth. *)
Lemma size_line_spec (size : Z) :
  (0 <= size)%Z ->
  let h := round_half_even (truediv size (1024 * 1024) * 100) in
  size_line size =
    "File size: " +:+
      (pretty (h / 100)%Z +:+ "." +:+ pretty (h mod 100 / 10)%Z +:+ pretty (h mod 10)%Z) +:+
    " MB" /\
  (size < 2 ^ 53 ->
   (truediv size (1024 * 1024) == size # 1048576)%Q /\
   2 * Z.abs (100 * size - 1048576 * h) <= 1048576)%Z.
Proof.
  intros Hs h. split.
  - assert (0 <= h)%Z as H0.
    { unfold h. pose proof (truediv_nonneg size Hs) as Hq.
      destruct (truediv size (1024 * 1024)) as [n d]. cbn [Qnum] in Hq.
      unfold Qmult. cbn [Qnum Qden]. apply round_half_even_nonneg. lia. }
    pose proof (truediv_nonneg size Hs) as Hq.
    unfold size_line, format_2f. cbv zeta. fold h.
    destruct (Z.ltb_spec (Qnum (truediv size (1024 * 1024))) 0); [lia|].
    rewrite Z.abs_eq by lia.
    rewrite (two_digits_spec (h mod 100)) by (apply Z.mod_pos_bound; lia).
    replace ((h mod 100) mod 10)%Z with (h mod 10)%Z
      by (clear; Z.div_mod_to_equations; lia).
    reflexivity.
  - intros Hlt. split; [apply truediv_exact; lia|].
    unfold h. rewrite hundredths_eq by lia.
    pose proof (round_half_even_nearest (size * 100) 1048576). lia.
Qed.

Lemma sublist_tail {X} (x : X) l t : sublist (x :: l) t -> sublist l t.
Proof. intros H. etrans; [|exact H]. apply sublist_cons. reflexivity. Qed.

(** ** C5: the order of the steps *)

(** C5, as stated, fails for export_rt_scene.py: on the sample file the
    script hides a collection (effect 7 of the run) before it has printed any
    diagnostic count; the first count is printed as effect 12. *)
Lemma C5_counterexample :
  trace_of ex_host (RtScene.main ex_host) !! 7 = Some (SetCollection 0 hide_viewport true) /\
  trace_of ex_host (RtScene.main ex_host) !! 12 = Some (Print "   Found 2 linked objects") /\
  is_count_line "   Found 2 linked objects" = true /\
  forallb (fun ev => negb (is_count ev)) (take 7 (trace_of ex_host (RtScene.main ex_host))) = true.
Proof. split_and!; reflexivity. Qed.

Lemma main_steps_sorted host (main : M unit) :
  within [at_step 1; at_step 2; at_step 3; at_step 4] main ->
  StronglySorted le (steps (trace_of host main)).
Proof. intros H. rewrite run_trace. apply segments_steps_sorted, H. Qed.

Lemma env_within_steps host :
  within [at_step 1; at_step 2; at_step 3; at_step 4] (Env.main host).
Proof. unfold Env.main, Env.export_environment. within_tac by_computation. Qed.

Lemma char_within_steps host :
  within [at_step 1; at_step 2; at_step 3; at_step 4] (Char.main host).
Proof.
  unfold Char.main. apply within_try; [discriminate | |].
  - unfold Char.export_character. within_tac by_computation.
  - intros s. emits_tac ltac:(intros; repeat constructor).
Qed.

Lemma rt_within_steps host :
  within [at_step 1; at_step 2; at_step 3; at_step 4] (RtScene.main host).
Proof.
  unfold RtScene.main. apply within_try; [discriminate | |].
  - unfold RtScene.export_rt_scene. within_tac by_computation.
  - intros s. emits_tac ltac:(intros; repeat constructor).
Qed.

Lemma rt_toggles_first host : within [quiet; calm] (RtScene.main host).
Proof.
  unfold RtScene.main. apply within_try; [discriminate | |].
  - unfold RtScene.export_rt_scene. within_tac by_computation.
  - intros s. emits_tac ltac:(intros; repeat constructor).
Qed.

Lemma char_calm host : emits calm (Char.main host).
Proof. emits_tac by_computation. Qed.

Lemma calm_env_head f : Forall calm (env_head f).
Proof. repeat constructor. Qed.

Lemma calm_char_head f : Forall calm (char_head f).
Proof.
  unfold char_head. apply Forall_app. split; [repeat constructor|].
  apply Forall_fmap, Forall_forall. intros a _. reflexivity.
Qed.

Lemma exports_env_head f : exports (env_head f) = [].
Proof. reflexivity. Qed.

(** C5 (amended): in each script the host operations come in the order file
    load, collection toggles, export call, size readout.  export_env.py
    prints its mesh, light and camera counts after the load and before any
    toggle or export; export_char.py prints its counts after the load and
    before the export and toggles no collection; export_rt_scene.py prints no
    diagnostic count before it has toggled the collections. *)
Theorem C5_order_of_steps (host : Host) :
  StronglySorted le (steps (trace_of host (Env.main host))) /\
  StronglySorted le (steps (trace_of host (Char.main host))) /\
  StronglySorted le (steps (trace_of host (RtScene.main host))) /\
  (forall f, open_mainfile host Env.ENV_FILE = inr f ->
     exists t1 t2,
       trace_of host (Env.main host) = t1 ++ t2 /\
       sublist [ OpenMainfile Env.ENV_FILE None;
                 Print ("   - Meshes: " +:+ pretty (count_type "MESH" (f_objects f)));
                 Print ("   - Lights: " +:+ pretty (count_type "LIGHT" (f_objects f)));
                 Print ("   - Cameras: " +:+ pretty (count_type "CAMERA" (f_objects f))) ] t1 /\
       Forall calm t1 /\ exports t1 = []) /\
  (forall f, open_mainfile host Char.CHAR_FILE = inr f ->
     exists t1 t2,
       trace_of host (Char.main host) = t1 ++ t2 /\
       sublist [ OpenMainfile Char.CHAR_FILE None;
                 Print ("   - SkinnedMeshes: " +:+
                        pretty (length (List.filter skinned (f_objects f))));
                 Print ("   - Armatures: " +:+ pretty (count_type "ARMATURE" (f_objects f)));
                 Print ("   - Animations: " +:+ pretty (length (f_actions f))) ] t1 /\
       exports t1 = []) /\
  Forall calm (trace_of host (Char.main host)) /\
  (forall t1 ev t2,
     trace_of host (RtScene.main host) = t1 ++ ev :: t2 -> is_toggle ev = true ->
     Forall quiet t1).
Proof.
  split_and!.
  - apply main_steps_sorted, env_within_steps.
  - apply main_steps_sorted, char_within_steps.
  - apply main_steps_sorted, rt_within_steps.
  - intros f Hopen. destruct (env_trace_head host f Hopen) as [t2 E].
    exists (env_head f), t2. split_and!; [exact E | | apply calm_env_head | reflexivity].
    unfold env_head. sublist_tac.
  - intros f Hopen. destruct (char_trace_head host f Hopen) as [t2 E].
    exists (char_head f), t2. split_and!; [exact E | | apply exports_char_head].
    unfold char_head. apply sublist_inserts_r. sublist_tac.
  - rewrite run_trace. apply char_calm.
  - intros t1 ev t2 E Hev. eapply segments_toggles_first; [|exact E|exact Hev].
    rewrite run_trace. apply rt_toggles_first.
Qed.

Lemma C5_witness :
  steps (trace_of ex_host (RtScene.main ex_host)) = [1; 2; 2; 3; 4] /\
  StronglySorted le (steps (trace_of ex_host (RtScene.main ex_host))).
Proof.
  split; [reflexivity|]. apply (C5_order_of_steps ex_host).
Defined.

(** ** How a run ends *)

Lemma top_summary G host (body : M unit) :
  disciplined G (taken is_export) body ->
  let main := try body
                [(is_KeyboardInterrupt, fun _ =>
                    print (nl +:+ nl +:+ "⚠️ Export cancelled by user.");; sys_exit 1);
                 (is_Exception, fun e =>
                    print (nl +:+ nl +:+ "❌ Unexpected error: " +:+ str_exn e);;
                    emit (PrintExc e);; sys_exit 1)] in
  (forall ev e, In ev (trace_of host main) -> failure ev = Some e ->
     outcome_of host main = Exit 1 /\ reported (trace_of host main) ev) /\
  (raised (trace_of host main) = [] ->
     outcome_of host main = Exit 0 \/ (outcome_of host main = Exit 1 /\ G)).
Proof.
  intros Hb main. rewrite run_trace, run_outcome.
  destruct (top_level G body (load (startup host)) Hb)
    as [[Hr [E|[Hg E]]]|(ev0 & e0 & t1 & msg & t2 & Et & Hf & H1 & H2 & E)];
    fold main in E; fold main in Hr || fold main in Et; rewrite E.
  - split; [|auto]. intros ev e Hin Hfe. destruct (no_failure _ _ _ Hr Hin Hfe).
  - split; [|auto]. intros ev e Hin Hfe. destruct (no_failure _ _ _ Hr Hin Hfe).
  - rewrite Et. split.
    + intros ev e Hin Hfe. rewrite (sole_failure _ _ _ _ _ _ H1 H2 Hin Hfe).
      split; [reflexivity|]. exists t1, msg, t2. reflexivity.
    + intros Hr. exfalso. eapply (no_failure _ ev0 e0 Hr); [|exact Hf].
      apply in_or_app. right. left. reflexivity.
Qed.

Lemma env_summary host :
  (forall ev e, In ev (trace_of host (Env.main host)) -> failure ev = Some e ->
     is_load_or_export ev = true -> is_Exception e = true ->
     outcome_of host (Env.main host) = Exit 1 /\ reported (trace_of host (Env.main host)) ev) /\
  (raised (trace_of host (Env.main host)) = [] -> outcome_of host (Env.main host) = Exit 0).
Proof.
  rewrite run_trace, run_outcome. pose proof (env_ruled host (load (startup host))) as V.
  destruct (Env.main host (load (startup host))) as [[t d] r]. unfold trace in *.
  cbn [fst snd] in *.
  destruct V as [a Hr Ht|[]|ev0 e0 t1 Hr Ht Hf H1 Hn|ev0 e0 t1 msg t2 Hr Ht Hf H1 H2 Hh];
    subst r.
  - split; [|reflexivity]. intros ev e Hin Hfe. destruct (no_failure _ _ _ Ht Hin Hfe).
  - subst t. split.
    + intros ev e Hin Hfe Hc He. exfalso. apply in_app_or in Hin as [Hin|[<-|[]]].
      * exact (no_failure _ _ _ H1 Hin Hfe).
      * apply Hn. rewrite Hf in Hfe. injection Hfe as <-. split; assumption.
    + intros Hr. exfalso. eapply (no_failure _ ev0 e0 Hr); [|exact Hf].
      apply in_or_app. right. left. reflexivity.
  - subst t. split.
    + intros ev e Hin Hfe _ _. rewrite (sole_failure _ _ _ _ _ _ H1 H2 Hin Hfe).
      split; [reflexivity|]. exists t1, msg, t2. reflexivity.
    + intros Hr. exfalso. eapply (no_failure _ ev0 e0 Hr); [|exact Hf].
      apply in_or_app. right. left. reflexivity.
Qed.

(** * Further lemmas *)

(** ** What a host operation depends on *)

Section Requires.

Context (P : event -> bool) (e0 : event).

Lemma requires_none {A} (m : M A) : emits (fun ev => P ev = false) m -> requires P e0 m.
Proof.
  intros Hm d Hex. exfalso. apply Exists_exists in Hex as (ev & Hin & Hev).
  specialize (Hm d). rewrite Forall_forall in Hm. specialize (Hm ev Hin). congruence.
Qed.

Lemma requires_skip {A B} (m : M A) (k : A -> M B) :
  emits (fun ev => P ev = false) m -> (forall a, requires P e0 (k a)) ->
  requires P e0 (m ≫= k).
Proof.
  intros Hm Hk d. pose proof (requires_none m Hm d) as Hn. rewrite bind_unfold.
  destruct (m d) as [[t1 d1] [a|s]]; [|exact Hn].
  rewrite trace_after. intros Hex. apply in_or_app. apply Exists_app in Hex as [Hex|Hex].
  - left. apply Hn, Hex.
  - right. apply Hk, Hex.
Qed.

Lemma requires_here {A B} (m : M A) (k : A -> M B) :
  emits (fun ev => P ev = false) m ->
  (forall d t d' a, m d = (t, d', Ok a) -> In e0 t) ->
  requires P e0 (m ≫= k).
Proof.
  intros Hm Hok d. pose proof (requires_none m Hm d) as Hn. rewrite bind_unfold.
  destruct (m d) as [[t1 d1] [a|s]] eqn:E; [|exact Hn].
  rewrite trace_after. intros _. apply in_or_app. left. eapply Hok, E.
Qed.

Lemma requires_try {A} (m : M A) clauses :
  requires P e0 m -> (forall s, emits (fun ev => P ev = false) (handler clauses s)) ->
  requires P e0 (try m clauses).
Proof.
  intros Hm Hh d. unfold try. specialize (Hm d).
  destruct (m d) as [[t1 d1] [a|s]]; [exact Hm|].
  pose proof (requires_none _ (Hh s) d1) as Hn.
  destruct (handler clauses s d1) as [[t2 d2] r].
  unfold trace in *. cbn [fst] in *. intros Hex. apply in_or_app.
  apply Exists_app in Hex as [Hex|Hex]; [left; apply Hm, Hex | right; apply Hn, Hex].
Qed.

End Requires.

Lemma open_provides host p d t d' a :
  bpy_ops_wm_open_mainfile host p d = (t, d', Ok a) -> In (OpenMainfile p None) t.
Proof.
  unfold bpy_ops_wm_open_mainfile. destruct (open_mainfile host p); intros [= <- _ _].
  left; reflexivity.
Qed.

Lemma try_provides {A} (m : M A) clauses e0 :
  (forall d t d' a, m d = (t, d', Ok a) -> In e0 t) ->
  (forall s d a, (handler clauses s d).2 <> Ok a) ->
  forall d t d' a, try m clauses d = (t, d', Ok a) -> In e0 t.
Proof.
  intros Hm Hh d t d' a. unfold try. destruct (m d) as [[t1 d1] [a1|s]] eqn:E.
  - intros [= <- <- <-]. eapply Hm, E.
  - specialize (Hh s d1 a). destruct (handler clauses s d1) as [[t2 d2] r].
    intros [= _ _ ->]. destruct Hh. reflexivity.
Qed.

Lemma call_provides {A B} (m : M A) (k : A -> M B) e0 :
  (forall d t d' a, m d = (t, d', Ok a) -> In e0 t) ->
  forall d t d' b, (m ≫= k) d = (t, d', Ok b) -> In e0 t.
Proof.
  intros Hm d t d' b E. apply bind_ok_inv in E as (t1 & d1 & a & t2 & E1 & E2 & ->).
  apply in_or_app. left. eapply Hm, E1.
Qed.

Lemma export_provides host kw d t d' a :
  bpy_ops_export_scene_gltf host kw d = (t, d', Ok a) -> In (ExportGltf kw None) t.
Proof.
  unfold bpy_ops_export_scene_gltf. destruct (export_gltf host kw d); intros [= <- _ _].
  left; reflexivity.
Qed.

Lemma read_homefile_provides host d t d' a :
  bpy_ops_wm_read_homefile host d = (t, d', Ok a) -> In (ReadHomefile None) t.
Proof.
  unfold bpy_ops_wm_read_homefile. destruct (read_homefile host); intros [= <- _ _].
  left; reflexivity.
Qed.

Ltac provides :=
  lazymatch goal with
  | |- forall d t d' a, try _ _ _ = _ -> _ =>
      apply try_provides; [provides | intros [[|?]|?] ? ?; cbn; discriminate]
  | |- forall d t d' a, (_ ≫= _) _ = _ -> _ => apply call_provides; provides
  | |- forall d t d' a, bpy_ops_wm_read_homefile _ _ = _ -> _ => apply read_homefile_provides
  | |- forall d t d' a, bpy_ops_wm_open_mainfile _ _ _ = _ -> _ => apply open_provides
  | |- forall d t d' a, bpy_ops_export_scene_gltf _ _ _ = _ -> _ => apply export_provides
  end.

Ltac requires_tac :=
  repeat (cbv zeta;
          lazymatch goal with
          | |- requires _ _ (_ ≫= _) =>
              first [ apply requires_here; [solve [emits_tac by_computation] | solve [provides]]
                    | apply requires_skip; [solve [emits_tac by_computation] | intros ?] ]
          | |- requires _ _ _ => apply requires_none; solve [emits_tac by_computation]
          end).

Lemma env_size_requires host :
  requires is_getsize (ExportGltf Env.gltf_options None) (Env.main host).
Proof. unfold Env.main, Env.export_environment. requires_tac. Qed.

Lemma char_size_requires host :
  requires is_getsize (ExportGltf Char.gltf_options None) (Char.main host).
Proof.
  unfold Char.main. apply requires_try; [|intros s; emits_tac by_computation].
  unfold Char.export_character. requires_tac.
Qed.

Lemma rt_size_requires host :
  requires is_getsize (ExportGltf RtScene.gltf_options None) (RtScene.main host).
Proof.
  unfold RtScene.main. apply requires_try; [|intros s; emits_tac by_computation].
  unfold RtScene.export_rt_scene. requires_tac.
Qed.

Lemma requires_run P e0 host (main : M unit) ev :
  requires P e0 main -> In ev (trace_of host main) -> P ev = true ->
  In e0 (trace_of host main).
Proof.
  intros H Hin Hev. rewrite run_trace in *. apply H. apply Exists_exists.
  exists ev. split; [apply list_elem_of_In, Hin | exact Hev].
Qed.

(** The same with the order: the effect [e0] comes first. *)

Section Precedes.

Context (P : event -> bool) (e0 : event).

Lemma split_after (t t' t1 t2 : list event) ev :
  Forall (fun ev => P ev = false) t -> P ev = true ->
  t ++ t' = t1 ++ ev :: t2 -> exists u, t1 = t ++ u /\ t' = u ++ ev :: t2.
Proof.
  intros Ht Hev. revert t1. induction t as [|x t IH]; intros t1 E.
  - exists t1. split; [reflexivity | exact E].
  - apply Forall_cons in Ht as [Hx Ht]. destruct t1 as [|y t1].
    + injection E as -> _. congruence.
    + injection E as -> E. destruct (IH Ht t1 E) as (u & -> & ->).
      exists u. split; reflexivity.
Qed.

Lemma precedes_none {A} (m : M A) : emits (fun ev => P ev = false) m -> precedes P e0 m.
Proof.
  intros Hm d t1 ev t2 E Hev. exfalso. specialize (Hm d). rewrite E in Hm.
  apply Forall_app in Hm as [_ Hm]. apply Forall_cons in Hm as [Hm _]. congruence.
Qed.

Lemma precedes_skip {A B} (m : M A) (k : A -> M B) :
  emits (fun ev => P ev = false) m -> (forall a, precedes P e0 (k a)) ->
  precedes P e0 (m ≫= k).
Proof.
  intros Hm Hk d. pose proof (precedes_none m Hm d) as Hn. pose proof (Hm d) as Hf.
  rewrite bind_unfold.
  destruct (m d) as [[t d1] [a|s]]; [|exact Hn].
  rewrite trace_after. intros t1 ev t2 E Hev.
  destruct (split_after _ _ _ _ _ Hf Hev E) as (u & -> & E').
  apply in_or_app. right. exact (Hk a d1 u ev t2 E' Hev).
Qed.

Lemma precedes_here {A B} (m : M A) (k : A -> M B) :
  emits (fun ev => P ev = false) m ->
  (forall d t d' a, m d = (t, d', Ok a) -> In e0 t) ->
  precedes P e0 (m ≫= k).
Proof.
  intros Hm Hok d. pose proof (precedes_none m Hm d) as Hn. pose proof (Hm d) as Hf.
  rewrite bind_unfold.
  destruct (m d) as [[t d1] [a|s]] eqn:Em; [|exact Hn].
  rewrite trace_after. intros t1 ev t2 E Hev.
  destruct (split_after _ _ _ _ _ Hf Hev E) as (u & -> & _).
  apply in_or_app. left. eapply Hok, Em.
Qed.

Lemma precedes_try {A} (m : M A) clauses :
  precedes P e0 m -> (forall s, emits (fun ev => P ev = false) (handler clauses s)) ->
  precedes P e0 (try m clauses).
Proof.
  intros Hm Hh d. unfold try. specialize (Hm d).
  destruct (m d) as [[t d1] [a|s]]; [exact Hm|].
  pose proof (Hh s d1) as Hf.
  destruct (handler clauses s d1) as [[t' d2] r].
  unfold trace in *. cbn [fst] in *. intros t1 ev t2 E Hev.
  symmetry in E. apply app_eq_inv in E as [(u & -> & E)|(u & -> & E)].
  - exfalso. rewrite E in Hf. apply Forall_app in Hf as [_ Hf].
    apply Forall_cons in Hf as [Hf _]. congruence.
  - destruct u as [|x u].
    + cbn in E. subst t'. apply Forall_cons in Hf as [Hf _]. congruence.
    + injection E as <- ->. eapply Hm; [|exact Hev]. reflexivity.
Qed.

End Precedes.

Ltac precedes_tac :=
  repeat (cbv zeta;
          lazymatch goal with
          | |- precedes _ _ (_ ≫= _) =>
              first [ apply precedes_here; [solve [emits_tac by_computation] | solve [provides]]
                    | apply precedes_skip; [solve [emits_tac by_computation] | intros ?] ]
          | |- precedes _ _ _ => apply precedes_none; solve [emits_tac by_computation]
          end).

Lemma env_export_precedes host :
  precedes is_export (OpenMainfile Env.ENV_FILE None) (Env.main host).
Proof. unfold Env.main, Env.export_environment. precedes_tac. Qed.

Lemma char_export_precedes host :
  precedes is_export (OpenMainfile Char.CHAR_FILE None) (Char.main host).
Proof.
  unfold Char.main. apply precedes_try; [|intros s; emits_tac by_computation].
  unfold Char.export_character. precedes_tac.
Qed.

Lemma rt_export_precedes host :
  precedes is_export (OpenMainfile RtScene.RT_SCENE_FILE None) (RtScene.main host).
Proof.
  unfold RtScene.main. apply precedes_try; [|intros s; emits_tac by_computation].
  unfold RtScene.export_rt_scene. precedes_tac.
Qed.

Lemma rt_open_precedes host :
  precedes is_open (ReadHomefile None) (RtScene.main host).
Proof.
  unfold RtScene.main. apply precedes_try; [|intros s; emits_tac by_computation].
  unfold RtScene.export_rt_scene. precedes_tac.
Qed.

Lemma rt_makedirs_precedes host :
  precedes is_makedirs (OpenMainfile RtScene.RT_SCENE_FILE None) (RtScene.main host).
Proof.
  unfold RtScene.main. apply precedes_try; [|intros s; emits_tac by_computation].
  unfold RtScene.export_rt_scene. precedes_tac.
Qed.

Lemma precedes_run P e0 host (main : M unit) t1 ev t2 :
  precedes P e0 main -> trace_of host main = t1 ++ ev :: t2 -> P ev = true -> In e0 t1.
Proof. intros H E Hev. rewrite run_trace in E. exact (H _ _ _ _ E Hev). Qed.

Lemma env_size_precedes host :
  precedes is_getsize (ExportGltf Env.gltf_options None) (Env.main host).
Proof. unfold Env.main, Env.export_environment. precedes_tac. Qed.

Lemma char_size_precedes host :
  precedes is_getsize (ExportGltf Char.gltf_options None) (Char.main host).
Proof.
  unfold Char.main. apply precedes_try; [|intros s; emits_tac by_computation].
  unfold Char.export_character. precedes_tac.
Qed.

Lemma rt_size_precedes host :
  precedes is_getsize (ExportGltf RtScene.gltf_options None) (RtScene.main host).
Proof.
  unfold RtScene.main. apply precedes_try; [|intros s; emits_tac by_computation].
  unfold RtScene.export_rt_scene. precedes_tac.
Qed.

Lemma sublist_singleton (x : event) t : In x t -> sublist [x] t.
Proof.
  induction t as [|y t IH]; [intros []|]. intros [->|Hin].
  - apply sublist_skip, sublist_nil_l.
  - apply sublist_cons, IH, Hin.
Qed.

(** ** How a computation ends after a failure *)

Lemma message_quiet t : Forall message t -> raised t = [].
Proof.
  intros H. apply raised_none. eapply Forall_impl; [exact H|].
  intros [] Hev; try destruct Hev; reflexivity.
Qed.

Section Ends.

Context (T : event -> exn -> list event -> signal -> Prop).

Lemma ends_atomic {A} (m : M A) :
  (forall d,
      trace (m d) = [] \/
      exists ev, trace (m d) = [ev] /\
                 match failure ev with
                 | None => True
                 | Some e => (m d).2 = Raise (Exn e) /\ T ev e [] (Exn e)
                 end) ->
  ends T m.
Proof.
  intros H d. destruct (H d) as [E|(ev & E & Hev)]; rewrite E.
  - split; [reflexivity|]. intros [|? ?] ? ? ? [=].
  - split.
    + intros [a Ha]. unfold raised. cbn. destruct (failure ev) as [e|]; [|reflexivity].
      destruct Hev as [Hr _]. congruence.
    + intros [|ev' t1] ev0 t2 e [= <- Et] Hf.
      * subst t2. rewrite Hf in Hev. destruct Hev as [Hr HT]. eauto.
      * destruct t1; discriminate.
Qed.

Lemma ends_bind {A B} (m : M A) (k : A -> M B) :
  ends T m -> (forall a, ends T (k a)) -> ends T (m ≫= k).
Proof.
  intros Hm Hk d. rewrite bind_unfold. destruct (Hm d) as [Hm1 Hm2].
  destruct (m d) as [[t1 d1] [a|s]].
  2:{ split; [intros [a [=]]|]. intros u1 ev u2 e E Hf.
      destruct (Hm2 u1 ev u2 e E Hf) as (s0 & [= <-] & Ht). eauto. }
  destruct (Hk a d1) as [Hk1 Hk2]. rewrite trace_after, result_after.
  assert (raised t1 = []) as H1 by (apply Hm1; eauto).
  split.
  - intros Hok. rewrite raised_app, H1, (Hk1 Hok). reflexivity.
  - intros u1 ev u2 e E Hf.
    apply app_eq_inv in E as [(k' & -> & E)|(k' & -> & E)].
    + destruct k' as [|ev' k'].
      * eapply (Hk2 []); [symmetry; exact E | exact Hf].
      * exfalso. injection E as <- _. eapply (no_failure _ ev e H1); [|exact Hf].
        apply in_or_app. right. left. reflexivity.
    + eapply Hk2; [exact E | exact Hf].
Qed.

Lemma ends_ret {A} (a : A) : ends T (mret a).
Proof. apply ends_atomic. intros d. left. reflexivity. Qed.

Lemma ends_gets {A} (f : Data -> A) : ends T (gets f).
Proof. apply ends_atomic. intros d. left. reflexivity. Qed.

Lemma ends_throw {A} s : ends T (@throw A s).
Proof. apply ends_atomic. intros d. left. reflexivity. Qed.

Lemma ends_emit ev : failure ev = None -> ends T (emit ev).
Proof.
  intros H. apply ends_atomic. intros d. right. exists ev. rewrite H. split; [reflexivity | exact I].
Qed.

Lemma ends_raise {A} e : T (Raised e) e [] (Exn e) -> ends T (@raise A e).
Proof.
  intros H. apply ends_atomic. intros d. right. exists (Raised e). cbn. auto.
Qed.

Lemma ends_deref r :
  T (Raised ReferenceError) ReferenceError [] (Exn ReferenceError) -> ends T (deref r).
Proof.
  intros H. apply ends_atomic. intros d. unfold deref. destruct (obj_at d r).
  - left. reflexivity.
  - right. exists (Raised ReferenceError). cbn. auto.
Qed.

Lemma ends_deref_collection c :
  T (Raised ReferenceError) ReferenceError [] (Exn ReferenceError) ->
  ends T (deref_collection c).
Proof.
  intros H. apply ends_atomic. intros d. unfold deref_collection. destruct (collections d !! c).
  - left. reflexivity.
  - right. exists (Raised ReferenceError). cbn. auto.
Qed.

Lemma ends_setattr_object r a v :
  T (Raised ReferenceError) ReferenceError [] (Exn ReferenceError) ->
  ends T (setattr_object r a v).
Proof.
  intros H. apply ends_atomic. intros d. unfold setattr_object. right. destruct (obj_at d r).
  - eexists. split; [reflexivity | exact I].
  - exists (Raised ReferenceError). cbn. auto.
Qed.

Lemma ends_setattr_collection c a v :
  T (Raised ReferenceError) ReferenceError [] (Exn ReferenceError) ->
  ends T (setattr_collection c a v).
Proof.
  intros H. apply ends_atomic. intros d. unfold setattr_collection. right.
  destruct (collections d !! c).
  - eexists. split; [reflexivity | exact I].
  - exists (Raised ReferenceError). cbn. auto.
Qed.

Lemma ends_remove_object r :
  T (Raised ReferenceError) ReferenceError [] (Exn ReferenceError) ->
  ends T (remove_object r).
Proof.
  intros H. apply ends_atomic. intros d. unfold remove_object. right. destruct (obj_at d r).
  - eexists. split; [reflexivity | exact I].
  - exists (Raised ReferenceError). cbn. auto.
Qed.

Lemma ends_for_each {X B} (xs : list X) (body : B -> X -> M B) acc :
  (forall acc x, ends T (body acc x)) -> ends T (for_each xs body acc).
Proof.
  intros Hb. revert acc. induction xs as [|x xs IH]; intros acc; cbn [for_each].
  - apply ends_ret.
  - apply ends_bind; [apply Hb | intros acc'; apply IH].
Qed.

Lemma ends_filter_refs cond refs :
  T (Raised ReferenceError) ReferenceError [] (Exn ReferenceError) ->
  ends T (filter_refs cond refs).
Proof.
  intros H. induction refs as [|r refs IH]; cbn [filter_refs].
  - apply ends_ret.
  - apply ends_bind; [apply ends_deref, H | intros o].
    apply ends_bind; [apply IH | intros rest; apply ends_ret].
Qed.

Context (host : Host).

Lemma ends_read_homefile :
  (forall e, T (ReadHomefile (Some e)) e [] (Exn e)) -> ends T (bpy_ops_wm_read_homefile host).
Proof.
  intros H. apply ends_atomic. intros d. unfold bpy_ops_wm_read_homefile. right.
  destruct (read_homefile host) as [e|f]; eexists; (split; [reflexivity|]); cbn; auto.
Qed.

Lemma ends_open_mainfile p :
  (forall e, T (OpenMainfile p (Some e)) e [] (Exn e)) -> ends T (bpy_ops_wm_open_mainfile host p).
Proof.
  intros H. apply ends_atomic. intros d. unfold bpy_ops_wm_open_mainfile. right.
  destruct (open_mainfile host p) as [e|f]; eexists; (split; [reflexivity|]); cbn; auto.
Qed.

Lemma ends_export_gltf kw :
  (forall e, T (ExportGltf kw (Some e)) e [] (Exn e)) ->
  ends T (bpy_ops_export_scene_gltf host kw).
Proof.
  intros H. apply ends_atomic. intros d. unfold bpy_ops_export_scene_gltf. right.
  destruct (export_gltf host kw d) as [e|]; eexists; (split; [reflexivity|]); cbn; auto.
Qed.

Lemma ends_makedirs p :
  (forall e, T (Makedirs p (Some e)) e [] (Exn e)) -> ends T (os_makedirs host p).
Proof.
  intros H. apply ends_atomic. intros d. unfold os_makedirs. right.
  destruct (makedirs host p) as [e|]; eexists; (split; [reflexivity|]); cbn; auto.
Qed.

Lemma ends_getsize p :
  (forall e, T (Getsize p (inl e)) e [] (Exn e)) -> ends T (os_path_getsize host p).
Proof.
  intros H. apply ends_atomic. intros d. unfold os_path_getsize. right.
  destruct (getsize host p) as [e|n]; eexists; (split; [reflexivity|]); cbn; auto.
Qed.

End Ends.

(** A handler turns the ways its body ends into the ways the statement ends. *)
Lemma ends_try {A} T T' (C : event -> Prop) (m : M A) clauses :
  ends T m -> emits C m ->
  (forall s, emits message (handler clauses s)) ->
  (forall s d a, (handler clauses s d).2 <> Ok a) ->
  (forall ev e t2 s d, C ev -> failure ev = Some e -> T ev e t2 s ->
     exists s', (handler clauses s d).2 = Raise s' /\
                T' ev e (t2 ++ trace (handler clauses s d)) s') ->
  ends T' (try m clauses).
Proof.
  intros Hm HC Hh Hx HT d. unfold try. destruct (Hm d) as [Hm1 Hm2]. specialize (HC d).
  destruct (m d) as [[t1 d1] [a|s]].
  - split; [exact Hm1|]. intros u1 ev u2 e E Hf. exfalso.
    eapply (no_failure _ ev e); [apply Hm1; eauto | | exact Hf].
    unfold trace in E. cbn in E. rewrite E. apply in_or_app. right. left. reflexivity.
  - pose proof (Hh s d1) as Hmsg. pose proof (Hx s d1) as Hno.
    pose proof (fun ev e t2 Hc Hf Ht => HT ev e t2 s d1 Hc Hf Ht) as HT'.
    destruct (handler clauses s d1) as [[t2 d2] r]. unfold trace in *. cbn [fst snd] in *.
    split; [intros [a ->]; destruct (Hno a); reflexivity|].
    intros u1 ev u2 e E Hf.
    apply app_eq_inv in E as [(k' & E1 & E)|(k' & -> & E)].
    + destruct k' as [|ev' k'].
      * exfalso. cbn in E. subst t2.
        eapply (no_failure _ ev e (message_quiet _ Hmsg)); [|exact Hf]. left. reflexivity.
      * injection E as <- ->. destruct (Hm2 _ _ _ _ E1 Hf) as (s0 & [= <-] & Ht).
        apply HT'; [|exact Hf|exact Ht].
        rewrite Forall_forall in HC. apply HC. rewrite E1.
        apply list_elem_of_In, in_or_app. right. left. reflexivity.
    + exfalso. eapply (no_failure _ ev e (message_quiet _ Hmsg)); [|exact Hf].
      rewrite E. apply in_or_app. right. left. reflexivity.
Qed.

Ltac ends_leaf := intros; cbn; first [split; reflexivity | reflexivity | exact I].

Ltac ends_leaf' := first [ ends_leaf | intros [|?]; ends_leaf ].

Ltac ends_handled :=
  let ev := fresh "ev" in
  let e := fresh "e" in
  let HC := fresh "HC" in
  let Hf := fresh "Hf" in
  intros ev e ? ? ? HC Hf [-> ->];
  destruct HC as [HC|HC]; [|congruence];
  destruct ev; try discriminate HC;
  destruct e; cbn; (eexists; split; [reflexivity | split; reflexivity]).

Ltac ends_tac :=
  lazymatch goal with
  | |- ends ?T' (try (bpy_ops_export_scene_gltf _ _ ≫= _) _) =>
      apply (ends_try uncaught T' (fun ev => is_export ev = true \/ failure ev = None));
      [ ends_tac
      | solve [emits_tac ltac:(intros; cbn; auto)]
      | intros ?; solve [emits_tac ltac:(exact I)]
      | intros [[|?]|?] ? ?; cbn; discriminate
      | ends_handled ]
  | |- ends ?T' (try (bpy_ops_wm_open_mainfile _ _ ≫= _) _) =>
      apply (ends_try uncaught T' (fun ev => is_open ev = true \/ failure ev = None));
      [ ends_tac
      | solve [emits_tac ltac:(intros; cbn; auto)]
      | intros ?; solve [emits_tac ltac:(exact I)]
      | intros [[|?]|?] ? ?; cbn; discriminate
      | ends_handled ]
  | |- ends _ (_ ≫= _) => apply ends_bind; [ends_tac | intros ?; ends_tac]
  | |- ends _ (mret _) => apply ends_ret
  | |- ends _ (ret _) => apply ends_ret
  | |- ends _ (gets _) => apply ends_gets
  | |- ends _ (throw _) => apply ends_throw
  | |- ends _ (sys_exit _) => apply ends_throw
  | |- ends _ (print _) => apply ends_emit; reflexivity
  | |- ends _ (emit _) => apply ends_emit; reflexivity
  | |- ends _ (raise _) => apply ends_raise; ends_leaf'
  | |- ends _ (deref _) => apply ends_deref; ends_leaf'
  | |- ends _ (deref_collection _) => apply ends_deref_collection; ends_leaf'
  | |- ends _ (setattr_object _ _ _) => apply ends_setattr_object; ends_leaf'
  | |- ends _ (setattr_collection _ _ _) => apply ends_setattr_collection; ends_leaf'
  | |- ends _ (remove_object _) => apply ends_remove_object; ends_leaf'
  | |- ends _ (filter_refs _ _) => apply ends_filter_refs; ends_leaf'
  | |- ends _ (for_each _ _ _) => apply ends_for_each; intros ? ?; ends_tac
  | |- ends _ (bpy_ops_wm_read_homefile _) => apply ends_read_homefile; ends_leaf'
  | |- ends _ (bpy_ops_wm_open_mainfile _ _) => apply ends_open_mainfile; ends_leaf'
  | |- ends _ (bpy_ops_export_scene_gltf _ _) => apply ends_export_gltf; ends_leaf'
  | |- ends _ (os_path_exists _ _) => apply ends_ret
  | |- ends _ (os_makedirs _ _) => apply ends_makedirs; ends_leaf'
  | |- ends _ (os_path_getsize _ _) => apply ends_getsize; ends_leaf'
  | |- ends _ (if ?b then _ else _) => destruct b; ends_tac
  | |- ends _ (match ?x with _ => _ end) => destruct x; ends_tac
  | |- ends _ (let _ := _ in _) => cbv zeta; ends_tac
  | |- ends _ ?m => let h := head_of m in unfold h; ends_tac
  end.

Lemma env_ends host : ends (reports env_report) (Env.main host).
Proof. ends_tac. Qed.

Lemma rt_body_ends host : ends (guarded rt_report) (RtScene.export_rt_scene host).
Proof. ends_tac. Qed.

Lemma char_body_ends host : ends (guarded char_report) (Char.export_character host).
Proof. ends_tac. Qed.

Lemma top_ends (report : event -> exn -> list event) (body : M unit) :
  (forall ev e, is_export ev && is_Exception e = false -> report ev e = top_report e) ->
  ends (guarded report) body ->
  ends (reports (fun ev e => (report ev e, Exit 1)))
    (try body
       [(is_KeyboardInterrupt, fun _ =>
           print (nl +:+ nl +:+ "⚠️ Export cancelled by user.");; sys_exit 1);
        (is_Exception, fun e =>
           print (nl +:+ nl +:+ "❌ Unexpected error: " +:+ str_exn e);;
           emit (PrintExc e);; sys_exit 1)]).
Proof.
  intros Hr Hb. apply (ends_try (guarded report) _ (fun _ => True)).
  - exact Hb.
  - intros d. apply Forall_forall. auto.
  - intros s. emits_tac ltac:(exact I).
  - apply top_handlers_exit.
  - intros ev e t2 s d _ Hf Ht. unfold guarded in Ht. unfold reports. cbn [fst snd].
    destruct (is_export ev && is_Exception e) eqn:Hc.
    + destruct Ht as [-> ->]. exists (SystemExit 1). cbn. rewrite app_nil_r. auto.
    + destruct Ht as [-> ->]. rewrite (Hr ev e Hc).
      destruct e as [|msg]; exists (SystemExit 1); cbn; auto.
Qed.

Lemma rt_ends host :
  ends (reports (fun ev e => (rt_report ev e, Exit 1))) (RtScene.main host).
Proof.
  apply top_ends; [|apply rt_body_ends].
  intros ev e H. unfold rt_report. rewrite H. reflexivity.
Qed.

Lemma char_ends host :
  ends (reports (fun ev e => (char_report ev e, Exit 1))) (Char.main host).
Proof.
  apply top_ends; [|apply char_body_ends].
  intros ev e H. unfold char_report. rewrite H. reflexivity.
Qed.

Lemma run_reports report host (main : M unit) t1 ev t2 e :
  ends (reports report) main ->
  trace_of host main = t1 ++ ev :: t2 -> failure ev = Some e ->
  t2 = (report ev e).1 /\ outcome_of host main = (report ev e).2.
Proof.
  intros Hm. rewrite run_trace, run_outcome. intros E Hf.
  destruct (proj2 (Hm (load (startup host))) t1 ev t2 e E Hf) as (s & Hs & Ht & Ho).
  split; [exact Ht|]. rewrite Hs, <- Ho. destruct s; reflexivity.
Qed.

(** ** The guard on the scene file *)

Lemma rt_missing_file host :
  path_exists host RtScene.RT_SCENE_FILE = false ->
  outcome_of host (RtScene.main host) = Exit 1 /\
  steps (trace_of host (RtScene.main host)) = [] /\
  (forall f, read_homefile host = inr f ->
     trace_of host (RtScene.main host) =
       [ Print (nl +:+ str_mul "=" 60); Print "RT_SCENE Export Script"; Print (str_mul "=" 60);
         ReadHomefile None;
         Print (nl +:+ "1. Loading RT_SCENE: " +:+ RtScene.RT_SCENE_FILE);
         Print ("❌ ERROR: RT_SCENE file not found at: " +:+ RtScene.RT_SCENE_FILE);
         Print "   Update the path in this script to match your file location." ]).
Proof.
  intros H. unfold outcome_of, trace_of, run, RtScene.main, try, RtScene.export_rt_scene.
  unfold os_path_exists, bpy_ops_wm_read_homefile. rewrite H.
  destruct (read_homefile host) as [[|msg]|f].
  - split_and!; [reflexivity | reflexivity | discriminate].
  - split_and!; [reflexivity | reflexivity | discriminate].
  - split_and!; [reflexivity | reflexivity | intros f' _; reflexivity].
Qed.
(** ** The output directory *)

Lemma emits_path_exists_bind {B} P host p (k : bool -> M B) :
  emits P (k (path_exists host p)) -> emits P (os_path_exists host p ≫= k).
Proof.
  intros H d. rewrite bind_unfold. unfold os_path_exists, ret. rewrite after_nil. apply H.
Qed.

Lemma rt_makedirs_only host : emits (makedirs_only host) (RtScene.main host).
Proof.
  unfold RtScene.main, RtScene.export_rt_scene.
  repeat first
    [ lazymatch goal with
      | |- emits _ (os_path_exists _ _ ≫= _) => apply emits_path_exists_bind
      | |- emits _ (if ?b then _ else _) => destruct b eqn:?
      end
    | emits_step ltac:(intros; intros ? ?; first [discriminate | intros [= <- <-]]) ].
  split; [reflexivity|]. apply negb_true_iff. assumption.
Qed.

Lemma rt_makedirs_first host : within [no_export; no_makedirs] (RtScene.main host).
Proof.
  unfold RtScene.main. apply within_try; [discriminate | |].
  - unfold RtScene.export_rt_scene. within_tac by_computation.
  - intros s. emits_tac ltac:(intros; repeat constructor).
Qed.

Lemma exports_rt_report ev e : exports (rt_report ev e) = [].
Proof. unfold rt_report. destruct (is_export ev && is_Exception e), e; reflexivity. Qed.

Lemma rt_makedirs_fails host p e :
  In (Makedirs p (Some e)) (trace_of host (RtScene.main host)) ->
  exports (trace_of host (RtScene.main host)) = [].
Proof.
  intros Hin.
  assert (segments [no_export; no_makedirs] (trace_of host (RtScene.main host)))
    as (s1 & s2 & E & H1 & H2) by (rewrite run_trace; apply rt_makedirs_first).
  destruct H2 as (s3 & s4 & -> & H3 & ->). rewrite app_nil_r in E.
  rewrite E in Hin. apply in_app_or in Hin as [Hin|Hin].
  - apply in_split in Hin as (a & b & ->).
    destruct (run_reports _ host _ a (Makedirs p (Some e)) (b ++ s3) e (rt_ends host))
      as [Hm _]; [rewrite E, <- app_assoc; reflexivity | reflexivity |].
    cbn [fst] in Hm. apply Forall_app in H1 as [Ha _].
    rewrite E, <- app_assoc, exports_app, (exports_none _ Ha).
    change (exports (b ++ s3) = []). rewrite Hm. apply exports_rt_report.
  - exfalso. rewrite Forall_forall in H3. apply list_elem_of_In in Hin.
    specialize (H3 _ Hin). discriminate.
Qed.

(** ** What the collection-hiding loops return *)

Section HideReport.

Context {B : Type} (test : Collection.t -> bool) (line : Collection.t -> string)
  (upd : B -> Collection.t -> B) (body : B -> nat -> M B).

Hypothesis body_eq : forall acc i,
  body acc i =
  (c ← deref_collection i;
   if test c then
     setattr_collection i hide_viewport true;;
     setattr_collection i hide_render true;;
     print (line c);;
     mret (upd acc c)
   else mret acc).

Lemma hide_loop_result cs : forall pre acc d,
  collections d = pre ++ cs ->
  (for_each (seq (length pre) (length cs)) body acc d).2 =
  Ok (fold_left upd (List.filter test cs) acc).
Proof.
  induction cs as [|c cs IH]; intros pre acc d E; [reflexivity|].
  destruct (hide_body_eval test line upd body body_eq pre c cs acc d E) as (t1 & E1 & _).
  cbn [length seq for_each]. rewrite (bind_eval _ _ _ _ _ _ E1), result_after.
  replace (S (length pre)) with (length (pre ++ [if test c then hidden c else c]))
    by (rewrite length_app, Nat.add_1_r; reflexivity).
  rewrite IH by (cbn; rewrite <- app_assoc; reflexivity).
  cbn [List.filter]. destruct (test c); reflexivity.
Qed.

End HideReport.

Lemma fold_left_snoc {X Y} (f : X -> Y) xs acc :
  fold_left (fun acc x => acc ++ [f x]) xs acc = acc ++ (f <$> xs).
Proof.
  revert acc. induction xs as [|x xs IH]; intros acc; cbn [fold_left].
  - rewrite app_nil_r. reflexivity.
  - rewrite IH, <- app_assoc. reflexivity.
Qed.

Lemma fold_left_count {X} (xs : list X) n :
  fold_left (fun acc _ => acc + 1) xs n = n + length xs.
Proof.
  revert n. induction xs as [|x xs IH]; intros n; cbn [fold_left length]; [lia|].
  rewrite IH. lia.
Qed.

Lemma env_hide_result host d :
  (Env.hide_working_collections host d).2 =
  Ok (Collection.name <$>
        List.filter (fun c => contains "WORKING" (str_upper host (Collection.name c)))
                    (collections d)).
Proof.
  unfold Env.hide_working_collections.
  rewrite (bind_eval (gets collection_refs) _ d [] d (collection_refs d) eq_refl), result_after.
  unfold collection_refs.
  etrans.
  - exact (hide_loop_result
             (fun c => contains "WORKING" (str_upper host (Collection.name c)))
             (fun c => "   • Hiding: " +:+ Collection.name c)
             (fun acc c => acc ++ [Collection.name c])
             (Env.hide_working host) (fun _ _ => eq_refl) (collections d) [] [] d eq_refl).
  - rewrite fold_left_snoc. reflexivity.
Qed.

Lemma rt_hide_result d :
  (RtScene.hide_working_collections d).2 =
  Ok (length (List.filter (fun c => contains "Working" (Collection.name c)) (collections d))).
Proof.
  unfold RtScene.hide_working_collections.
  rewrite (bind_eval (gets collection_refs) _ d [] d (collection_refs d) eq_refl), result_after.
  unfold collection_refs.
  etrans.
  - exact (hide_loop_result
             (fun c => contains "Working" (Collection.name c))
             (fun c => "      - Hidden: " +:+ Collection.name c)
             (fun acc _ => acc + 1)
             RtScene.hide_working (fun _ _ => eq_refl) (collections d) [] 0 d eq_refl).
  - rewrite fold_left_count. reflexivity.
Qed.

Lemma hide_twice (test : Collection.t -> bool) (cs : list Collection.t) :
  (forall c, test (hidden c) = test c) ->
  (fun c => if test c then hidden c else c) <$>
    ((fun c => if test c then hidden c else c) <$> cs) =
  (fun c => if test c then hidden c else c) <$> cs.
Proof.
  intros H. rewrite <- list_fmap_compose. apply list_fmap_ext. intros _ c _. cbn.
  destruct (test c) eqn:E; [|rewrite E; reflexivity]. rewrite H, E. reflexivity.
Qed.

Lemma filter_hidden (test : Collection.t -> bool) (cs : list Collection.t) :
  (forall c, test (hidden c) = test c) ->
  Collection.name <$> List.filter test ((fun c => if test c then hidden c else c) <$> cs) =
  Collection.name <$> List.filter test cs.
Proof.
  intros H. induction cs as [|c cs IH]; [reflexivity|]. cbn [fmap list_fmap List.filter].
  destruct (test c) eqn:E.
  - rewrite H, E. cbn. f_equal. exact IH.
  - rewrite E. exact IH.
Qed.

(** ** The count of the orphaned-duplicate removal, and a second sweep *)

Section OrphanCount.

Context (names : gset string) (d0 : Data).

Lemma remove_orphans_loop_count suf : forall pre n d,
  objects d0 = pre ++ suf ->
  objects d = sweep names d0 pre ++ suf ->
  (for_each (live_from (length pre) suf) (RtScene.remove_orphan names) n d).2 =
  Ok (n + length (List.filter (orphan names d0) (omap id suf))).
Proof.
  induction suf as [|c suf IH]; intros pre n d E0 E.
  - cbn. f_equal. lia.
  - assert (objects d0 = (pre ++ [c]) ++ suf) as E0' by (rewrite <- app_assoc; exact E0).
    destruct c as [o|]; cbn [live_from].
    + destruct (remove_orphan_eval names d0 pre o suf n d E0 E) as (t1 & E1 & _).
      cbn [for_each]. rewrite (bind_eval _ _ _ _ _ _ E1), result_after.
      replace (S (length pre)) with (length (pre ++ [Some o]))
        by (rewrite length_app, Nat.add_1_r; reflexivity).
      rewrite (IH (pre ++ [Some o]) (if orphan names d0 o then n + 1 else n)
                 (set_objects (sweep names d0 (pre ++ [Some o]) ++ suf) d) E0' eq_refl).
      change (omap id (Some o :: suf)) with (o :: omap id suf). cbn [List.filter].
      destruct (orphan names d0 o); cbn [length]; f_equal; lia.
    + replace (S (length pre)) with (length (pre ++ [@None Object.t]))
        by (rewrite length_app, Nat.add_1_r; reflexivity).
      rewrite (IH _ n d E0'); [reflexivity|].
      unfold sweep. rewrite fmap_app, <- app_assoc. exact E.
Qed.

Lemma sweep_cons c cells :
  sweep names d0 (c :: cells) =
  (match c with
   | Some o => if orphan names d0 o then None else Some o
   | None => None
   end) :: sweep names d0 cells.
Proof. reflexivity. Qed.

Lemma sweep_length cells :
  length (omap id (sweep names d0 cells)) +
  length (List.filter (orphan names d0) (omap id cells)) =
  length (omap id cells).
Proof.
  induction cells as [|[o|] cells IH]; [reflexivity| |exact IH].
  rewrite sweep_cons. change (omap id (Some o :: cells)) with (o :: omap id cells).
  cbn [List.filter]. destruct (orphan names d0 o).
  - change (omap id (None :: sweep names d0 cells)) with (omap id (sweep names d0 cells)).
    cbn [length]. lia.
  - change (omap id (Some o :: sweep names d0 cells)) with (o :: omap id (sweep names d0 cells)).
    cbn [length]. lia.
Qed.

(** Sweeping takes no object of the scene away. *)
Lemma sweep_scene cells :
  (forall o, o ∈ omap id cells -> Object.in_scene o = true -> Object.name o ∈ names) ->
  List.filter Object.in_scene (omap id (sweep names d0 cells)) =
  List.filter Object.in_scene (omap id cells).
Proof.
  induction cells as [|[o|] cells IH]; intros H; [reflexivity| |exact (IH H)].
  rewrite sweep_cons. change (omap id (Some o :: cells)) with (o :: omap id cells) in *.
  assert (List.filter Object.in_scene (omap id (sweep names d0 cells)) =
          List.filter Object.in_scene (omap id cells)) as IH'.
  { apply IH. intros o' Ho'. apply H. right. exact Ho'. }
  destruct (orphan names d0 o) eqn:Ho.
  - change (omap id (None :: sweep names d0 cells)) with (omap id (sweep names d0 cells)).
    cbn [List.filter]. destruct (Object.in_scene o) eqn:Hs; [|exact IH'].
    exfalso. unfold orphan in Ho. apply andb_true_iff in Ho as [Ho _].
    apply negb_true_iff, bool_decide_eq_false in Ho. apply Ho, H; [left|exact Hs].
  - change (omap id (Some o :: sweep names d0 cells)) with (o :: omap id (sweep names d0 cells)).
    cbn [List.filter]. rewrite IH'. reflexivity.
Qed.

End OrphanCount.

Lemma scene_names_sweep d :
  scene_names (set_objects (sweep (scene_names d) d (objects d)) d) = scene_names d.
Proof.
  unfold scene_names at 1 3. unfold scene_objects, live_objects. cbn [objects set_objects].
  rewrite sweep_scene; [reflexivity|].
  intros o Ho Hs. unfold scene_names. apply elem_of_list_to_set, list_elem_of_fmap.
  exists o. split; [reflexivity|]. unfold scene_objects, live_objects.
  apply list_elem_of_In, filter_In. split; [apply list_elem_of_In, Ho | exact Hs].
Qed.

Lemma orphan_sweep d o :
  orphan (scene_names d) (set_objects (sweep (scene_names d) d (objects d)) d) o =
  orphan (scene_names d) d o.
Proof.
  unfold orphan, RtScene.has_scene_namesake, live_objects. cbn [objects set_objects].
  rewrite namesake_sweep. reflexivity.
Qed.

Lemma sweep_twice d cells :
  let d1 := set_objects (sweep (scene_names d) d (objects d)) d in
  sweep (scene_names d) d1 (sweep (scene_names d) d cells) = sweep (scene_names d) d cells.
Proof.
  intros d1. induction cells as [|[o|] cells IH].
  - reflexivity.
  - rewrite (sweep_cons _ d). destruct (orphan (scene_names d) d o) eqn:Ho.
    + rewrite sweep_cons, IH. reflexivity.
    + rewrite sweep_cons, IH. unfold d1. rewrite orphan_sweep, Ho. reflexivity.
  - rewrite (sweep_cons _ d), sweep_cons, IH. reflexivity.
Qed.

Lemma set_objects_id d : set_objects (objects d) d = d.
Proof. destruct d; reflexivity. Qed.

Lemma remove_orphans_count d :
  (RtScene.remove_orphans d).2 =
  Ok (length (List.filter (orphan (scene_names d) d) (live_objects d))).
Proof.
  unfold RtScene.remove_orphans.
  rewrite (bind_eval (gets scene_names) _ d [] d (scene_names d) eq_refl), result_after.
  rewrite (bind_eval (gets object_refs) _ d [] d (object_refs d) eq_refl), result_after.
  exact (remove_orphans_loop_count (scene_names d) d (objects d) [] 0 d eq_refl eq_refl).
Qed.

Lemma remove_orphans_state d :
  (RtScene.remove_orphans d).1.2 = set_objects (sweep (scene_names d) d (objects d)) d.
Proof. destruct (remove_orphans_eval d) as (t & n & -> & _). reflexivity. Qed.

Lemma remove_orphans_twice d :
  let d1 := (RtScene.remove_orphans d).1.2 in
  (RtScene.remove_orphans d1).1.2 = d1 /\ (RtScene.remove_orphans d1).2 = Ok 0.
Proof.
  intros d1. unfold d1. rewrite (remove_orphans_state d).
  set (d' := set_objects _ d).
  assert (scene_names d' = scene_names d) as Hn by apply scene_names_sweep.
  assert (sweep (scene_names d') d' (objects d') = objects d') as Hs.
  { rewrite Hn. exact (sweep_twice d (objects d)). }
  split.
  - rewrite (remove_orphans_state d'), Hs. apply set_objects_id.
  - rewrite remove_orphans_count. f_equal.
    pose proof (sweep_length (scene_names d') d' (objects d')) as Hl.
    rewrite Hs in Hl. unfold live_objects. lia.
Qed.

(** ** Hiding the linked duplicates *)

Lemma overrides_loop d xs : forall (m0 : gmap string nat),
  Forall (live d) xs ->
  exists m,
    for_each xs (fun (m : gmap string nat) r =>
                   obj ← deref r; mret (<[Object.name obj := r]> m)) m0 d = ([], d, Ok m) /\
    forall n, is_Some (m !! n) <->
              is_Some (m0 !! n) \/ exists r o, r ∈ xs /\ obj_at d r = Some o /\ Object.name o = n.
Proof.
  induction xs as [|x xs IH]; intros m0 Hl.
  - exists m0. split; [reflexivity|]. intros n. split; [auto|].
    intros [H|(r & o & Hr & _)]; [exact H | inversion Hr].
  - apply Forall_cons in Hl as [[o Ho] Hl]. cbn [for_each].
    assert ((obj ← deref x; mret (<[Object.name obj := x]> m0)) d =
            ([], d, Ok (<[Object.name o := x]> m0))) as Eb.
    { rewrite (bind_eval _ _ _ _ _ _ (deref_live _ _ _ Ho)). reflexivity. }
    rewrite (bind_eval _ _ _ _ _ _ Eb), after_nil.
    destruct (IH (<[Object.name o := x]> m0) Hl) as (m & E & Hm).
    exists m. split; [exact E|]. intros n. rewrite Hm, lookup_insert_is_Some.
    split.
    + intros [[<-|[_ H]]|(r & o' & Hr & Ho' & Hn)].
      * right. exists x, o. split_and!; [left | exact Ho | reflexivity].
      * left. exact H.
      * right. exists r, o'. split_and!; [right; exact Hr | exact Ho' | exact Hn].
    + intros [H|(r & o' & Hr & Ho' & Hn)].
      * destruct (decide (Object.name o = n)); [left; left; assumption | left; right; auto].
      * apply elem_of_cons in Hr as [->|Hr].
        -- rewrite Ho in Ho'. injection Ho' as <-. left. left. exact Hn.
        -- right. exists r, o'. auto.
Qed.

Lemma overrides_eval refs d :
  Forall (live d) refs ->
  exists m,
    RtScene.overrides refs d = ([], d, Ok m) /\
    forall n, is_Some (m !! n) <->
              exists r o, r ∈ refs /\ obj_at d r = Some o /\
                          Object.library o = None /\ Object.name o = n.
Proof.
  intros Hl. unfold RtScene.overrides.
  rewrite (bind_eval _ _ _ _ _ _ (filter_refs_live _ _ _ Hl)), after_nil.
  destruct (overrides_loop d
              (List.filter (holds d (fun obj => negb (is_linked Object.library obj))) refs) ∅)
    as (m & E & Hm).
  { apply Forall_filter_live, Hl. }
  exists m. split; [exact E|]. intros n. rewrite Hm. split.
  - intros [[x H]|(r & o & Hr & Ho & Hn)]; [rewrite lookup_empty in H; discriminate|].
    apply list_elem_of_In, filter_In in Hr as [Hr Hc]. exists r, o.
    split_and!; [apply list_elem_of_In, Hr | exact Ho | | exact Hn].
    unfold holds in Hc. rewrite Ho in Hc. cbn in Hc. unfold is_linked in Hc.
    destruct (Object.library o); [discriminate | reflexivity].
  - intros (r & o & Hr & Ho & Hlib & Hn). right. exists r, o. split_and!; [|exact Ho|exact Hn].
    apply list_elem_of_In, filter_In. split; [apply list_elem_of_In, Hr|].
    unfold holds. rewrite Ho. cbn. unfold is_linked. rewrite Hlib. reflexivity.
Qed.

Lemma live_objects_spec d o : o ∈ live_objects d <-> exists r, obj_at d r = Some o.
Proof.
  unfold live_objects, obj_at. rewrite list_elem_of_omap. split.
  - intros ([o'|] & Hin & [= ->]). apply list_elem_of_lookup in Hin as [r Hr].
    exists r. rewrite Hr. reflexivity.
  - intros [r Hr]. destruct (objects d !! r) as [[o'|]|] eqn:E; try discriminate.
    injection Hr as ->. exists (Some o). split; [|reflexivity].
    eapply list_elem_of_lookup_2, E.
Qed.

Lemma object_refs_spec d r : r ∈ object_refs d <-> live d r.
Proof.
  unfold object_refs. rewrite live_from_spec, Nat.sub_0_r. unfold live, obj_at.
  split; [intros [_ H]; exact H | intros H; split; [lia | exact H]].
Qed.

Lemma and_iff_both (A B C D : Prop) : (A <-> C) -> (B <-> D) -> (A /\ B <-> C /\ D).
Proof. tauto. Qed.

Lemma linked_duplicate_spec d o :
  linked_duplicate d o = true <->
  Object.library o <> None /\
  exists o', o' ∈ live_objects d /\ Object.library o' = None /\ Object.name o' = Object.name o.
Proof.
  unfold linked_duplicate, duplicate_among.
  rewrite andb_true_iff, existsb_exists. apply and_iff_both.
  - unfold is_linked. destruct (Object.library o); split; congruence.
  - split.
    + intros (o' & Hin & H). apply andb_true_iff in H as [H1 H2].
      exists o'. split_and!; [apply list_elem_of_In, Hin | | apply String.eqb_eq, H2].
      unfold is_linked in H1. destruct (Object.library o'); [discriminate | reflexivity].
    + intros (o' & Hin & H1 & H2). exists o'. split; [apply list_elem_of_In, Hin|].
      unfold is_linked. rewrite H1, H2, String.eqb_refl. reflexivity.
Qed.

(** The test of the loop is the test on the data. *)
Lemma overrides_test d (m : gmap string nat) o :
  (forall n, is_Some (m !! n) <->
             exists r o', r ∈ object_refs d /\ obj_at d r = Some o' /\
                          Object.library o' = None /\ Object.name o' = n) ->
  is_linked Object.library o && bool_decide (is_Some (m !! Object.name o)) =
  linked_duplicate d o.
Proof.
  intros Hm. apply eq_true_iff_eq. rewrite linked_duplicate_spec, andb_true_iff.
  rewrite bool_decide_eq_true, Hm. apply and_iff_both.
  - unfold is_linked. destruct (Object.library o); split; congruence.
  - split.
    + intros (r & o' & _ & Ho' & H1 & H2). exists o'.
      split_and!; [apply live_objects_spec; eauto | exact H1 | exact H2].
    + intros (o' & Hin & H1 & H2). apply live_objects_spec in Hin as [r Hr].
      exists r, o'. split_and!; [apply object_refs_spec; exists o'; exact Hr | auto..].
Qed.

Section HideDuplicates.

Context (ov : gmap string nat).

Abbreviation test := (overridden ov).

Lemma hide_duplicates_app cells1 cells2 :
  hide_duplicates test (cells1 ++ cells2) =
  hide_duplicates test cells1 ++ hide_duplicates test cells2.
Proof. apply fmap_app. Qed.

Lemma hide_linked_duplicate_eval pre o suf acc d :
  objects d = hide_duplicates test pre ++ Some o :: suf ->
  exists t,
    RtScene.hide_linked_duplicate ov acc (length pre) d =
    (t, set_objects (hide_duplicates test (pre ++ [Some o]) ++ suf) d,
     Ok (if test o then acc ++ [Object.name o] else acc)) /\
    raised t = [].
Proof.
  intros E. unfold RtScene.hide_linked_duplicate.
  assert (length (hide_duplicates test pre) = length pre) as Hlen
    by (unfold hide_duplicates; apply length_fmap).
  assert (objects d !! length pre = Some (Some o)) as Hc.
  { rewrite E, <- Hlen. apply list_lookup_middle. reflexivity. }
  assert (obj_at d (length pre) = Some o) as Ho by (unfold obj_at; rewrite Hc; reflexivity).
  rewrite (bind_eval _ _ _ _ _ _ (deref_live _ _ _ Ho)), after_nil.
  rewrite hide_duplicates_app, <- app_assoc. cbn [hide_duplicates fmap list_fmap app].
  assert (test o = is_linked Object.library o &&
                   bool_decide (is_Some (ov !! Object.name o))) as Ht by reflexivity.
  rewrite <- Ht. clear Ht. destruct (test o).
  - set (d1 := set_objects (<[(length pre) := Some (set_flag hide_viewport true o)]> (objects d)) d).
    assert (setattr_object (length pre) hide_viewport true d = ([SetObject (length pre) hide_viewport true], d1, Ok tt))
      as E1 by (unfold setattr_object; rewrite Ho; reflexivity).
    assert (obj_at d1 (length pre) = Some (set_flag hide_viewport true o)) as Ho1.
    { unfold obj_at, d1. cbn [objects set_objects].
      rewrite list_lookup_insert_eq; [reflexivity|]. eapply lookup_lt_Some, Hc. }
    assert (setattr_object (length pre) hide_render true d1 =
            ([SetObject (length pre) hide_render true],
             set_objects (hide_duplicates test pre ++ Some (hide_object o) :: suf) d, Ok tt))
      as E2.
    { unfold setattr_object. rewrite Ho1. unfold d1. cbn [objects set_objects].
      rewrite list_insert_insert_eq, E. rewrite <- Hlen.
      rewrite insert_app_r_alt, Nat.sub_diag by lia. reflexivity. }
    eexists. rewrite (bind_eval _ _ _ _ _ _ E1), (bind_eval _ _ _ _ _ _ E2).
    split; reflexivity.
  - exists []. rewrite <- E, set_objects_id. split; reflexivity.
Qed.

Lemma hide_duplicates_loop suf : forall pre acc d,
  objects d = hide_duplicates test pre ++ suf ->
  exists t,
    for_each (live_from (length pre) suf) (RtScene.hide_linked_duplicate ov) acc d =
    (t, set_objects (hide_duplicates test (pre ++ suf)) d,
     Ok (acc ++ (Object.name <$> List.filter test (omap id suf)))) /\
    raised t = [].
Proof.
  induction suf as [|c suf IH]; intros pre acc d E.
  - exists []. cbn. rewrite !app_nil_r in *. rewrite <- E, set_objects_id.
    split; reflexivity.
  - destruct c as [o|]; cbn [live_from].
    + destruct (hide_linked_duplicate_eval pre o suf acc d E) as (t1 & E1 & R1).
      cbn [for_each]. rewrite (bind_eval _ _ _ _ _ _ E1).
      set (d1 := set_objects (hide_duplicates test (pre ++ [Some o]) ++ suf) d).
      destruct (IH (pre ++ [Some o]) (if test o then acc ++ [Object.name o] else acc) d1 eq_refl)
        as (t2 & E2 & R2).
      rewrite length_app, Nat.add_1_r in E2. rewrite E2.
      exists (t1 ++ t2). split.
      * unfold after, d1. cbn [fst snd set_objects]. rewrite <- app_assoc.
        change (omap id (Some o :: suf)) with (o :: omap id suf). cbn [List.filter].
        destruct (test o); [rewrite <- app_assoc|]; reflexivity.
      * rewrite raised_app, R1, R2. reflexivity.
    + destruct (IH (pre ++ [None]) acc d) as (t2 & E2 & R2).
      { rewrite hide_duplicates_app, <- app_assoc. exact E. }
      rewrite length_app, Nat.add_1_r in E2. rewrite E2.
      exists t2. split; [|exact R2]. rewrite <- app_assoc. reflexivity.
Qed.

End HideDuplicates.

Lemma hide_duplicates_ext (f g : Object.t -> bool) cells :
  (forall o, Some o ∈ cells -> f o = g o) -> hide_duplicates f cells = hide_duplicates g cells.
Proof.
  intros H. apply list_fmap_ext. intros i [o|] Hi; [|reflexivity].
  rewrite H; [reflexivity|]. eapply list_elem_of_lookup_2, Hi.
Qed.

Lemma hide_duplicates_refs d (m : gmap string nat) :
  (forall n, is_Some (m !! n) <->
             exists r o', r ∈ object_refs d /\ obj_at d r = Some o' /\
                          Object.library o' = None /\ Object.name o' = n) ->
  exists t,
    for_each (object_refs d) (RtScene.hide_linked_duplicate m) [] d =
    (t, set_objects (hide_duplicates (linked_duplicate d) (objects d)) d,
     Ok (Object.name <$> List.filter (linked_duplicate d) (live_objects d))).
Proof.
  intros Hm. destruct (hide_duplicates_loop m (objects d) [] [] d eq_refl) as (t & E & R).
  exists t. unfold object_refs. cbn [length app] in E. rewrite E.
  f_equal; [f_equal|].
  - f_equal. apply hide_duplicates_ext. intros o _. apply overrides_test, Hm.
  - f_equal. f_equal. unfold live_objects. apply filter_ext. intros o. apply overrides_test, Hm.
Qed.

Lemma hide_linked_duplicates_eval d :
  exists t,
    hide_linked_duplicates (object_refs d) d =
    (t, set_objects (hide_duplicates (linked_duplicate d) (objects d)) d,
     Ok (Object.name <$> List.filter (linked_duplicate d) (live_objects d))) /\
    raised t = [].
Proof.
  unfold hide_linked_duplicates.
  destruct (overrides_eval (object_refs d) d (object_refs_live d)) as (m & Em & Hm).
  rewrite (bind_eval _ _ _ _ _ _ Em), after_nil.
  destruct (hide_duplicates_loop m (objects d) [] [] d eq_refl) as (t & E & R).
  exists t. split; [|exact R]. unfold object_refs. cbn [length app] in E. rewrite E.
  f_equal; [f_equal|].
  - f_equal. apply hide_duplicates_ext. intros o _. apply overrides_test, Hm.
  - f_equal. f_equal. unfold live_objects. apply filter_ext. intros o. apply overrides_test, Hm.
Qed.

Lemma hide_duplicates_at test d r :
  obj_at (set_objects (hide_duplicates test (objects d)) d) r =
  (fun o => if test o then hide_object o else o) <$> obj_at d r.
Proof.
  unfold obj_at, hide_duplicates. cbn [objects set_objects]. rewrite list_lookup_fmap.
  destruct (objects d !! r) as [[o|]|]; reflexivity.
Qed.

(** Once the linked duplicates are hidden, the references are still live,
    and an object is visible in the viewport if it was and is no duplicate. *)
Lemma visible_after_hiding d :
  let d' := set_objects (hide_duplicates (linked_duplicate d) (objects d)) d in
  Forall (live d') (object_refs d) /\
  List.filter (holds d' (fun obj => negb (Object.hide_viewport obj))) (object_refs d) =
  List.filter (holds d (fun o => negb (Object.hide_viewport o) && negb (linked_duplicate d o)))
    (object_refs d).
Proof.
  intros d'. split.
  - apply Forall_forall. intros r Hr. apply object_refs_spec in Hr as [o Ho].
    unfold live, d'. rewrite hide_duplicates_at, Ho. eexists. reflexivity.
  - apply filter_ext_in. intros r Hr. apply list_elem_of_In, object_refs_spec in Hr as [o Ho].
    unfold holds, d'. rewrite hide_duplicates_at, Ho. cbn.
    destruct (linked_duplicate d o); cbn; [rewrite andb_false_r | rewrite andb_true_r];
      reflexivity.
Qed.

(** ** No access to a removed object *)

Lemma raised_sound t : raised t = [] -> Forall sound t.
Proof.
  intros H. apply Forall_forall. intros ev Hin. destruct ev; try exact I.
  apply list_elem_of_In in Hin. eapply no_failure; [exact H | exact Hin | reflexivity].
Qed.

Section Hoare.

Lemma hoare_sound {A} P (m : M A) Q d : hoare P m Q -> P d -> Forall sound (trace (m d)).
Proof. intros H Hd. apply H, Hd. Qed.

Lemma hoare_drop {A} P (m : M A) Q : hoare P m Q -> hoare P m (fun _ _ => True).
Proof. intros H d Hd. split; [apply H, Hd | auto]. Qed.

Lemma hoare_pre {A} (P P' : Data -> Prop) (m : M A) Q :
  (forall d, P d -> P' d) -> hoare P' m Q -> hoare P m Q.
Proof. intros HP H d Hd. apply H, HP, Hd. Qed.

Lemma hoare_fact {A} (F : Prop) (P : Data -> Prop) (m : M A) Q :
  (F -> hoare P m Q) -> hoare (fun d => F /\ P d) m Q.
Proof. intros H d [HF Hd]. apply (H HF), Hd. Qed.

Lemma hoare_bind {A B} P (m : M A) Q (k : A -> M B) R :
  hoare P m Q -> (forall a, hoare (Q a) (k a) R) -> hoare P (m ≫= k) R.
Proof.
  intros Hm Hk d Hd. destruct (Hm d Hd) as [Hs Hq]. rewrite bind_unfold.
  destruct (m d) as [[t1 d1] [a|s]] eqn:E.
  - specialize (Hq _ _ _ eq_refl). destruct (Hk a d1 Hq) as [Hs2 Hr].
    split; [rewrite trace_after; apply Forall_app; split; assumption|].
    intros t d' b Eb. destruct (k a d1) as [[t2 d2] r]. unfold after in Eb. cbn in Eb.
    injection Eb as <- <- ->. eapply Hr. reflexivity.
  - split; [exact Hs | discriminate].
Qed.

(** A statement that leaves the data alone and accesses no attribute. *)
Lemma hoare_frame {A} P (m : M A) :
  (forall d, Forall sound (trace (m d)) /\ (m d).1.2 = d) -> hoare P m (fun _ d => P d).
Proof.
  intros H d Hd. destruct (H d) as [Hs Hst]. split; [exact Hs|].
  intros t d' a E. rewrite E in Hst. cbn in Hst. subst d'. exact Hd.
Qed.

Lemma hoare_ret {A} P (a : A) : hoare P (mret a) (fun _ d => P d).
Proof. apply hoare_frame. intros d. split; [constructor | reflexivity]. Qed.

Lemma hoare_gets {A} P (f : Data -> A) : hoare P (gets f) (fun _ d => P d).
Proof. apply hoare_frame. intros d. split; [constructor | reflexivity]. Qed.

Lemma hoare_throw {A} P s Q : hoare P (@throw A s) Q.
Proof. intros d _. split; [constructor | discriminate]. Qed.

Lemma hoare_emit P ev : sound ev -> hoare P (emit ev) (fun _ d => P d).
Proof. intros H. apply hoare_frame. intros d. split; [repeat constructor; exact H | reflexivity]. Qed.

Lemma hoare_for_each {X B} (I : Data -> Prop) (xs : list X) (body : B -> X -> M B) acc :
  (forall acc x, In x xs -> hoare I (body acc x) (fun _ d => I d)) ->
  hoare I (for_each xs body acc) (fun _ d => I d).
Proof.
  revert acc. induction xs as [|x xs IH]; intros acc Hb; cbn [for_each].
  - apply hoare_ret.
  - eapply hoare_bind; [apply Hb; left; reflexivity|].
    intros acc'. apply IH. intros acc'' y Hy. apply Hb. right. exact Hy.
Qed.

Lemma hoare_try {A} P (m : M A) clauses Q :
  hoare P m Q -> (forall s, hoare (fun _ => True) (handler clauses s) Q) ->
  hoare P (try m clauses) Q.
Proof.
  intros Hm Hh d Hd. destruct (Hm d Hd) as [Hs Hq]. unfold try.
  destruct (m d) as [[t1 d1] [a|s]]; [split; assumption|].
  destruct (Hh s d1 I) as [Hs2 Hq2]. destruct (handler clauses s d1) as [[t2 d2] r].
  split; [apply Forall_app; split; assumption|].
  intros t d' a [= <- <- ->]. eapply Hq2. reflexivity.
Qed.

Lemma hoare_handler {A} P (clauses : list ((exn -> bool) * (exn -> M A))) s Q :
  (forall e, hoare P (first_clause clauses e) Q) -> hoare P (handler clauses s) Q.
Proof. intros H. destruct s as [e|c]; [apply H | apply hoare_throw]. Qed.

Lemma hoare_first_clause_nil {A} P e Q : hoare P (@first_clause A [] e) Q.
Proof. apply hoare_throw. Qed.

Lemma hoare_first_clause_cons {A} P c (h : exn -> M A) rest e Q :
  hoare P (h e) Q -> hoare P (first_clause rest e) Q ->
  hoare P (first_clause ((c, h) :: rest) e) Q.
Proof. intros H1 H2. cbn [first_clause]. destruct (c e); assumption. Qed.

(** *** Live references *)

Lemma alive_nil d : alive [] d.
Proof. constructor. Qed.

Lemma alive_incl xs ys d : incl ys xs -> alive xs d -> alive ys d.
Proof.
  intros H Hx. apply Forall_forall. intros r Hr. unfold alive in Hx.
  rewrite Forall_forall in Hx. apply Hx, list_elem_of_In, H, list_elem_of_In, Hr.
Qed.

Lemma alive_In xs r d : In r xs -> alive xs d -> live d r.
Proof.
  intros Hr Hx. unfold alive in Hx. rewrite Forall_forall in Hx.
  apply Hx, list_elem_of_In, Hr.
Qed.

Lemma hoare_deref xs r : In r xs -> hoare (alive xs) (deref r) (fun _ d => alive xs d).
Proof.
  intros Hr. apply hoare_pre with (P' := fun d => live d r /\ alive xs d).
  { intros d Hd. split; [eapply alive_In; eassumption | exact Hd]. }
  intros d [[o Ho] Hd]. rewrite (deref_live _ _ _ Ho). split; [constructor|].
  intros t d' a [= <- <- <-]. exact Hd.
Qed.

Lemma live_insert d r o r' :
  live d r' -> live d r -> live (set_objects (<[r := Some o]> (objects d)) d) r'.
Proof.
  unfold live, obj_at. cbn [objects set_objects]. intros H' H.
  destruct (decide (r = r')) as [<-|Hne].
  - rewrite list_lookup_insert_eq; [eexists; reflexivity|].
    destruct (objects d !! r) eqn:E; [eapply lookup_lt_Some, E | destruct H; discriminate].
  - rewrite list_lookup_insert_ne by exact Hne. exact H'.
Qed.

Lemma hoare_setattr_object xs r a v :
  In r xs -> hoare (alive xs) (setattr_object r a v) (fun _ d => alive xs d).
Proof.
  intros Hr d Hd. pose proof (alive_In _ _ _ Hr Hd) as Hl. destruct (Hl) as [o Ho].
  unfold setattr_object. rewrite Ho. split; [repeat constructor|].
  intros t d' x [= <- <- <-]. unfold alive in *. eapply Forall_impl; [exact Hd|].
  intros r' Hr'. apply live_insert; assumption.
Qed.

Lemma hoare_filter_refs xs cond ys :
  incl ys xs ->
  hoare (alive xs) (filter_refs cond ys) (fun a d => incl a ys /\ alive xs d).
Proof.
  intros Hi d Hd. rewrite (filter_refs_live cond ys d) by (eapply alive_incl; eassumption).
  split; [constructor|]. intros t d' a [= <- <- <-]. split; [|exact Hd].
  intros r Hr. apply filter_In in Hr as [Hr _]. exact Hr.
Qed.

Lemma hoare_object_refs P : hoare P (gets object_refs) (fun a d => alive a d).
Proof.
  intros d _. split; [constructor|]. intros t d' a [= <- <- <-]. apply object_refs_live.
Qed.

Lemma hoare_select_objects P cond :
  hoare P (select_objects cond)
    (fun a d => Forall (fun r => holds d cond r = true) a).
Proof.
  intros d _. rewrite select_objects_eval. split; [constructor|].
  intros t d' a [= <- <- <-]. apply Forall_forall. intros r Hr.
  apply list_elem_of_In, filter_In in Hr as [_ Hr]. exact Hr.
Qed.

Lemma hoare_print_linked xs u r :
  In r xs -> hoare (all_linked xs) (RtScene.print_linked u r) (fun _ d => all_linked xs d).
Proof.
  intros Hr d Hd. pose proof Hd as Hx. unfold all_linked in Hx. rewrite Forall_forall in Hx.
  specialize (Hx r (proj2 (list_elem_of_In _ _) Hr)). unfold holds in Hx.
  destruct (obj_at d r) as [o|] eqn:Ho; [|discriminate]. cbn in Hx. unfold is_linked in Hx.
  destruct (Object.library o) as [l|] eqn:Hl; [|discriminate].
  unfold RtScene.print_linked. rewrite (bind_eval _ _ _ _ _ _ (deref_live _ _ _ Ho)).
  unfold RtScene.library_filepath. rewrite Hl.
  split; [repeat constructor|]. intros t d' a [= <- <- <-]. exact Hd.
Qed.

Lemma all_linked_take n (xs : list nat) r : In r (take n xs) -> In r xs.
Proof.
  intros H. rewrite <- (take_drop n xs). apply in_or_app. left. exact H.
Qed.

(** *** Steps with a closed form *)

Lemma alive_set_collections xs cs d : alive xs d -> alive xs (set_collections cs d).
Proof. intros H. exact H. Qed.

Lemma hoare_env_hide host xs :
  hoare (alive xs) (Env.hide_working_collections host) (fun _ d => alive xs d).
Proof.
  intros d Hd. destruct (env_hide_eval host d) as (t & names & E & R). rewrite E.
  split; [apply raised_sound, R|]. intros t' d' a [= <- <- <-].
  apply alive_set_collections, Hd.
Qed.

Lemma hoare_rt_hide xs :
  hoare (alive xs) RtScene.hide_working_collections (fun _ d => alive xs d).
Proof.
  intros d Hd. destruct (rt_hide_eval d) as (t & n & E & R). rewrite E.
  split; [apply raised_sound, R|]. intros t' d' a [= <- <- <-].
  apply alive_set_collections, Hd.
Qed.

Lemma hoare_remove_orphans P : hoare P RtScene.remove_orphans (fun _ d => alive [] d).
Proof.
  intros d _. destruct (remove_orphans_eval d) as (t & n & E & R). rewrite E.
  split; [apply raised_sound, R|]. intros. apply alive_nil.
Qed.

Lemma hoare_print_actions P n : hoare P (print_actions n) (fun _ d => P d).
Proof.
  apply hoare_frame. intros d. rewrite print_actions_eval. split; [|reflexivity].
  apply Forall_fmap, Forall_forall. intros a _. exact I.
Qed.

(** *** Calls into the host *)

Context (host : Host).

Lemma hoare_read_homefile P :
  hoare P (bpy_ops_wm_read_homefile host) (fun _ d => alive [] d).
Proof.
  intros d _. unfold bpy_ops_wm_read_homefile. destruct (read_homefile host);
    (split; [repeat constructor | intros; apply alive_nil]).
Qed.

Lemma hoare_open_mainfile P p :
  hoare P (bpy_ops_wm_open_mainfile host p) (fun _ d => alive [] d).
Proof.
  intros d _. unfold bpy_ops_wm_open_mainfile. destruct (open_mainfile host p);
    (split; [repeat constructor | intros; apply alive_nil]).
Qed.

Lemma hoare_export_gltf P kw :
  hoare P (bpy_ops_export_scene_gltf host kw) (fun _ d => P d).
Proof.
  apply hoare_frame. intros d. unfold bpy_ops_export_scene_gltf.
  destruct (export_gltf host kw d); (split; [repeat constructor | reflexivity]).
Qed.

Lemma hoare_makedirs P p : hoare P (os_makedirs host p) (fun _ d => P d).
Proof.
  apply hoare_frame. intros d. unfold os_makedirs.
  destruct (makedirs host p); (split; [repeat constructor | reflexivity]).
Qed.

Lemma hoare_getsize P p : hoare P (os_path_getsize host p) (fun _ d => P d).
Proof.
  apply hoare_frame. intros d. unfold os_path_getsize.
  destruct (getsize host p); (split; [repeat constructor | reflexivity]).
Qed.

Lemma hoare_path_exists P p : hoare P (os_path_exists host p) (fun _ d => P d).
Proof. apply hoare_ret. Qed.

End Hoare.

Ltac hoare_side :=
  lazymatch goal with
  | |- incl ?xs ?xs => apply incl_refl
  | |- incl _ _ => first [assumption | eapply incl_tran; eassumption]
  | |- In _ _ =>
      first [ assumption
            | match goal with
              | H : incl ?ys _, Hx : In ?r ?ys |- In ?r _ => exact (H r Hx)
              | Hx : In ?r (take _ _) |- In ?r _ => exact (all_linked_take _ _ _ Hx)
              end ]
  end.

Ltac hoare_leaf rule := first [ rule | eapply hoare_drop; rule ].

Ltac hoare_tac :=
  cbv beta;
  lazymatch goal with
  | |- hoare _ (_ ≫= _) _ =>
      eapply hoare_bind;
      [ hoare_tac | intros ?; cbv beta; try (apply hoare_fact; intros ?); hoare_tac ]
  | |- hoare _ (mret _) _ => hoare_leaf ltac:(apply hoare_ret)
  | |- hoare _ (ret _) _ => hoare_leaf ltac:(apply hoare_ret)
  | |- hoare _ (gets object_refs) _ => hoare_leaf ltac:(apply hoare_object_refs)
  | |- hoare _ (gets _) _ => hoare_leaf ltac:(apply hoare_gets)
  | |- hoare _ (throw _) _ => apply hoare_throw
  | |- hoare _ (sys_exit _) _ => apply hoare_throw
  | |- hoare _ (print _) _ => hoare_leaf ltac:(apply hoare_emit; exact I)
  | |- hoare _ (emit _) _ => hoare_leaf ltac:(apply hoare_emit; exact I)
  | |- hoare _ (RtScene.print_linked _ _) _ =>
      hoare_leaf ltac:(apply hoare_print_linked; hoare_side)
  | |- hoare _ (deref _) _ => hoare_leaf ltac:(eapply hoare_deref; hoare_side)
  | |- hoare _ (setattr_object _ _ _) _ =>
      hoare_leaf ltac:(eapply hoare_setattr_object; hoare_side)
  | |- hoare _ (filter_refs _ _) _ =>
      hoare_leaf ltac:(eapply hoare_filter_refs; hoare_side)
  | |- hoare _ (select_objects _) _ => hoare_leaf ltac:(apply hoare_select_objects)
  | |- hoare _ (print_actions _) _ => hoare_leaf ltac:(apply hoare_print_actions)
  | |- hoare _ (Env.hide_working_collections _) _ => hoare_leaf ltac:(apply hoare_env_hide)
  | |- hoare _ RtScene.hide_working_collections _ => hoare_leaf ltac:(apply hoare_rt_hide)
  | |- hoare _ RtScene.remove_orphans _ => hoare_leaf ltac:(apply hoare_remove_orphans)
  | |- hoare _ (for_each _ _ _) _ =>
      hoare_leaf ltac:(apply hoare_for_each; intros ? ? ?; hoare_tac)
  | |- hoare _ (try _ _) _ => apply hoare_try; [hoare_tac | intros ?; hoare_tac]
  | |- hoare _ (handler _ _) _ => apply hoare_handler; intros ?; hoare_tac
  | |- hoare _ (first_clause [] _) _ => apply hoare_first_clause_nil
  | |- hoare _ (first_clause (_ :: _) _) _ =>
      apply hoare_first_clause_cons; [hoare_tac | hoare_tac]
  | |- hoare _ (bpy_ops_wm_read_homefile _) _ => hoare_leaf ltac:(apply hoare_read_homefile)
  | |- hoare _ (bpy_ops_wm_open_mainfile _ _) _ => hoare_leaf ltac:(apply hoare_open_mainfile)
  | |- hoare _ (bpy_ops_export_scene_gltf _ _) _ => hoare_leaf ltac:(apply hoare_export_gltf)
  | |- hoare _ (os_path_exists _ _) _ => hoare_leaf ltac:(apply hoare_path_exists)
  | |- hoare _ (os_makedirs _ _) _ => hoare_leaf ltac:(apply hoare_makedirs)
  | |- hoare _ (os_path_getsize _ _) _ => hoare_leaf ltac:(apply hoare_getsize)
  | |- hoare _ (if ?b then _ else _) _ => destruct b; hoare_tac
  | |- hoare _ (match ?x with _ => _ end) _ => destruct x; hoare_tac
  | |- hoare _ (let _ := _ in _) _ => cbv zeta; hoare_tac
  | |- hoare _ ?m _ => let h := head_of m in unfold h; hoare_tac
  end.

Lemma env_hoare host : hoare (fun _ => True) (Env.main host) (fun _ _ => True).
Proof. hoare_tac. Qed.

Lemma char_hoare host : hoare (fun _ => True) (Char.main host) (fun _ _ => True).
Proof. hoare_tac. Qed.

Lemma rt_hoare host : hoare (fun _ => True) (RtScene.main host) (fun _ _ => True).
Proof. hoare_tac. Qed.

(** ** The summaries of successful runs *)

Lemma passes_at {A} pat (m : M A) d T t d' a :
  passes pat m -> after T (m d) = (t, d', Ok a) -> exists t', t = T ++ t' /\ sublist pat t'.
Proof.
  intros Hm E. destruct (m d) as [[t1 d1] r] eqn:Em. unfold after in E. cbn in E.
  injection E as <- <- ->. exists t1. split; [reflexivity|]. eapply Hm, Em.
Qed.

Lemma env_success host f d t d' a :
  open_mainfile host Env.ENV_FILE = inr f ->
  Env.export_environment host d = (t, d', Ok a) ->
  sublist
    [ Print (will_export_line (f_objects f));
      ExportGltf Env.gltf_options None;
      Print ("   - " +:+ pretty (count_type "MESH" (List.filter shown (f_objects f))) +:+
             " mesh(es)");
      Print ("   - " +:+ pretty (count_type "LIGHT" (f_objects f)) +:+ " light(s)") ] t.
Proof.
  intros Hopen. unfold Env.export_environment. do 4 eval_print.
  rewrite (bind_eval _ _ d _ _ _ (env_open_ok host f d Hopen _)). cbv beta.
  eval_print. eval_gets.
  do 3 eval_filter_refs (object_refs_live (load f)).
  do 3 eval_print.
  assert (exists t1, forall (k : unit -> M unit),
            ((if length (List.filter (holds (load f) (fun obj => Object.type obj =? "MESH")%string)
                           (object_refs (load f))) =? 0 then
                print (nl +:+ "   ⚠️ WARNING: No meshes found!");;
                print "   This might be normal if environment is in collections."
              else mret tt) ≫= k) (load f) = after t1 (k tt (load f))) as [t1 H1].
  { destruct (_ =? 0).
    - eexists. intros k. rewrite bind_unfold. reflexivity.
    - exists []. intros k. rewrite bind_unfold. reflexivity. }
  rewrite H1. clear H1. eval_print.
  destruct (env_hide_eval host (load f)) as (t2 & names & E2 & _).
  rewrite (bind_eval _ _ _ _ _ _ E2). cbv beta.
  set (d1 := set_collections _ (load f)) in *.
  assert (exists t3, forall (k : unit -> M unit),
            ((if negb (bool_decide (names = [])) then
                print ("   ✓ Hidden " +:+ pretty (length names) +:+ " working collection(s)")
              else mret tt) ≫= k) d1 = after t3 (k tt d1)) as [t3 H3].
  { destruct (negb (bool_decide (names = []))).
    - eexists. intros k. rewrite bind_unfold. reflexivity.
    - exists []. intros k. rewrite bind_unfold. reflexivity. }
  rewrite H3. clear H3.
  assert (Forall (live d1) (object_refs (load f))) as Hlive by exact (object_refs_live (load f)).
  eval_filter_refs Hlive.
  eval_filter_refs (Forall_filter_live d1 (holds d1 (fun obj => negb (Object.hide_viewport obj) &&
                                                       negb (Object.hide_render obj)))
                      _ Hlive).
  eval_print. rewrite !after_after.
  assert (forall c, holds d1 c = holds (load f) c) as Hd1 by reflexivity.
  rewrite !filter_twice, !Hd1.
  rewrite !(filter_ext_length _ _ _ (fun r => eq_sym (holds_and (load f) _ _ r))).
  rewrite !count_object_refs, live_objects_load.
  intros E. eapply passes_at in E as (t' & -> & Hsub).
  2:{ instantiate (1 := [ ExportGltf Env.gltf_options None;
                          Print ("   - " +:+ pretty (length (List.filter _ (f_objects f))) +:+
                                 " mesh(es)");
                          Print ("   - " +:+ pretty (length (List.filter _ (f_objects f))) +:+
                                 " light(s)") ]).
      passes_tac. }
  unfold will_export_line, count_type, shown. rewrite !filter_twice.
  apply (sublist_app [_] _ _ _); [apply sublist_inserts_l; reflexivity | exact Hsub].
Qed.

Lemma char_success host f d t d' a :
  open_mainfile host Char.CHAR_FILE = inr f ->
  Char.export_character host d = (t, d', Ok a) ->
  sublist
    [ ExportGltf Char.gltf_options None;
      Print ("   - " +:+ pretty (length (List.filter skinned (f_objects f))) +:+
             " skinned mesh(es)");
      Print ("   - " +:+ pretty (count_type "ARMATURE" (f_objects f)) +:+ " armature(s)") ] t.
Proof.
  intros Hopen. unfold Char.export_character.
  do 4 eval_print.
  rewrite (bind_eval (bpy_ops_wm_open_mainfile host Char.CHAR_FILE) _ d
             [OpenMainfile Char.CHAR_FILE None] (load f) tt)
    by (unfold bpy_ops_wm_open_mainfile; rewrite Hopen; reflexivity).
  cbv beta. do 2 eval_print. eval_select. eval_print. eval_select. eval_print.
  eval_gets. eval_print.
  rewrite !count_object_refs, live_objects_load.
  rewrite !(filter_ext_length _ _ _ char_is_skinned).
  change (actions (load f)) with (f_actions f).
  rewrite !after_after.
  intros E. eapply passes_at in E as (t' & -> & Hsub).
  2:{ instantiate (1 := [ ExportGltf Char.gltf_options None;
                          Print ("   - " +:+ pretty (length (List.filter skinned (f_objects f))) +:+
                                 " skinned mesh(es)");
                          Print ("   - " +:+ pretty (count_type "ARMATURE" (f_objects f)) +:+
                                 " armature(s)") ]).
      passes_tac. }
  apply sublist_inserts_l, Hsub.
Qed.


(** ** The report on linked data *)

Lemma omap_obj_at_filter d cond refs :
  omap (obj_at d) (List.filter (holds d cond) refs) = List.filter cond (omap (obj_at d) refs).
Proof.
  induction refs as [|r refs IH]; [reflexivity|]. cbn [List.filter omap list_omap].
  unfold holds at 1. destruct (obj_at d r) as [o|] eqn:Ho; cbn [from_option].
  - cbn [List.filter]. destruct (cond o); [cbn [omap list_omap]; rewrite Ho|]; rewrite IH;
      reflexivity.
  - exact IH.
Qed.

Lemma omap_obj_at_live cells : forall pre d,
  objects d = pre ++ cells ->
  omap (obj_at d) (live_from (length pre) cells) = omap id cells.
Proof.
  induction cells as [|c cells IH]; intros pre d E; [reflexivity|].
  assert (objects d = (pre ++ [c]) ++ cells) as E' by (rewrite <- app_assoc; exact E).
  specialize (IH _ _ E'). rewrite length_app, Nat.add_1_r in IH.
  destruct c as [o|]; cbn [live_from]; [|exact IH].
  cbn [omap list_omap].
  assert (obj_at d (length pre) = Some o) as ->.
  { unfold obj_at. rewrite E, lookup_app_r, Nat.sub_diag by lia. reflexivity. }
  rewrite IH. reflexivity.
Qed.

Lemma omap_take {X Y} (f : X -> option Y) n l :
  Forall (fun x => is_Some (f x)) l -> omap f (take n l) = take n (omap f l).
Proof.
  intros H. revert n. induction H as [|x l [y Hy] _ IH]; intros [|n]; try reflexivity.
  change (omap f (x :: take n l) = take (S n) (omap f (x :: l))).
  cbn [omap list_omap]. rewrite Hy. cbn [take]. rewrite IH. reflexivity.
Qed.

Lemma print_linked_loop d refs :
  all_linked refs d ->
  for_each refs RtScene.print_linked tt d = (omap linked_line (omap (obj_at d) refs), d, Ok tt).
Proof.
  induction 1 as [|r refs Hr _ IH]; [reflexivity|].
  unfold holds in Hr. destruct (obj_at d r) as [o|] eqn:Ho; [|discriminate]. cbn in Hr.
  unfold is_linked in Hr. destruct (Object.library o) as [l|] eqn:Hl; [|discriminate].
  assert (omap linked_line (omap (obj_at d) (r :: refs)) =
          Print ("      - " +:+ Object.name o +:+ " (from " +:+
                 basename (lib_filepath l) +:+ ")") ::
          omap linked_line (omap (obj_at d) refs)) as ->.
  { cbn [omap list_omap]. rewrite Ho. cbn [omap list_omap]. unfold linked_line at 1.
    rewrite Hl. reflexivity. }
  cbn [for_each].
  assert (RtScene.print_linked tt r d =
          ([Print ("      - " +:+ Object.name o +:+ " (from " +:+
                   basename (lib_filepath l) +:+ ")")], d, Ok tt)) as Eb.
  { unfold RtScene.print_linked. rewrite (bind_eval _ _ _ _ _ _ (deref_live _ _ _ Ho)).
    unfold RtScene.library_filepath. rewrite Hl. reflexivity. }
  rewrite (bind_eval _ _ _ _ _ _ Eb), IH. reflexivity.
Qed.

Lemma try_after {A} (m : M A) clauses d T x :
  m d = after T x -> exists t2, trace (try m clauses d) = T ++ t2.
Proof.
  intros E. unfold try. rewrite E. destruct x as [[t d1] [a|s]]; unfold after; cbn [fst snd].
  - eauto.
  - destruct (handler clauses s d1) as [[t3 d3] r]. cbn [trace fst snd].
    rewrite <- app_assoc. eauto.
Qed.

(** A statement that prints and leaves the data alone. *)
Lemma branch_eval (b : bool) (m1 m2 : M unit) d :
  (exists t1, m1 d = (t1, d, Ok tt)) -> (exists t2, m2 d = (t2, d, Ok tt)) ->
  exists t, forall (k : unit -> M unit),
    ((if b then m1 else m2) ≫= k) d = after t (k tt d).
Proof.
  intros [t1 E1] [t2 E2]. destruct b; eexists; intros k; rewrite bind_unfold;
    [rewrite E1 | rewrite E2]; reflexivity.
Qed.

Lemma linked_block_eval f cs (k : unit -> M unit) :
  let d1 := set_collections cs (load f) in
  let L := List.filter (holds d1 (is_linked Object.library)) (object_refs d1) in
  ((if negb (bool_decide (L = [])) then
      print ("   Found " +:+ pretty (length L) +:+ " linked objects");;
      print ("   Found " +:+
             pretty (length (List.filter (is_linked db_library) (meshes d1))) +:+
             " linked meshes");;
      print ("   Found " +:+
             pretty (length (List.filter (is_linked db_library) (cameras d1))) +:+
             " linked cameras");;
      print ("   Found " +:+
             pretty (length (List.filter (is_linked db_library) (lights d1))) +:+
             " linked lights");;
      print ("   Found " +:+
             pretty (length (List.filter (is_linked db_library) (armatures d1))) +:+
             " linked armatures");;
      for_each (take 5 L) RtScene.print_linked tt;;
      (if 5 <? length L then
         print ("      ... and " +:+ pretty (length L - 5) +:+ " more")
       else mret tt);;
      print (nl +:+ "   ✓ Library-linked data will be exported directly (no localization needed)")
    else
      print "   ⚠️ WARNING: No linked objects found!";;
      print "   Your RT_SCENE file might not have linked collections.";;
      print "   The export will continue but may not include character.") ≫= k) d1 =
  after (if bool_decide (List.filter (is_linked Object.library) (f_objects f) = [])
         then no_linked_report else linked_report f)
        (k tt d1).
Proof.
  intros d1 L. set (Lobj := List.filter (is_linked Object.library) (f_objects f)).
  assert (omap (obj_at d1) L = Lobj) as HL.
  { unfold L, Lobj. rewrite omap_obj_at_filter. f_equal.
    etrans; [exact (omap_obj_at_live (objects d1) [] d1 eq_refl)|].
    exact (live_objects_load f). }
  assert (all_linked L d1) as Hall.
  { apply Forall_forall. intros r Hr. apply list_elem_of_In, filter_In in Hr as [_ Hr].
    exact Hr. }
  assert (Forall (fun r => is_Some (obj_at d1 r)) L) as Hlive.
  { eapply Forall_impl; [exact Hall|]. intros r Hr. unfold holds in Hr.
    destruct (obj_at d1 r); [eauto | discriminate]. }
  assert (length L = length Lobj) as Hlen.
  { rewrite <- HL. clear -Hlive. induction Hlive as [|r L [o Ho] _ IH]; [reflexivity|].
    cbn [omap list_omap]. rewrite Ho. cbn [length]. rewrite IH. reflexivity. }
  destruct (decide (L = [])) as [EL|EL].
  - assert (Lobj = []) as ELobj by (apply length_zero_iff_nil; rewrite <- Hlen, EL; reflexivity).
    rewrite (bool_decide_eq_true_2 _ EL), (bool_decide_eq_true_2 _ ELobj).
    cbn [negb]. rewrite bind_unfold. reflexivity.
  - assert (Lobj <> []) as ELobj.
    { intros E. apply EL, length_zero_iff_nil. rewrite Hlen, E. reflexivity. }
    rewrite (bool_decide_eq_false_2 _ EL), (bool_decide_eq_false_2 _ ELobj). cbn [negb].
    assert (for_each (take 5 L) RtScene.print_linked tt d1 =
            (omap linked_line (take 5 Lobj), d1, Ok tt)) as Eloop.
    { rewrite print_linked_loop by (apply Forall_take, Hall).
      rewrite omap_take by exact Hlive. rewrite HL. reflexivity. }
    rewrite bind_unfold.
    do 5 eval_print. rewrite (bind_eval _ _ _ _ _ _ Eloop). cbv beta.
    unfold linked_report. fold Lobj. rewrite Hlen.
    destruct (5 <? length Lobj).
    + eval_print. unfold print, emit, after. cbn [fst snd]. reflexivity.
    + rewrite (bind_eval (mret tt) _ d1 [] d1 tt eq_refl). cbv beta.
      unfold print, emit, after. cbn [fst snd]. reflexivity.
Qed.

(** The run up to the report on linked data. *)
Lemma rt_linked_block host f0 f d :
  read_homefile host = inr f0 ->
  path_exists host RtScene.RT_SCENE_FILE = true ->
  open_mainfile host RtScene.RT_SCENE_FILE = inr f ->
  exists t1 x,
    RtScene.export_rt_scene host d =
    after (t1 ++ [Print (nl +:+ "2. Processing linked data...")] ++
           (if bool_decide (List.filter (is_linked Object.library) (f_objects f) = [])
            then no_linked_report else linked_report f)) x.
Proof.
  intros Hhome Hexists Hopen. unfold RtScene.export_rt_scene. do 3 eval_print.
  rewrite (bind_eval (bpy_ops_wm_read_homefile host) _ d [ReadHomefile None] (load f0) tt)
    by (unfold bpy_ops_wm_read_homefile; rewrite Hhome; reflexivity).
  cbv beta. eval_print.
  rewrite (bind_eval (os_path_exists host RtScene.RT_SCENE_FILE) _ _ [] (load f0) true)
    by (unfold os_path_exists; rewrite Hexists; reflexivity).
  cbv beta. cbn [negb].
  rewrite (bind_eval (mret tt) _ (load f0) [] (load f0) tt eq_refl). cbv beta.
  rewrite (bind_eval (bpy_ops_wm_open_mainfile host RtScene.RT_SCENE_FILE) _ _
             [OpenMainfile RtScene.RT_SCENE_FILE None] (load f) tt)
    by (unfold bpy_ops_wm_open_mainfile; rewrite Hopen; reflexivity).
  cbv beta. eval_print.
  destruct (rt_hide_eval (load f)) as (t2 & n & E2 & _).
  rewrite (bind_eval _ _ _ _ _ _ E2). cbv beta.
  destruct (branch_eval (n =? 0)
              (print "      (No 'Working' collections found)")
              (print ("      ✓ Hidden " +:+ pretty n +:+ " 'Working' collection(s)"))
              (set_collections
                 ((fun c => if contains "Working" (Collection.name c) then hidden c else c)
                    <$> collections (load f)) (load f)))
    as [t3 H3]; [eexists; reflexivity..|].
  rewrite H3. clear H3. eval_print. eval_select. do 4 eval_gets.
  rewrite linked_block_eval, !after_after.
  exists ([ Print (nl +:+ str_mul "=" 60); Print "RT_SCENE Export Script"; Print (str_mul "=" 60);
            ReadHomefile None;
            Print (nl +:+ "1. Loading RT_SCENE: " +:+ RtScene.RT_SCENE_FILE);
            OpenMainfile RtScene.RT_SCENE_FILE None;
            Print (nl +:+ "   Hiding 'Working' collections to avoid duplicates...") ] ++
          t2 ++ t3).
  eexists. f_equal. rewrite !app_nil_r, <- !app_assoc. reflexivity.
Qed.

(** ** The counts of export_rt_scene.py *)

Lemma print_skinned_loop d refs :
  Forall (live d) refs ->
  forall i, exists t, for_each refs RtScene.print_skinned i d = (t, d, Ok (i + length refs)).
Proof.
  induction 1 as [|r refs [o Ho] _ IH]; intros i.
  - exists []. cbn. rewrite Nat.add_0_r. reflexivity.
  - cbn [for_each length]. destruct (IH (i + 1)) as [t Et].
    assert (exists t1, RtScene.print_skinned i r d = (t1, d, Ok (i + 1))) as [t1 E1].
    { unfold RtScene.print_skinned. rewrite (bind_eval _ _ _ _ _ _ (deref_live _ _ _ Ho)).
      eexists. reflexivity. }
    rewrite (bind_eval _ _ _ _ _ _ E1), Et. eexists. unfold after. cbn [fst snd].
    f_equal. f_equal. lia.
Qed.

Lemma live_objects_sweep names d0 (objs : list Object.t) :
  omap id (sweep names d0 (Some <$> objs)) =
  List.filter (fun o => negb (orphan names d0 o)) objs.
Proof.
  induction objs as [|o objs IH]; [reflexivity|].
  change (Some <$> o :: objs) with (Some o :: (Some <$> objs)). rewrite sweep_cons.
  cbn [List.filter]. destruct (orphan names d0 o); cbn [negb].
  - exact IH.
  - change (omap id (Some o :: sweep names d0 (Some <$> objs)))
      with (o :: omap id (sweep names d0 (Some <$> objs))).
    rewrite IH. reflexivity.
Qed.

Lemma filter_filter_length {X} (a b c : X -> bool) (l : list X) :
  (forall x, c x = a x && b x) ->
  length (List.filter c l) = length (List.filter b (List.filter a l)).
Proof.
  intros H. induction l as [|x l IH]; [reflexivity|]. cbn [List.filter]. rewrite H.
  destruct (a x); cbn [andb List.filter]; [|exact IH].
  destruct (b x); cbn [length]; congruence.
Qed.

Lemma rt_is_skinned o : RtScene.is_skinned_mesh o = in_viewport o && skinned o.
Proof.
  unfold RtScene.is_skinned_mesh, in_viewport, skinned, has_armature_modifier.
  destruct (Object.modifiers o) as [|m ms].
  - rewrite bool_decide_eq_true_2 by reflexivity. cbn. rewrite !andb_false_r. reflexivity.
  - rewrite bool_decide_eq_false_2 by discriminate. cbn [negb andb].
    destruct (Object.type o =? "MESH")%string, (Object.hide_viewport o); reflexivity.
Qed.

Lemma rt_skinned_count (objs : list Object.t) :
  length (List.filter RtScene.is_skinned_mesh objs) =
  length (List.filter skinned (List.filter in_viewport objs)).
Proof. apply filter_filter_length, rt_is_skinned. Qed.

Lemma rt_visible_count ty (objs : list Object.t) :
  length (List.filter (RtScene.is_visible ty) objs) =
  count_type ty (List.filter in_viewport objs).
Proof.
  unfold count_type. apply filter_filter_length. intros o.
  unfold RtScene.is_visible, in_viewport. apply andb_comm.
Qed.

Lemma rt_counts_eval host f0 f d :
  read_homefile host = inr f0 ->
  path_exists host RtScene.RT_SCENE_FILE = true ->
  open_mainfile host RtScene.RT_SCENE_FILE = inr f ->
  exists t x,
    RtScene.export_rt_scene host d = after t x /\ sublist (rt_counts f) t /\
    forall t' d' a, x = (t', d', Ok a) -> sublist (rt_summary f) t'.
Proof.
  intros Hhome Hexists Hopen. unfold RtScene.export_rt_scene. do 3 eval_print.
  rewrite (bind_eval (bpy_ops_wm_read_homefile host) _ d [ReadHomefile None] (load f0) tt)
    by (unfold bpy_ops_wm_read_homefile; rewrite Hhome; reflexivity).
  cbv beta. eval_print.
  rewrite (bind_eval (os_path_exists host RtScene.RT_SCENE_FILE) _ _ [] (load f0) true)
    by (unfold os_path_exists; rewrite Hexists; reflexivity).
  cbv beta. cbn [negb].
  rewrite (bind_eval (mret tt) _ (load f0) [] (load f0) tt eq_refl). cbv beta.
  rewrite (bind_eval (bpy_ops_wm_open_mainfile host RtScene.RT_SCENE_FILE) _ _
             [OpenMainfile RtScene.RT_SCENE_FILE None] (load f) tt)
    by (unfold bpy_ops_wm_open_mainfile; rewrite Hopen; reflexivity).
  cbv beta. eval_print.
  destruct (rt_hide_eval (load f)) as (t2 & n & E2 & _).
  rewrite (bind_eval _ _ _ _ _ _ E2). cbv beta.
  set (d1 := set_collections _ (load f)) in *.
  destruct (branch_eval (n =? 0)
              (print "      (No 'Working' collections found)")
              (print ("      ✓ Hidden " +:+ pretty n +:+ " 'Working' collection(s)")) d1)
    as [t3 H3]; [eexists; reflexivity..|].
  rewrite H3. clear H3. eval_print. eval_select. do 4 eval_gets.
  unfold d1 at 1 2 3 4 5 6 7 8 9. rewrite linked_block_eval. fold d1.
  set (linked := if bool_decide _ then no_linked_report else linked_report f).
  do 2 eval_print.
  destruct (remove_orphans_eval d1) as (t4 & removed & E4 & _).
  rewrite (bind_eval _ _ _ _ _ _ E4). cbv beta.
  set (d3 := set_objects _ d1) in *.
  destruct (branch_eval (0 <? removed)
              (print ("      ✓ Removed " +:+ pretty removed +:+ " orphaned duplicate(s)"))
              (print "      (No duplicates found)") d3)
    as [t5 H5]; [eexists; reflexivity..|].
  rewrite H5. clear H5. eval_gets.
  pose proof (object_refs_live d3) as Hlive.
  rewrite !after_after.
  lazymatch goal with
  | |- context [after ?T _] => set (pre := T)
  end.
  clearbody pre.
  assert (live_objects d3 = kept f) as Hkept.
  { unfold kept. exact (live_objects_sweep (scene_names d1) d1 (f_objects f)). }
  eval_filter_refs Hlive. eval_print.
  set (skinned_meshes := List.filter (holds d3 RtScene.is_skinned_mesh) (object_refs d3)).
  destruct (print_skinned_loop d3 skinned_meshes (Forall_filter_live d3 _ _ Hlive) 0)
    as [ts Es].
  destruct (branch_eval (negb (bool_decide (skinned_meshes = [])))
              (for_each skinned_meshes RtScene.print_skinned 0;; mret tt) (mret tt) d3)
    as [t6 H6].
  { eexists. rewrite (bind_eval _ _ _ _ _ _ Es). reflexivity. }
  { eexists. reflexivity. }
  rewrite H6. clear H6.
  eval_filter_refs Hlive. eval_print.
  eval_filter_refs Hlive. eval_print.
  eval_filter_refs Hlive. eval_print.
  eval_gets. eval_print.
  destruct (branch_eval (negb (bool_decide (actions d3 = []))) (print_actions 3) (mret tt) d3)
    as [t7 H7].
  { eexists. apply print_actions_eval. }
  { eexists. reflexivity. }
  rewrite H7. clear H7.
  lazymatch goal with
  | |- context [((if ?b then ?m1 else ?m2) ≫= _) d3] =>
      destruct (branch_eval b m1 m2 d3) as [t8 H8]; [eexists; reflexivity..|]
  end.
  rewrite H8. clear H8.
  lazymatch goal with
  | |- context [((if ?b then ?m1 else ?m2) ≫= _) d3] =>
      destruct (branch_eval b m1 m2 d3) as [t9 H9]; [eexists; reflexivity..|]
  end.
  rewrite H9. clear H9.
  lazymatch goal with
  | |- context [((if ?b then ?m1 else ?m2) ≫= _) d3] =>
      destruct (branch_eval b m1 m2 d3) as [t10 H10]; [eexists; reflexivity..|]
  end.
  rewrite H10. clear H10. eval_print.
  destruct (overrides_eval (object_refs d3) d3 Hlive) as (ov & Eov & Hov).
  rewrite (bind_eval _ _ _ _ _ _ Eov). cbv beta.
  destruct (hide_duplicates_refs d3 ov Hov) as (t11 & E11).
  rewrite (bind_eval _ _ _ _ _ _ E11). cbv beta.
  set (d4 := set_objects _ d3) in *.
  lazymatch goal with
  | |- context [((if ?b then ?m1 else ?m2) ≫= _) d4] =>
      destruct (branch_eval b m1 m2 d4) as [t12 H12]; [eexists; reflexivity..|]
  end.
  rewrite H12. clear H12.
  destruct (visible_after_hiding d3) as [Hlive4 Hvis]. fold d4 in Hlive4, Hvis.
  eval_filter_refs Hlive4. eval_print.
  rewrite !after_after.
  subst skinned_meshes. rewrite Hvis, !count_object_refs, Hkept.
  change (actions d3) with (f_actions f).
  unfold linked_duplicate. rewrite Hkept.
  rewrite rt_skinned_count, !rt_visible_count.
  eexists _, _. split; [reflexivity|]. split.
  - unfold rt_counts. cbv zeta. rewrite <- !app_assoc. apply sublist_inserts_l. cbn [app].
    repeat first [ apply sublist_nil_l | apply sublist_skip | apply sublist_inserts_l
                 | apply sublist_cons ].
  - intros t' d' a E. refine ((_ : passes (rt_summary f) _) d4 t' d' a E).
    unfold rt_summary. passes_tac.
Qed.


(** ** After the export call *)

Section Settled.

Context (B : event -> Prop).

Lemma robust_total {A} (m : M A) :
  (forall d, exists a, (m d).2 = Ok a) -> robust B m.
Proof. intros H d. left. apply H. Qed.

Lemma robust_bind {A C} (m : M A) (k : A -> M C) :
  robust B m -> (forall a, robust B (k a)) -> robust B (m ≫= k).
Proof.
  intros Hm Hk d. specialize (Hm d). rewrite bind_unfold.
  destruct (m d) as [[t d1] [a|s]].
  - rewrite trace_after. destruct (Hk a d1) as [Hok|Hb].
    + left. exact Hok.
    + right. apply Exists_app. right. exact Hb.
  - destruct Hm as [[a [=]]|Hb]. right. exact Hb.
Qed.

Lemma robust_filter_refs cond refs :
  (forall e, B (Raised e)) -> robust B (filter_refs cond refs).
Proof.
  intros H. induction refs as [|r refs IH]; cbn [filter_refs].
  - apply robust_total. intros d. eexists. reflexivity.
  - apply robust_bind.
    + intros d. unfold deref. destruct (obj_at d r).
      * left. eexists. reflexivity.
      * right. constructor. apply H.
    + intros o. apply robust_bind; [exact IH|]. intros rest.
      apply robust_total. intros d. eexists. reflexivity.
Qed.

Lemma not_exported (t : list event) :
  Forall (fun ev => exported ev = false) t -> ~ Exists (fun ev => exported ev = true) t.
Proof.
  intros Hf Hex. apply Exists_exists in Hex as (ev & Hin & Hev).
  rewrite Forall_forall in Hf. specialize (Hf ev Hin). congruence.
Qed.

Lemma settled_none {A} (m : M A) :
  emits (fun ev => exported ev = false) m -> settled B m.
Proof. intros Hm d Hex. destruct (not_exported _ (Hm d) Hex). Qed.

Lemma settled_skip {A C} (m : M A) (k : A -> M C) :
  emits (fun ev => exported ev = false) m -> (forall a, settled B (k a)) ->
  settled B (m ≫= k).
Proof.
  intros Hm Hk d. pose proof (not_exported _ (Hm d)) as Hn. rewrite bind_unfold.
  destruct (m d) as [[t d1] [a|s]]; [|intros Hex; destruct (Hn Hex)].
  rewrite trace_after. intros Hex. apply Exists_app in Hex as [Hex|Hex]; [destruct (Hn Hex)|].
  destruct (Hk a d1 Hex) as [Hok|Hb]; [left; exact Hok|].
  right. apply Exists_app. right. exact Hb.
Qed.

Lemma settled_here {A C} (m : M A) (k : A -> M C) :
  settled B m -> (forall a, robust B (k a)) -> settled B (m ≫= k).
Proof.
  intros Hm Hk d. specialize (Hm d). rewrite bind_unfold.
  destruct (m d) as [[t d1] [a|s]].
  - rewrite trace_after. intros _. destruct (Hk a d1) as [Hok|Hb]; [left; exact Hok|].
    right. apply Exists_app. right. exact Hb.
  - intros Hex. destruct (Hm Hex) as [[a [=]]|Hb]. right. exact Hb.
Qed.

Lemma settled_try {A} (m : M A) clauses :
  settled B m -> (forall s, emits (fun ev => exported ev = false) (handler clauses s)) ->
  settled B (try m clauses).
Proof.
  intros Hm Hh d. unfold try. specialize (Hm d).
  destruct (m d) as [[t d1] [a|s]]; [exact Hm|].
  pose proof (not_exported _ (Hh s d1)) as Hn.
  destruct (handler clauses s d1) as [[t' d2] r].
  unfold trace in *. cbn [fst snd] in *. intros Hex.
  apply Exists_app in Hex as [Hex|Hex]; [|destruct (Hn Hex)].
  destruct (Hm Hex) as [[a [=]]|Hb]. right. apply Exists_app. left. exact Hb.
Qed.

End Settled.

Lemma settled_export B host kw : settled B (bpy_ops_export_scene_gltf host kw).
Proof.
  intros d. unfold bpy_ops_export_scene_gltf. destruct (export_gltf host kw d).
  - intros Hex. apply Exists_cons in Hex as [[=]|Hex]. inversion Hex.
  - intros _. left. eexists. reflexivity.
Qed.

Lemma robust_getsize host p : robust (mishap host p) (os_path_getsize host p).
Proof.
  intros d. unfold os_path_getsize. destruct (getsize host p) as [e|n] eqn:E.
  - right. constructor. split; [reflexivity | exact E].
  - left. eexists. reflexivity.
Qed.

Ltac robust_tac :=
  repeat (cbv zeta;
          lazymatch goal with
          | |- robust _ (_ ≫= _) => apply robust_bind; [| intros ?]
          | |- robust _ (os_path_getsize _ _) => apply robust_getsize
          | |- robust _ (filter_refs _ _) => apply robust_filter_refs; intros ?; exact I
          | |- robust _ _ => apply robust_total; intros ?; eexists; reflexivity
          end).

Ltac settled_tac :=
  repeat (cbv zeta;
          lazymatch goal with
          | |- settled _ (try _ _) =>
              apply settled_try; [| intros ?; solve [emits_tac by_computation]]
          | |- settled _ (bpy_ops_export_scene_gltf _ _) => apply settled_export
          | |- settled _ (_ ≫= _) =>
              first [ apply settled_skip; [solve [emits_tac by_computation] | intros ?]
                    | apply settled_here; [| intros ?; solve [robust_tac]] ]
          | |- settled _ _ => apply settled_none; solve [emits_tac by_computation]
          end).

Lemma env_settled host : settled (mishap host Env.OUTPUT_GLB) (Env.main host).
Proof. unfold Env.main, Env.export_environment. settled_tac. Qed.

Lemma char_settled host : settled (mishap host Char.OUTPUT_GLB) (Char.main host).
Proof. unfold Char.main. settled_tac. unfold Char.export_character. settled_tac. Qed.

Lemma rt_settled host : settled (mishap host RtScene.OUTPUT_GLB) (RtScene.main host).
Proof. unfold RtScene.main. settled_tac. unfold RtScene.export_rt_scene. settled_tac. Qed.

Lemma size_after_export host opts p (main : M unit) first :
  settled (mishap host p) main ->
  Forall sound (trace_of host main) ->
  precedes is_getsize (ExportGltf opts None) main ->
  (forall e d b, getsize host p = inl e -> (main d).2 <> Ok b) ->
  (forall size, getsize host p = inr size ->
     passes [first; ExportGltf opts None; Getsize p (inr size); Print (size_line size)] main) ->
  (outcome_of host main = Exit 0 -> (main (load (startup host))).2 = Ok tt) ->
  size_readout host opts p main.
Proof.
  intros Hset Hsound Hprec Hneeds Hpasses Hexit. unfold size_readout.
  rewrite run_trace in *. rewrite run_outcome in *.
  specialize (Hset (load (startup host))).
  destruct (main (load (startup host))) as [[t d] r] eqn:Em. unfold trace in *.
  cbn [fst snd] in *.
  assert (forall a, r = Ok a ->
            exists size, getsize host p = inr size /\
              sublist [ExportGltf opts None; Getsize p (inr size); Print (size_line size)] t)
    as Hok.
  { intros a ->. destruct (getsize host p) as [e|size] eqn:Hs.
    { destruct (Hneeds e (load (startup host)) a eq_refl). rewrite Em. reflexivity. }
    exists size. split; [reflexivity|].
    eapply sublist_tail, (Hpasses size eq_refl), Em. }
  split.
  - intros Hin.
    assert (Exists (fun ev => exported ev = true) t) as Hex.
    { apply Exists_exists. exists (ExportGltf opts None).
      split; [apply list_elem_of_In, Hin | reflexivity]. }
    destruct (Hset Hex) as [[a Er]|Hb].
    + destruct (Hok a Er) as (size & Hs & Hsub). rewrite Hs. subst r. split.
      * etrans; [|exact Hsub]. do 2 apply sublist_skip. apply sublist_nil_l.
      * intros size' [= <-]. split; [reflexivity | exact Hsub].
    + apply Exists_exists in Hb as (ev & Hev & Hm). apply list_elem_of_In in Hev.
      rewrite Forall_forall in Hsound.
      destruct ev as [| | | | | | | | |q [e|n]|]; cbn in Hm; try contradiction.
      * destruct Hm as [-> Hs]. rewrite Hs. split; [|intros size [=]].
        apply in_split in Hev as (t1 & t2 & ->).
        pose proof (Hprec (load (startup host)) t1 (Getsize p (inl e)) t2) as Hp.
        rewrite Em in Hp. specialize (Hp eq_refl eq_refl).
        apply (sublist_app [_] t1 [_]); [apply sublist_singleton, Hp|].
        apply sublist_skip, sublist_nil_l.
      * destruct (Hsound _ (proj2 (list_elem_of_In _ _) Hev)).
  - intros H0. exact (Hok tt (Hexit H0)).
Qed.

Lemma env_size_readout host :
  size_readout host Env.gltf_options Env.OUTPUT_GLB (Env.main host).
Proof.
  eapply size_after_export.
  - apply env_settled.
  - rewrite run_trace. exact (hoare_sound _ _ _ _ (env_hoare host) I).
  - apply env_size_precedes.
  - apply env_needs_size.
  - apply env_passes.
  - intros H0. destruct (exit_0_returns _ _ host _ (env_ruled host) H0) as (t & d & ->).
    reflexivity.
Qed.

Lemma char_size_readout host :
  size_readout host Char.gltf_options Char.OUTPUT_GLB (Char.main host).
Proof.
  eapply size_after_export.
  - apply char_settled.
  - rewrite run_trace. exact (hoare_sound _ _ _ _ (char_hoare host) I).
  - apply char_size_precedes.
  - apply char_needs_size.
  - apply char_passes.
  - exact (top_exit_0 _ host _ (char_ruled host)).
Qed.

Lemma rt_size_readout host :
  size_readout host RtScene.gltf_options RtScene.OUTPUT_GLB (RtScene.main host).
Proof.
  eapply size_after_export.
  - apply rt_settled.
  - rewrite run_trace. exact (hoare_sound _ _ _ _ (rt_hoare host) I).
  - apply rt_size_precedes.
  - apply rt_needs_size.
  - apply rt_passes.
  - exact (top_exit_0 _ host _ (rt_ruled host)).
Qed.

(** * The claims on the exit status and on the file size *)

(** ** C1: exceptions and the exit status *)

(** C1, as stated, fails twice: export_char.py run on an empty file raises
    no exception and ends with status 1; in export_env.py the [OSError] of
    the size readout is caught by nothing in the script. *)
Lemma C1_counterexample :
  (raised (trace_of ex_host_bare (Char.main ex_host_bare)) = [] /\
   outcome_of ex_host_bare (Char.main ex_host_bare) = Exit 1) /\
  (raised (trace_of ex_host_no_output (Env.main ex_host_no_output)) =
     [Exception "[Errno 2] No such file or directory"] /\
   outcome_of ex_host_no_output (Env.main ex_host_no_output) =
     Uncaught (Exception "[Errno 2] No such file or directory")).
Proof. split_and!; reflexivity. Qed.

Lemma char_guard_exit host :
  no_skinned_mesh host -> outcome_of host (Char.main host) = Exit 1.
Proof.
  intros (f & Hopen & Hno).
  destruct (char_after_load host f (load (startup host)) Hopen) as [[_ E]|[Hsome _]];
    [|contradiction].
  unfold outcome_of, run, Char.main, try. rewrite E. reflexivity.
Qed.

(** C1 (amended): in export_rt_scene.py and export_char.py every exception
    raised during a run is caught, a message is printed right after it and the
    process ends with status 1; in export_env.py this holds for an
    [Exception] raised by the file load or by the export call.  A run in
    which no exception is raised ends with status 0, except that
    export_rt_scene.py ends with status 1 when the scene file does not exist
    and export_char.py ends with status 1 when the loaded file has no skinned
    mesh: without an exception, the guard alone decides between the two. *)
Theorem C1_exceptions_and_exit_status (host : Host) :
  ((forall ev e, In ev (trace_of host (RtScene.main host)) -> failure ev = Some e ->
      outcome_of host (RtScene.main host) = Exit 1 /\
      reported (trace_of host (RtScene.main host)) ev) /\
   (scene_file_missing host -> outcome_of host (RtScene.main host) = Exit 1) /\
   (raised (trace_of host (RtScene.main host)) = [] ->
      (scene_file_missing host /\ outcome_of host (RtScene.main host) = Exit 1) \/
      (~ scene_file_missing host /\ outcome_of host (RtScene.main host) = Exit 0))) /\
  ((forall ev e, In ev (trace_of host (Char.main host)) -> failure ev = Some e ->
      outcome_of host (Char.main host) = Exit 1 /\
      reported (trace_of host (Char.main host)) ev) /\
   (no_skinned_mesh host -> outcome_of host (Char.main host) = Exit 1) /\
   (raised (trace_of host (Char.main host)) = [] ->
      (no_skinned_mesh host /\ outcome_of host (Char.main host) = Exit 1) \/
      (~ no_skinned_mesh host /\ outcome_of host (Char.main host) = Exit 0))) /\
  ((forall ev e, In ev (trace_of host (Env.main host)) -> failure ev = Some e ->
      is_load_or_export ev = true -> is_Exception e = true ->
      outcome_of host (Env.main host) = Exit 1 /\
      reported (trace_of host (Env.main host)) ev) /\
   (raised (trace_of host (Env.main host)) = [] ->
      outcome_of host (Env.main host) = Exit 0)).
Proof.
  split_and!.
  - apply (top_summary _ host _ (rt_ruled host)).
  - intros Hg. exact (proj1 (rt_missing_file host Hg)).
  - intros Hr.
    destruct (proj2 (top_summary _ host _ (rt_ruled host)) Hr) as [E|[E Hg]].
    + right. split; [|exact E]. intros Hg.
      pose proof (proj1 (rt_missing_file host Hg)) as E1.
      change (outcome_of host (RtScene.main host) = Exit 0) in E. congruence.
    + left. split; assumption.
  - apply (top_summary _ host _ (char_ruled host)).
  - apply char_guard_exit.
  - intros Hr.
    destruct (proj2 (top_summary _ host _ (char_ruled host)) Hr) as [E|[E Hg]].
    + right. split; [|exact E]. intros Hg.
      pose proof (char_guard_exit host Hg) as E1.
      change (outcome_of host (Char.main host) = Exit 0) in E. congruence.
    + left. split; assumption.
  - apply env_summary.
  - apply env_summary.
Qed.

Lemma C1_witness :
  (outcome_of ex_host_export_fails (RtScene.main ex_host_export_fails) = Exit 1 /\
   reported (trace_of ex_host_export_fails (RtScene.main ex_host_export_fails))
     (ExportGltf RtScene.gltf_options (Some (Exception "Error: export failed")))) /\
  outcome_of ex_host_no_scene (RtScene.main ex_host_no_scene) = Exit 1 /\
  outcome_of ex_host_bare (Char.main ex_host_bare) = Exit 1 /\
  outcome_of ex_host (RtScene.main ex_host) = Exit 0.
Proof.
  split; [|split; [|split]].
  - apply (proj1 (proj1 (C1_exceptions_and_exit_status ex_host_export_fails))
             (ExportGltf RtScene.gltf_options (Some (Exception "Error: export failed")))
             (Exception "Error: export failed")); [|reflexivity].
    vm_compute. tauto.
  - apply (proj1 (proj2 (proj1 (C1_exceptions_and_exit_status ex_host_no_scene)))).
    reflexivity.
  - apply (proj1 (proj2 (proj1 (proj2 (C1_exceptions_and_exit_status ex_host_bare))))).
    exists ex_empty. split; reflexivity.
  - destruct (proj2 (proj2 (proj1 (C1_exceptions_and_exit_status ex_host))) eq_refl)
      as [[Hg _]|[_ E]]; [discriminate Hg | exact E].
Defined.

(** ** C7: the file-size line *)

(** C7: once its export call has returned, each script asks for the size of
    its output file, and if the host gives one it prints "File size: X MB"
    and ends with status 0.  X is the float that Python's division of the
    size by 1024*1024 gives, rounded to hundredths and written as its integer
    part, a point, the tenths and the hundredths; for a size below 2^53 bytes
    the float is the quotient itself and X its nearest hundredth. *)
Theorem C7_file_size_line (host : Host) :
  size_readout host Env.gltf_options Env.OUTPUT_GLB (Env.main host) /\
  size_readout host Char.gltf_options Char.OUTPUT_GLB (Char.main host) /\
  size_readout host RtScene.gltf_options RtScene.OUTPUT_GLB (RtScene.main host) /\
  (forall size, (0 <= size)%Z ->
     let h := round_half_even (truediv size (1024 * 1024) * 100) in
     size_line size =
       "File size: " +:+
         (pretty (h / 100)%Z +:+ "." +:+ pretty (h mod 100 / 10)%Z +:+ pretty (h mod 10)%Z) +:+
       " MB" /\
     (size < 2 ^ 53 ->
      (truediv size (1024 * 1024) == size # 1048576)%Q /\
      2 * Z.abs (100 * size - 1048576 * h) <= 1048576)%Z) /\
  size_line 1101005 = "File size: 1.05 MB" /\
  size_line 9007199254872065 = "File size: 8589934592.12 MB".
Proof.
  split_and!.
  - apply env_size_readout.
  - apply char_size_readout.
  - apply rt_size_readout.
  - exact size_line_spec.
  - vm_compute. reflexivity.
  - vm_compute. reflexivity.
Qed.

Lemma C7_witness :
  sublist [ ExportGltf RtScene.gltf_options None; Getsize RtScene.OUTPUT_GLB (inr 131072%Z);
            Print "File size: 0.12 MB" ] (trace_of ex_host (RtScene.main ex_host)) /\
  sublist [ ExportGltf Env.gltf_options None;
            Getsize Env.OUTPUT_GLB (inl (Exception "[Errno 2] No such file or directory")) ]
          (trace_of ex_host_no_output (Env.main ex_host_no_output)).
Proof.
  split.
  - refine (proj2 (proj2 (proj1 (proj1 (proj2 (proj2 (C7_file_size_line ex_host)))) _)
                     131072%Z eq_refl)).
    vm_compute. tauto.
  - refine (proj1 (proj1 (proj1 (C7_file_size_line ex_host_no_output)) _)).
    vm_compute. tauto.
Defined.

(** * Further properties of the scripts *)

(** ** What a host operation depends on *)

(** X1: a script calls the exporter only after its file has been opened
    without an exception; export_rt_scene.py opens its file only after the
    factory settings have been loaded without an exception. *)
Theorem X1_export_needs_load (host : Host) :
  (forall t1 kw res t2,
     trace_of host (Env.main host) = t1 ++ ExportGltf kw res :: t2 ->
     In (OpenMainfile Env.ENV_FILE None) t1) /\
  (forall t1 kw res t2,
     trace_of host (Char.main host) = t1 ++ ExportGltf kw res :: t2 ->
     In (OpenMainfile Char.CHAR_FILE None) t1) /\
  (forall t1 kw res t2,
     trace_of host (RtScene.main host) = t1 ++ ExportGltf kw res :: t2 ->
     In (OpenMainfile RtScene.RT_SCENE_FILE None) t1) /\
  (forall t1 p res t2,
     trace_of host (RtScene.main host) = t1 ++ OpenMainfile p res :: t2 ->
     In (ReadHomefile None) t1).
Proof.
  split_and!.
  - intros t1 kw res t2 E.
    exact (precedes_run _ _ host _ _ _ _ (env_export_precedes host) E eq_refl).
  - intros t1 kw res t2 E.
    exact (precedes_run _ _ host _ _ _ _ (char_export_precedes host) E eq_refl).
  - intros t1 kw res t2 E.
    exact (precedes_run _ _ host _ _ _ _ (rt_export_precedes host) E eq_refl).
  - intros t1 p res t2 E.
    exact (precedes_run _ _ host _ _ _ _ (rt_open_precedes host) E eq_refl).
Qed.

(** X2: a script reads the size of its output file only in a run in which
    the export call, with the script's keyword arguments, has returned without
    an exception: after a failed export no size is read. *)
Theorem X2_size_needs_export (host : Host) :
  (forall p res, In (Getsize p res) (trace_of host (Env.main host)) ->
     In (ExportGltf Env.gltf_options None) (trace_of host (Env.main host))) /\
  (forall p res, In (Getsize p res) (trace_of host (Char.main host)) ->
     In (ExportGltf Char.gltf_options None) (trace_of host (Char.main host))) /\
  (forall p res, In (Getsize p res) (trace_of host (RtScene.main host)) ->
     In (ExportGltf RtScene.gltf_options None) (trace_of host (RtScene.main host))).
Proof.
  split_and!.
  - intros p res Hin. exact (requires_run _ _ host _ _ (env_size_requires host) Hin eq_refl).
  - intros p res Hin. exact (requires_run _ _ host _ _ (char_size_requires host) Hin eq_refl).
  - intros p res Hin. exact (requires_run _ _ host _ _ (rt_size_requires host) Hin eq_refl).
Qed.

(** ** What follows an exception *)

(** X3: once an effect has failed with an exception, a script does nothing
    but print.  export_rt_scene.py and export_char.py print the message of
    their export handler for an [Exception] of the export call, "Export
    cancelled by user." for a [KeyboardInterrupt], and "Unexpected error: ..."
    followed by the traceback for any other [Exception]; both end with status
    1.  export_env.py prints its load or export message for an [Exception] of
    these two calls and ends with status 1; any other exception ends it at
    once, uncaught. *)
Theorem X3_exception_reports (host : Host) :
  (forall t1 ev t2 e,
     trace_of host (RtScene.main host) = t1 ++ ev :: t2 -> failure ev = Some e ->
     t2 = rt_report ev e /\ outcome_of host (RtScene.main host) = Exit 1) /\
  (forall t1 ev t2 e,
     trace_of host (Char.main host) = t1 ++ ev :: t2 -> failure ev = Some e ->
     t2 = char_report ev e /\ outcome_of host (Char.main host) = Exit 1) /\
  (forall t1 ev t2 e,
     trace_of host (Env.main host) = t1 ++ ev :: t2 -> failure ev = Some e ->
     t2 = (env_report ev e).1 /\ outcome_of host (Env.main host) = (env_report ev e).2).
Proof.
  split_and!; intros t1 ev t2 e E Hf.
  - exact (run_reports _ host _ t1 ev t2 e (rt_ends host) E Hf).
  - exact (run_reports _ host _ t1 ev t2 e (char_ends host) E Hf).
  - exact (run_reports _ host _ t1 ev t2 e (env_ends host) E Hf).
Qed.

Lemma X3_witness :
  trace_of ex_host_load_fails (Env.main ex_host_load_fails) =
    [ Print (str_mul "=" 60); Print "Environment Export Script"; Print (str_mul "=" 60);
      Print (nl +:+ "1. Loading environment file: " +:+ Env.ENV_FILE) ] ++
    OpenMainfile Env.ENV_FILE (Some (Exception "Error: Cannot read file")) ::
    [ Print "❌ Error loading file: Error: Cannot read file" ] /\
  outcome_of ex_host_load_fails (Env.main ex_host_load_fails) = Exit 1.
Proof.
  split; [reflexivity|].
  apply (proj2 (proj2 (X3_exception_reports ex_host_load_fails))
           [ Print (str_mul "=" 60); Print "Environment Export Script"; Print (str_mul "=" 60);
             Print (nl +:+ "1. Loading environment file: " +:+ Env.ENV_FILE) ]
           (OpenMainfile Env.ENV_FILE (Some (Exception "Error: Cannot read file")))
           [ Print "❌ Error loading file: Error: Cannot read file" ]
           (Exception "Error: Cannot read file")); reflexivity.
Defined.

(** ** The guard on the scene file *)

(** X4: if the scene file does not exist, export_rt_scene.py ends with
    status 1 without opening a file, toggling a collection, exporting or
    reading a size; when the factory settings load, its whole output is the
    banner, the "Loading" line and the two lines of the error. *)
Theorem X4_missing_scene_file (host : Host) :
  path_exists host RtScene.RT_SCENE_FILE = false ->
  outcome_of host (RtScene.main host) = Exit 1 /\
  steps (trace_of host (RtScene.main host)) = [] /\
  (forall f, read_homefile host = inr f ->
     trace_of host (RtScene.main host) =
       [ Print (nl +:+ str_mul "=" 60); Print "RT_SCENE Export Script"; Print (str_mul "=" 60);
         ReadHomefile None;
         Print (nl +:+ "1. Loading RT_SCENE: " +:+ RtScene.RT_SCENE_FILE);
         Print ("❌ ERROR: RT_SCENE file not found at: " +:+ RtScene.RT_SCENE_FILE);
         Print "   Update the path in this script to match your file location." ]).
Proof. apply rt_missing_file. Qed.

Lemma X4_witness :
  outcome_of ex_host_no_scene (RtScene.main ex_host_no_scene) = Exit 1 /\
  steps (trace_of ex_host_no_scene (RtScene.main ex_host_no_scene)) = [].
Proof.
  destruct (X4_missing_scene_file ex_host_no_scene eq_refl) as (H1 & H2 & _).
  split; assumption.
Defined.

(** ** The output directory *)

(** X5: export_rt_scene.py creates no directory but "public" in the
    project directory, the directory of its output file, and that only when
    the host reports it missing and after the scene file has been opened; if
    creating it fails, the exporter is not called and the run ends with status
    1. *)
Theorem X5_output_directory (host : Host) (t1 t2 : list event) (p : string)
    (res : option exn) :
  trace_of host (RtScene.main host) = t1 ++ Makedirs p res :: t2 ->
  p = "/Users/amaro/Documents/dev/based.guide_realtime/public" /\
  path_exists host p = false /\
  In (OpenMainfile RtScene.RT_SCENE_FILE None) t1 /\
  (forall e, res = Some e ->
     exports (trace_of host (RtScene.main host)) = [] /\
     outcome_of host (RtScene.main host) = Exit 1).
Proof.
  intros E.
  assert (In (Makedirs p res) (trace_of host (RtScene.main host))) as Hin.
  { rewrite E. apply in_or_app. right. left. reflexivity. }
  pose proof (rt_makedirs_only host (load (startup host))) as H.
  rewrite <- run_trace, Forall_forall in H.
  destruct (H _ (proj2 (list_elem_of_In _ _) Hin) p res eq_refl) as [Hp Hex].
  split_and!.
  - exact Hp.
  - exact Hex.
  - exact (precedes_run _ _ host _ _ _ _ (rt_makedirs_precedes host) E eq_refl).
  - intros e ->. split; [exact (rt_makedirs_fails host p e Hin)|].
    exact (proj1 (proj1 (top_summary _ host _ (rt_ruled host)) _ e Hin eq_refl)).
Qed.

Lemma X5_witness :
  path_exists ex_host_no_dir "/Users/amaro/Documents/dev/based.guide_realtime/public" = false /\
  exports (trace_of ex_host_no_dir (RtScene.main ex_host_no_dir)) = [] /\
  outcome_of ex_host_no_dir (RtScene.main ex_host_no_dir) = Exit 1.
Proof.
  assert (exists t1 t2,
            trace_of ex_host_no_dir (RtScene.main ex_host_no_dir) =
            t1 ++ Makedirs "/Users/amaro/Documents/dev/based.guide_realtime/public"
                    (Some (Exception "[Errno 13] Permission denied")) :: t2)
    as (t1 & t2 & E).
  { apply in_split. vm_compute. tauto. }
  destruct (X5_output_directory ex_host_no_dir t1 t2 _ _ E) as (_ & H2 & _ & H4).
  split; [exact H2 | exact (H4 _ eq_refl)].
Defined.

(** ** The collection-hiding steps *)

(** X6: the collection-hiding step of export_env.py returns the names of the
    collections whose name, upper-cased by [str.upper], contains "WORKING", in
    the order of [bpy.data.collections]; the one of export_rt_scene.py returns
    the number of collections whose name contains "Working".  Either counts a
    matching collection whether or not it was hidden already. *)
Theorem X6_hidden_collections_returned (host : Host) (d : Data) :
  (Env.hide_working_collections host d).2 =
    Ok (Collection.name <$>
          List.filter (fun c => contains "WORKING" (str_upper host (Collection.name c)))
                      (collections d)) /\
  (RtScene.hide_working_collections d).2 =
    Ok (length (List.filter (fun c => contains "Working" (Collection.name c)) (collections d))).
Proof. split; [apply env_hide_result | apply rt_hide_result]. Qed.

Lemma X6_witness :
  (Env.hide_working_collections ex_host (load ex_file)).2 = Ok ["Working"] /\
  (RtScene.hide_working_collections (load ex_file)).2 = Ok 1 /\
  (Env.hide_working_collections ex_host ex_lower).2 = Ok ["working"] /\
  (RtScene.hide_working_collections ex_lower).2 = Ok 0 /\
  (Env.hide_working_collections ex_host_dotless ex_dotless).2 = Ok ["workıng"].
Proof.
  split_and!.
  - exact (proj1 (X6_hidden_collections_returned ex_host (load ex_file))).
  - exact (proj2 (X6_hidden_collections_returned ex_host (load ex_file))).
  - exact (proj1 (X6_hidden_collections_returned ex_host ex_lower)).
  - exact (proj2 (X6_hidden_collections_returned ex_host ex_lower)).
  - exact (proj1 (X6_hidden_collections_returned ex_host_dotless ex_dotless)).
Defined.

Lemma env_hide_state host d :
  (Env.hide_working_collections host d).1.2 =
  set_collections
    ((fun c => if contains "WORKING" (str_upper host (Collection.name c)) then hidden c else c)
       <$> collections d) d.
Proof. destruct (env_hide_eval host d) as (t & names & -> & _). reflexivity. Qed.

Lemma rt_hide_state d :
  (RtScene.hide_working_collections d).1.2 =
  set_collections
    ((fun c => if contains "Working" (Collection.name c) then hidden c else c)
       <$> collections d) d.
Proof. destruct (rt_hide_eval d) as (t & n & -> & _). reflexivity. Qed.

Lemma set_collections_twice cs cs' d :
  set_collections cs (set_collections cs' d) = set_collections cs d.
Proof. reflexivity. Qed.

(** X7: running a collection-hiding step a second time changes nothing and
    returns what the first run returned. *)
Theorem X7_hiding_twice (host : Host) (d : Data) :
  let env1 := Env.hide_working_collections host d in
  let env2 := Env.hide_working_collections host env1.1.2 in
  let rt1 := RtScene.hide_working_collections d in
  let rt2 := RtScene.hide_working_collections rt1.1.2 in
  (env2.1.2 = env1.1.2 /\ env2.2 = env1.2) /\
  (rt2.1.2 = rt1.1.2 /\ rt2.2 = rt1.2).
Proof.
  intros env1 env2 rt1 rt2. unfold env2, env1, rt2, rt1.
  rewrite !env_hide_result, !rt_hide_result, !env_hide_state, !rt_hide_state.
  cbn [collections set_collections]. rewrite !hide_twice by reflexivity.
  split_and!; [reflexivity | | reflexivity |].
  - f_equal. apply filter_hidden. reflexivity.
  - f_equal.
    pose proof (filter_hidden (fun c => contains "Working" (Collection.name c)) (collections d)
                  (fun _ => eq_refl)) as H.
    apply (f_equal length) in H. rewrite !length_fmap in H. exact H.
Qed.

(** ** The orphaned-duplicate removal *)

(** X8: the orphaned-duplicate removal returns the number of objects it has
    removed: the live objects that are orphaned duplicates; the objects left
    and the objects removed make up the objects there were, and the objects
    of the scene are the same as before. *)
Theorem X8_orphans_counted (d : Data) :
  let res := RtScene.remove_orphans d in
  let n := length (List.filter (orphan (scene_names d) d) (live_objects d)) in
  res.2 = Ok n /\
  length (live_objects res.1.2) + n = length (live_objects d) /\
  scene_objects res.1.2 = scene_objects d.
Proof.
  intros res n. unfold res. rewrite remove_orphans_count, remove_orphans_state.
  split_and!; [reflexivity | apply sweep_length |].
  unfold scene_objects, live_objects. cbn [objects set_objects].
  apply sweep_scene. intros o Ho Hs. unfold scene_names.
  apply elem_of_list_to_set, list_elem_of_fmap. exists o. split; [reflexivity|].
  unfold scene_objects, live_objects.
  apply list_elem_of_In, filter_In. split; [apply list_elem_of_In, Ho | exact Hs].
Qed.

(** X9: a second orphaned-duplicate removal right after the first removes
    nothing: it returns 0 and leaves the data as they are. *)
Theorem X9_orphans_removed_once (d : Data) :
  let d1 := (RtScene.remove_orphans d).1.2 in
  (RtScene.remove_orphans d1).1.2 = d1 /\ (RtScene.remove_orphans d1).2 = Ok 0.
Proof. apply remove_orphans_twice. Qed.

(** ** The linked duplicates *)




(** X11: the objects export_rt_scene.py takes for export once the linked
    duplicates are hidden are the objects of the file that were visible in the
    viewport and are no linked duplicate, so a duplicate the loop has just
    hidden is not among them. *)
Theorem X11_export_objects (d : Data) :
  let refs := object_refs d in
  let visible := fun o => negb (Object.hide_viewport o) && negb (linked_duplicate d o) in
  let res := (hide_linked_duplicates refs ≫=
                fun _ => filter_refs (fun obj => negb (Object.hide_viewport obj)) refs) d in
  res.2 = Ok (List.filter (holds d visible) refs) /\
  length (List.filter (holds d visible) refs) = length (List.filter visible (live_objects d)).
Proof.
  intros refs visible res. split; [|apply count_object_refs].
  unfold res, refs. destruct (hide_linked_duplicates_eval d) as (t & E & _).
  rewrite (bind_eval _ _ _ _ _ _ E), result_after.
  destruct (visible_after_hiding d) as [Hlive Hvis].
  rewrite filter_refs_live by exact Hlive. cbn [snd]. f_equal. exact Hvis.
Qed.

(** ** Access through references *)

(** X12: in no run does a script fail on an access to an attribute: it never
    reads or writes through a reference to an object it has removed, and
    export_rt_scene.py reads the path of an object's library only for linked
    objects. *)
Theorem X12_no_failed_access (host : Host) :
  Forall sound (trace_of host (Env.main host)) /\
  Forall sound (trace_of host (Char.main host)) /\
  Forall sound (trace_of host (RtScene.main host)).
Proof.
  rewrite !run_trace. split_and!.
  - exact (hoare_sound _ _ _ _ (env_hoare host) I).
  - exact (hoare_sound _ _ _ _ (char_hoare host) I).
  - exact (hoare_sound _ _ _ _ (rt_hoare host) I).
Qed.

(** ** The summaries *)

(** X13: on a run of export_env.py that ends with status 0, the summary
    gives as "mesh(es)" the number of 'MESH' objects with neither hide flag
    set, the number the "Will export" line gave before the export, and as
    "light(s)" the number of all 'LIGHT' objects of the file, hidden or not. *)
Theorem X13_env_summary (host : Host) (f : BlendFile) :
  open_mainfile host Env.ENV_FILE = inr f ->
  outcome_of host (Env.main host) = Exit 0 ->
  sublist
    [ Print (will_export_line (f_objects f));
      ExportGltf Env.gltf_options None;
      Print ("   - " +:+ pretty (count_type "MESH" (List.filter shown (f_objects f))) +:+
             " mesh(es)");
      Print ("   - " +:+ pretty (count_type "LIGHT" (f_objects f)) +:+ " light(s)") ]
    (trace_of host (Env.main host)).
Proof.
  intros Hopen H0. destruct (exit_0_returns _ _ host _ (env_ruled host) H0) as (t & d & E).
  rewrite run_trace, E. exact (env_success host f _ _ _ _ Hopen E).
Qed.

Lemma X13_witness :
  sublist
    [ Print "   Will export 4 objects (2 meshes)";
      ExportGltf Env.gltf_options None;
      Print "   - 2 mesh(es)";
      Print "   - 1 light(s)" ]
    (trace_of ex_host (Env.main ex_host)).
Proof. exact (X13_env_summary ex_host ex_file eq_refl eq_refl). Defined.

(** X14: on a run of export_char.py that ends with status 0, the summary
    repeats the numbers of skinned meshes and of armatures found in the
    loaded file. *)
Theorem X14_char_summary (host : Host) (f : BlendFile) :
  open_mainfile host Char.CHAR_FILE = inr f ->
  outcome_of host (Char.main host) = Exit 0 ->
  sublist
    [ ExportGltf Char.gltf_options None;
      Print ("   - " +:+ pretty (length (List.filter skinned (f_objects f))) +:+
             " skinned mesh(es)");
      Print ("   - " +:+ pretty (count_type "ARMATURE" (f_objects f)) +:+ " armature(s)") ]
    (trace_of host (Char.main host)).
Proof.
  intros Hopen H0. pose proof (top_exit_0 _ host _ (char_ruled host) H0) as E.
  change ((Char.main host (load (startup host))).2 = Ok tt) in E.
  rewrite run_trace. unfold Char.main, try in *.
  destruct (Char.export_character host (load (startup host))) as [[t d] [a|s]] eqn:Eb.
  - exact (char_success host f _ _ _ _ Hopen Eb).
  - exfalso. pose proof (top_handlers_exit s d tt) as Hno.
    destruct (handler _ s d) as [[t2 d2] r]. cbn in E. apply Hno. exact E.
Qed.

Lemma X14_witness :
  sublist
    [ ExportGltf Char.gltf_options None;
      Print "   - 2 skinned mesh(es)";
      Print "   - 1 armature(s)" ]
    (trace_of ex_host (Char.main ex_host)).
Proof. exact (X14_char_summary ex_host ex_file eq_refl eq_refl). Defined.

(** ** What the scripts never do *)

Lemma hides_only_env host : emits hides_only (Env.main host).
Proof. emits_tac by_computation. Qed.

Lemma hides_only_char host : emits hides_only (Char.main host).
Proof. emits_tac by_computation. Qed.

Lemma hides_only_rt host : emits hides_only (RtScene.main host).
Proof. emits_tac by_computation. Qed.

Lemma keeps_objects_env host : emits keeps_objects (Env.main host).
Proof. emits_tac by_computation. Qed.

Lemma keeps_objects_char host : emits keeps_objects (Char.main host).
Proof. emits_tac by_computation. Qed.

(** X15: no script ever sets a hide flag to False, so what a run has hidden
    stays hidden until the process ends; export_env.py and export_char.py
    write no attribute of an object and remove no object. *)
Theorem X15_only_hiding (host : Host) :
  Forall hides_only (trace_of host (Env.main host)) /\
  Forall hides_only (trace_of host (Char.main host)) /\
  Forall hides_only (trace_of host (RtScene.main host)) /\
  Forall keeps_objects (trace_of host (Env.main host)) /\
  Forall keeps_objects (trace_of host (Char.main host)).
Proof.
  rewrite !run_trace. split_and!;
    [ apply hides_only_env | apply hides_only_char | apply hides_only_rt
    | apply keeps_objects_env | apply keeps_objects_char ].
Qed.

(** ** The report on linked data *)

(** X16: when the factory settings load, the scene file exists and opens,
    export_rt_scene.py reports the linked data of the file right after the
    line "2. Processing linked data...": the numbers of linked objects,
    meshes, cameras, lights and armatures, one line for each of the first
    five linked objects with the base name of its library's path, a line
    "... and N more" exactly when there are more than five, and a closing
    line; for a file without linked objects it prints the three lines of a
    warning instead. *)
Theorem X16_linked_report (host : Host) (f0 f : BlendFile) :
  read_homefile host = inr f0 ->
  path_exists host RtScene.RT_SCENE_FILE = true ->
  open_mainfile host RtScene.RT_SCENE_FILE = inr f ->
  exists t1 t2,
    trace_of host (RtScene.main host) =
    (t1 ++ [Print (nl +:+ "2. Processing linked data...")] ++
     (if bool_decide (List.filter (is_linked Object.library) (f_objects f) = [])
      then no_linked_report else linked_report f)) ++ t2.
Proof.
  intros Hhome Hexists Hopen. rewrite run_trace. unfold RtScene.main.
  destruct (rt_linked_block host f0 f (load (startup host)) Hhome Hexists Hopen)
    as (t1 & x & E).
  lazymatch goal with
  | |- context [try _ ?cl _] => destruct (try_after _ cl _ _ _ E) as [t2 Et]
  end.
  exists t1, t2. exact Et.
Qed.

Lemma X16_witness :
  exists t1 t2,
    trace_of ex_host (RtScene.main ex_host) =
    (t1 ++ [Print (nl +:+ "2. Processing linked data...")] ++
     [ Print "   Found 2 linked objects";
       Print "   Found 1 linked meshes";
       Print "   Found 0 linked cameras";
       Print "   Found 0 linked lights";
       Print "   Found 1 linked armatures";
       Print "      - Body (from CHAR_MrProBonobo_MASTER.blend)";
       Print "      - Rig (from CHAR_MrProBonobo_MASTER.blend)";
       Print (nl +:+ "   ✓ Library-linked data will be exported directly (no localization needed)") ])
    ++ t2.
Proof. exact (X16_linked_report ex_host ex_empty ex_file eq_refl eq_refl eq_refl). Defined.

(** ** The counts of export_rt_scene.py *)

(** X17: when the factory settings load, the scene file exists and opens,
    export_rt_scene.py prints, in this order, the numbers of skinned meshes,
    cameras, armatures and meshes that are visible in the viewport among the
    objects the orphaned-duplicate removal has left, the number of actions,
    and in its "Will export" line the number of those objects that are
    visible in the viewport and are no linked duplicate of a local object. *)
Theorem X17_rt_counts (host : Host) (f0 f : BlendFile) :
  read_homefile host = inr f0 ->
  path_exists host RtScene.RT_SCENE_FILE = true ->
  open_mainfile host RtScene.RT_SCENE_FILE = inr f ->
  sublist (rt_counts f) (trace_of host (RtScene.main host)).
Proof.
  intros Hhome Hexists Hopen. rewrite run_trace. unfold RtScene.main.
  destruct (rt_counts_eval host f0 f (load (startup host)) Hhome Hexists Hopen)
    as (t & x & E & Hsub & _).
  lazymatch goal with
  | |- context [try _ ?cl _] => destruct (try_after _ cl _ _ _ E) as [t2 Et]
  end.
  rewrite Et. apply sublist_inserts_r, Hsub.
Qed.

Lemma X17_witness :
  sublist
    [ Print "   - SkinnedMeshes (character): 1";
      Print "   - Cameras: 1";
      Print "   - Armatures (rigs): 2";
      Print "   - Total meshes: 1";
      Print "   - Animations: 2";
      Print "   Will export 4 objects" ]
    (trace_of ex_host_scene (RtScene.main ex_host_scene)).
Proof. exact (X17_rt_counts ex_host_scene ex_empty ex_scene eq_refl eq_refl eq_refl). Defined.

(** X18: on a run of export_rt_scene.py that ends with status 0, the summary
    gives as "objects" the number the "Will export" line gave before the
    export, and as "cameras" the number counted while verifying the scene,
    before the linked duplicates were hidden. *)
Theorem X18_rt_summary (host : Host) (f0 f : BlendFile) :
  read_homefile host = inr f0 ->
  path_exists host RtScene.RT_SCENE_FILE = true ->
  open_mainfile host RtScene.RT_SCENE_FILE = inr f ->
  outcome_of host (RtScene.main host) = Exit 0 ->
  sublist (rt_counts f ++ rt_summary f) (trace_of host (RtScene.main host)).
Proof.
  intros Hhome Hexists Hopen H0. pose proof (top_exit_0 _ host _ (rt_ruled host) H0) as E0.
  change ((RtScene.main host (load (startup host))).2 = Ok tt) in E0.
  rewrite run_trace. unfold RtScene.main, try in *.
  destruct (rt_counts_eval host f0 f (load (startup host)) Hhome Hexists Hopen)
    as (t & x & E & Hsub & Hrest).
  rewrite E in *. destruct x as [[t' d'] [a|s]]; unfold after in *; cbn [fst snd] in *.
  - cbn [trace fst]. apply sublist_app; [exact Hsub | exact (Hrest _ _ _ eq_refl)].
  - exfalso. pose proof (top_handlers_exit s d' tt) as Hno.
    destruct (handler _ s d') as [[t2 d2] r]. cbn in E0. apply Hno. exact E0.
Qed.

Lemma X18_witness :
  sublist
    [ Print "   - SkinnedMeshes (character): 1";
      Print "   - Cameras: 1";
      Print "   - Armatures (rigs): 1";
      Print "   - Total meshes: 1";
      Print "   - Animations: 2";
      Print "   Will export 4 objects";
      ExportGltf RtScene.gltf_options None;
      Print "   - 4 objects";
      Print "   - 1 cameras" ]
    (trace_of ex_host (RtScene.main ex_host)).
Proof. exact (X18_rt_summary ex_host ex_empty ex_file eq_refl eq_refl eq_refl eq_refl). Defined.
